(** * ubiquant_market_prediction: preprocessing and window splitting

    A shallow embedding of [preprocessing.py] (NaivePreprocessor,
    TensorPreprocessor, TimeSeriesTensorScaler) and of the [TimeSplitter]
    of [nn_commons.py], with the properties the specification states
    about them.

    Numbers are exact rationals extended with NaN (the missing value of
    the arrays); numpy arrays are nested lists that carry their shape;
    the objects the caller hands in live in a store, so that in-place
    writes through a view are visible to the caller. *)

From Stdlib Require Import QArith Qcanon ZArith Lia Lqa Ascii String.
From stdpp Require Import gmap strings list numbers.
From stdpp Require pretty.

Set Default Proof Using "Type".
Open Scope nat_scope.

(** ** Python exceptions and results *)

Inductive exn :=
  | AssertionError | ValueError | IndexError | KeyError
  | AttributeError | TypeError | NotFittedError.

Inductive result (A : Type) :=
  | Ok (a : A)
  | Raise (e : exn).
Arguments Ok {A} a.
Arguments Raise {A} e.

Definition rbind {A B} (r : result A) (k : A → result B) : result B :=
  match r with Ok a => k a | Raise e => Raise e end.

(** The call returned (it did not raise). *)
Definition succeeded {A} (r : result A) : bool :=
  match r with Ok _ => true | Raise _ => false end.

(** ** Array elements: a rational or NaN *)

Inductive float :=
  | NaN
  | Num (q : Qc).

Definition isnan (v : float) : bool :=
  match v with NaN => true | Num _ => false end.

(** [v > w] and [v < w] of IEEE comparison: false as soon as one side is NaN. *)
Definition fgt (v w : float) : bool :=
  match v, w with
  | Num a, Num b => bool_decide (b < a)%Qc
  | _, _ => false
  end.

Definition flt (v w : float) : bool := fgt w v.

Definition fle (v w : float) : bool :=
  match v, w with
  | Num a, Num b => bool_decide (a ≤ b)%Qc
  | _, _ => false
  end.

(** [lo <= v <= hi]. *)
Definition in_interval (lo hi v : float) : bool := fle lo v && fle v hi.

(** ** numpy arrays of rank 1, 2 and 3 *)

Record nd2 := Nd2 { shape2 : nat * nat; data2 : list (list float) }.
Record nd3 := Nd3 { shape3 : nat * nat * nat; data3 : list (list (list float)) }.

Definition rows_ok (c : nat) (m : list (list float)) : Prop :=
  Forall (λ r, length r = c) m.

Definition wf2 (a : nd2) : Prop :=
  length (data2 a) = (shape2 a).1 ∧ rows_ok (shape2 a).2 (data2 a).

Definition wf3 (a : nd3) : Prop :=
  length (data3 a) = (shape3 a).1.1 ∧
  Forall (λ s, length s = (shape3 a).1.2 ∧ rows_ok (shape3 a).2 s) (data3 a).

(** ** nn_commons.py: TimeSplitter *)

(** [l[s:e]] for [0 <= s]: the indices from [s] up to (not including) [e],
    both clipped to the length. *)
Definition slice {A} (s e : nat) (l : list A) : list A := take (e - s) (drop s l).

(** [x[:, s:e]] on a rank-3 and on a rank-2 array. *)
Definition slice_time3 (s e : nat) (x : nd3) : nd3 :=
  Nd3 ((shape3 x).1.1, (e `min` (shape3 x).1.2) - (s `min` (shape3 x).1.2), (shape3 x).2)
      (map (slice s e) (data3 x)).

Definition slice_time2 (s e : nat) (y : nd2) : nd2 :=
  Nd2 ((shape2 y).1, (e `min` (shape2 y).2) - (s `min` (shape2 y).2))
      (map (slice s e) (data2 y)).

(** The values [range(start, stop, step)] runs through for a positive
    step; [fuel] bounds the number of iterations. *)
Fixpoint range_loop (fuel start stop step : nat) : list nat :=
  match fuel with
  | 0 => []
  | S fuel' =>
      if decide (start < stop)
      then start :: range_loop fuel' (start + step) stop step
      else []
  end.

(** [range(0, stop, step)]: a zero step is a ValueError, a negative one
    gives the empty range. *)
Definition range0 (stop : nat) (step : Z) : result (list nat) :=
  match step with
  | Z0 => Raise ValueError
  | Zneg _ => Ok []
  | Zpos p => Ok (range_loop stop 0 stop (Pos.to_nat p))
  end.

Module TimeSplitter.
Record t := mk {
  x_chunked : list nd3;
  y_chunked : list nd2;
  order : list nat;
}.

(** One chunk per start of the range, appended in order. *)
Definition __init__ (x : nd3) (y : nd2) (window_size : Z) : result t :=
  let T := (shape3 x).1.2 in
  rbind (range0 T window_size) (λ starts,
    let xs := map (λ start_t, slice_time3 start_t (start_t + Z.to_nat window_size) x)
                  starts in
    let ys := map (λ start_t, slice_time2 start_t (start_t + Z.to_nat window_size) y)
                  starts in
    Ok (mk xs ys (seq 0 (length xs)))).

Definition __len__ (self : t) : nat := length (order self).

Definition __getitem__ (self : t) (index : nat) : result (nd3 * nd2) :=
  match x_chunked self !! index, y_chunked self !! index with
  | Some cx, Some cy => Ok (cx, cy)
  | _, _ => Raise IndexError
  end.
End TimeSplitter.

(** Concatenation of arrays along the time axis (axis 1), the operation
    the specification uses to put the chunks together again. *)
Definition concat_time3 (n f : nat) (chunks : list nd3) : nd3 :=
  foldr (λ c acc, Nd3 (n, (shape3 c).1.2 + (shape3 acc).1.2, f)
                      (zip_with app (data3 c) (data3 acc)))
        (Nd3 (n, 0, f) (replicate n [])) chunks.

Definition concat_time2 (n : nat) (chunks : list nd2) : nd2 :=
  foldr (λ c acc, Nd2 (n, (shape2 c).2 + (shape2 acc).2)
                      (zip_with app (data2 c) (data2 acc)))
        (Nd2 (n, 0) (replicate n [])) chunks.

(** [ceil(t / w)] on naturals. *)
Definition ceil_div (t w : nat) : nat := (t + w - 1) / w.

(** ** Arithmetic on array elements (NaN propagates) *)

Definition fadd (v w : float) : float :=
  match v, w with Num a, Num b => Num (a + b)%Qc | _, _ => NaN end.
Definition fsub (v w : float) : float :=
  match v, w with Num a, Num b => Num (a - b)%Qc | _, _ => NaN end.
Definition fmul (v w : float) : float :=
  match v, w with Num a, Num b => Num (a * b)%Qc | _, _ => NaN end.
(** Division; the quotient by zero (an infinity or NaN in numpy) is not a
    rational and is rendered as NaN. *)
Definition fdiv (v w : float) : float :=
  match v, w with
  | Num a, Num b => if decide (b = 0%Qc) then NaN else Num (a / b)%Qc
  | _, _ => NaN
  end.

Definition fzero : float := Num 0%Qc.
Definition of_Z (z : Z) : float := Num (Q2Qc (inject_Z z)).
Definition of_nat (n : nat) : float := of_Z (Z.of_nat n).

(** ** numpy arrays of any of the three ranks *)

Inductive ndarray :=
  | A1 (v : list float)
  | A2 (a : nd2)
  | A3 (a : nd3).

Definition wf (a : ndarray) : Prop :=
  match a with A1 _ => True | A2 a => wf2 a | A3 a => wf3 a end.

(** [a.shape] *)
Definition nd_shape (a : ndarray) : list nat :=
  match a with
  | A1 v => [length v]
  | A2 a => [(shape2 a).1; (shape2 a).2]
  | A3 a => [(shape3 a).1.1; (shape3 a).1.2; (shape3 a).2]
  end.

(** [len(a)] *)
Definition nd_len (a : ndarray) : nat :=
  match a with
  | A1 v => length v
  | A2 a => (shape2 a).1
  | A3 a => (shape3 a).1.1
  end.

(** Elementwise map: the shape stays, every element is rewritten. *)
Definition nd_map (f : float → float) (a : ndarray) : ndarray :=
  match a with
  | A1 v => A1 (map f v)
  | A2 a => A2 (Nd2 (shape2 a) (map (map f) (data2 a)))
  | A3 a => A3 (Nd3 (shape3 a) (map (map (map f)) (data3 a)))
  end.

(** The elements in row-major order. *)
Definition ravel (a : ndarray) : list float :=
  match a with
  | A1 v => v
  | A2 a => concat (data2 a)
  | A3 a => concat (concat (data3 a))
  end.

(** Cut a list into [r] consecutive pieces of length [c]. *)
Fixpoint unflatten {A} (r c : nat) (l : list A) : list (list A) :=
  match r with
  | 0 => []
  | S r' => take c l :: unflatten r' c (drop c l)
  end.

(** [np.reshape(values, shape)] for a shape of rank 1 to 3: a ValueError
    unless the number of elements is the product of the shape. *)
Definition reshape (l : list float) (shape : list nat) : result ndarray :=
  match shape with
  | [n] =>
      if decide (length l = n) then Ok (A1 l) else Raise ValueError
  | [n; m] =>
      if decide (length l = n * m)
      then Ok (A2 (Nd2 (n, m) (unflatten n m l))) else Raise ValueError
  | [n; m; k] =>
      if decide (length l = n * m * k)
      then Ok (A3 (Nd3 (n, m, k) (map (unflatten m k) (unflatten n (m * k) l))))
      else Raise ValueError
  | _ => Raise ValueError
  end.

(** [a.reshape(-1, 1)]: all elements as one column. *)
Definition as_column (a : ndarray) : nd2 :=
  Nd2 (length (ravel a), 1) (map (λ v, [v]) (ravel a)).

(** [m.transpose(1, 0)] of a matrix. *)
Definition transpose2 (m : nd2) : nd2 :=
  Nd2 ((shape2 m).2, (shape2 m).1)
      (map (λ j, map (λ row, default NaN (row !! j)) (data2 m)) (seq 0 (shape2 m).2)).

(** [x[mask(x)] = value]: in place, elementwise. *)
Definition set_where (mask : float → bool) (value : float) (v : float) : float :=
  if mask v then value else v.

(** Sequencing of fallible steps over a list, in list order. *)
Fixpoint mapM {A B} (f : A → result B) (l : list A) : result (list B) :=
  match l with
  | [] => Ok []
  | a :: l' => rbind (f a) (λ b, rbind (mapM f l') (λ bs, Ok (b :: bs)))
  end.

(** [for i in idxs: s = body(i, s)], stopping at the first exception. *)
Fixpoint for_each {S} (idxs : list nat) (body : nat → S → result S) (s : S) : result S :=
  match idxs with
  | [] => Ok s
  | i :: rest => rbind (body i s) (for_each rest body)
  end.

(** numpy broadcasting of a matrix value into a slot of [t] rows and [f]
    columns: an axis of the value must have the slot's length or length 1. *)
Definition broadcast_row (f : nat) (row : list float) : result (list float) :=
  if decide (length row = f) then Ok row
  else match row with [v] => Ok (replicate f v) | _ => Raise ValueError end.

Definition broadcast2 (t f : nat) (r : nd2) : result (list (list float)) :=
  if decide (((shape2 r).1 = t ∨ (shape2 r).1 = 1) ∧ ((shape2 r).2 = f ∨ (shape2 r).2 = 1))
  then
    rbind (if decide (length (data2 r) = t) then Ok (data2 r)
           else match data2 r with [row] => Ok (replicate t row) | _ => Raise ValueError end)
          (mapM (broadcast_row f))
  else Raise ValueError.

(** ** State and exceptions: the monad of the methods *)

Definition M (S A : Type) : Type := S → result A * S.

Definition ret {S A} (a : A) : M S A := λ s, (Ok a, s).
Definition raise {S A} (e : exn) : M S A := λ s, (Raise e, s).
Definition bind {S A B} (m : M S A) (k : A → M S B) : M S B :=
  λ s, match m s with
       | (Ok a, s') => k a s'
       | (Raise e, s') => (Raise e, s')
       end.
Definition lift {S A} (r : result A) : M S A := λ s, (r, s).
Definition get {S} : M S S := λ s, (Ok s, s).
Definition put {S} (s : S) : M S unit := λ _, (Ok tt, s).

Notation "'let!' x := m 'in' k" := (bind m (λ x, k))
  (at level 10, x pattern, m at level 100, k at level 200).
Notation "m ;; k" := (bind m (λ _, k))
  (at level 100, k at level 200, right associativity).
Notation "'let?' x := r 'in' k" := (rbind r (λ x, k))
  (at level 10, x pattern, r at level 100, k at level 200).


(** ** sklearn.preprocessing, as far as the preprocessors use it

    A transformer object is created from a class name and keyword
    arguments, [fit] stores fitted parameters in it, and [transform] and
    [inverse_transform] use them on a matrix.  [sk_fit_log] records the
    matrices [fit] has been called with. *)

Record Fitted := mkFitted {
  sk_transform : nd2 → result nd2;
  sk_inverse_transform : nd2 → result nd2;
}.

Record Scaler := mkScaler {
  sk_fit : nd2 → result Fitted;
  sk_fitted : option Fitted;
  sk_fit_log : list nd2;
}.

(** What indexing one position of an array gives. *)
Inductive item :=
  | IScalar (v : float)
  | IArr (a : ndarray).

Definition Scaler_fit (s : Scaler) (X : nd2) : result Scaler :=
  let? f := sk_fit s X in
  Ok (mkScaler (sk_fit s) (Some f) (sk_fit_log s ++ [X])).

(** [transform] and [inverse_transform] need a fitted object and a 2-D
    argument. *)
Definition Scaler_transform (s : Scaler) (X : item) : result nd2 :=
  match sk_fitted s with
  | None => Raise NotFittedError
  | Some f => match X with IArr (A2 m) => sk_transform f m | _ => Raise ValueError end
  end.

Definition Scaler_inverse_transform (s : Scaler) (X : nd2) : result nd2 :=
  match sk_fitted s with
  | None => Raise NotFittedError
  | Some f => sk_inverse_transform f X
  end.

(** The numpy primitives the model leaves open: the random generator
    behind [np.random.choice(n, size=k, replace=False)] and the square
    root, which leaves the rationals. *)
Class Numpy := {
  RNG : Type;
  np_random_choice : RNG → nat → nat → result (list nat) * RNG;
  np_sqrt : Qc → Qc;
}.

(** ** Indexing, slicing and statistics of numpy *)

(** [a[i]] *)
Definition getitem (a : ndarray) (i : nat) : result item :=
  match a with
  | A1 v => match v !! i with Some x => Ok (IScalar x) | None => Raise IndexError end
  | A2 a => match data2 a !! i with
            | Some r => Ok (IArr (A1 r)) | None => Raise IndexError end
  | A3 a => match data3 a !! i with
            | Some m => Ok (IArr (A2 (Nd2 ((shape3 a).1.2, (shape3 a).2) m)))
            | None => Raise IndexError end
  end.

(** [a[i] = r] for a matrix [r]: broadcast into the slot, in place.  Only
    a rank-3 array has matrix slots; the other ranks are never reached
    with a matrix value, since [transform] rejects their items first. *)
Definition setitem (a : ndarray) (i : nat) (r : nd2) : result ndarray :=
  match a with
  | A3 a =>
      if decide (i < length (data3 a)) then
        let? m := broadcast2 (shape3 a).1.2 (shape3 a).2 r in
        Ok (A3 (Nd3 (shape3 a) (<[i := m]> (data3 a))))
      else Raise IndexError
  | _ => Raise ValueError
  end.

(** [a[i:i+1]] for [i < len(a)] *)
Definition getslice1 (a : ndarray) (i : nat) : ndarray :=
  match a with
  | A1 v => A1 (slice i (i + 1) v)
  | A2 a => A2 (Nd2 (length (slice i (i + 1) (data2 a)), (shape2 a).2)
                    (slice i (i + 1) (data2 a)))
  | A3 a => A3 (Nd3 (length (slice i (i + 1) (data3 a)), (shape3 a).1.2, (shape3 a).2)
                    (slice i (i + 1) (data3 a)))
  end.

(** [a.transpose(1, 0)]: the two axes have to be all the axes. *)
Definition transpose10 (a : ndarray) : result nd2 :=
  match a with A2 m => Ok (transpose2 m) | _ => Raise ValueError end.

(** [a[i:i+1] = r] for a matrix [r] and [i < len(a)], on a matrix [a]. *)
Definition setslice1 (a : ndarray) (i : nat) (r : nd2) : result ndarray :=
  match a with
  | A2 a =>
      let? rows := broadcast2 1 (shape2 a).2 r in
      match rows with
      | [row] => Ok (A2 (Nd2 (shape2 a) (<[i := row]> (data2 a))))
      | _ => Raise ValueError
      end
  | _ => Raise ValueError
  end.

(** [features.reshape(-1, features.shape[2])] *)
Definition reshape_rows (features : ndarray) : result nd2 :=
  match features with
  | A3 a =>
      if decide ((shape3 a).2 = 0) then Raise ValueError
      else Ok (Nd2 ((shape3 a).1.1 * (shape3 a).1.2, (shape3 a).2) (concat (data3 a)))
  | _ => Raise IndexError
  end.

(** [m[sel_idx]]: the rows at the drawn positions. *)
Definition take_rows (sel_idx : list nat) (m : nd2) : result nd2 :=
  let? rows := mapM (λ i, match data2 m !! i with
                          | Some r => Ok r | None => Raise IndexError end) sel_idx in
  Ok (Nd2 (length sel_idx, (shape2 m).2) rows).

(** A column index of numpy: negative ones count from the end. *)
Definition norm_index (F : nat) (j : Z) : result nat :=
  if decide (0 ≤ j < Z.of_nat F)%Z then Ok (Z.to_nat j)
  else if decide (- Z.of_nat F ≤ j < 0)%Z then Ok (Z.to_nat (j + Z.of_nat F))
  else Raise IndexError.

(** The values that are not NaN. *)
Definition present (l : list float) : list Qc :=
  omap (λ v, match v with Num q => Some q | NaN => None end) l.

Definition qsum (l : list Qc) : Qc := foldr Qcplus 0%Qc l.
Definition qlen (l : list Qc) : Qc := Q2Qc (inject_Z (Z.of_nat (length l))).

(** [np.nanmean] of a list of values: NaN when nothing is present. *)
Definition nanmean (l : list float) : float :=
  match present l with
  | [] => NaN
  | qs => Num (qsum qs / qlen qs)%Qc
  end.


(** [np.arange(T).reshape(1, -1).repeat(n, 0)] *)
Record timesteps := mkTimesteps { t_shape : nat * nat; t_data : list (list nat) }.

Definition timesteps_of (y : ndarray) : result timesteps :=
  match nd_shape y !! 1 with
  | Some T => Ok (mkTimesteps (nd_len y, T) (replicate (nd_len y) (seq 0 T)))
  | None => Raise IndexError
  end.

Section numpy.
Context `{Numpy}.

(** [np.nanstd]: the root of the mean squared deviation of the values
    present. *)
Definition nanstd (l : list float) : float :=
  match present l with
  | [] => NaN
  | qs =>
      let m := (qsum qs / qlen qs)%Qc in
      Num (np_sqrt (qsum (map (λ q, (q - m) * (q - m))%Qc qs) / qlen qs)%Qc)
  end.

(** The sample standard deviation of pandas ([ddof=1]) over the values
    present: NaN for fewer than two. *)
Definition nanstd1 (l : list float) : float :=
  match present l with
  | [] | [_] => NaN
  | qs =>
      let m := (qsum qs / qlen qs)%Qc in
      Num (np_sqrt (qsum (map (λ q, (q - m) * (q - m))%Qc qs) / (qlen qs - 1))%Qc)
  end.

(** [stat(x[:, :, cols], axis=0)]: for every time step and selected
    column, the statistic over the samples. *)
Definition time_profile (stat : list float → float) (x : nd3) (cols : list nat)
    : list (list float) :=
  map (λ t, map (λ j, stat (map (λ smp, default NaN (smp !! t ≫= (.!! j))) (data3 x))) cols)
      (seq 0 (shape3 x).1.2).
End numpy.

(** ** preprocessing.py: TimeSeriesTensorScaler *)

Module TimeSeriesTensorScaler.
Record t := mk {
  scaler_features : option Scaler;
  scaler_targets : option Scaler;
  scaler_fit_sample : option nat;
}.

Definition transform_features (self : t) (features : ndarray) : result ndarray :=
  let scaled_features := features in
  match scaler_features self with
  | None => Ok scaled_features
  | Some sf =>
      for_each (seq 0 (nd_len features))
        (λ i scaled_features,
           let? Xi := getitem features i in
           let? r := Scaler_transform sf Xi in
           setitem scaled_features i r)
        scaled_features
  end.

Definition transform_targets (self : t) (targets : ndarray) : result ndarray :=
  let scaled_targets := targets in
  match scaler_targets self with
  | None => Ok scaled_targets
  | Some st =>
      for_each (seq 0 (nd_len targets))
        (λ i scaled_targets,
           let? col := transpose10 (getslice1 targets i) in
           let? r := Scaler_transform st (IArr (A2 col)) in
           setslice1 scaled_targets i (transpose2 r))
        scaled_targets
  end.

(** [transform(features, targets)].  The call without targets,
    [transform(features)], returns at [if targets is None] with
    [transform_features] alone. *)
Definition transform (self : t) (features targets : ndarray)
    : result (ndarray * ndarray) :=
  let? scaled_features := transform_features self features in
  let? scaled_targets := transform_targets self targets in
  Ok (scaled_features, scaled_targets).

Definition inverse_transform (self : t) (targets : ndarray) : result ndarray :=
  if decide (length (nd_shape targets) = 1 ∨ nd_shape targets !! 1 = Some 1) then
    match scaler_targets self with
    | None => Ok targets
    | Some st =>
        let? r := Scaler_inverse_transform st (as_column targets) in
        reshape (ravel (A2 r)) (nd_shape targets)
    end
  else Raise AssertionError.

Section fit.
Context `{Numpy}.

(** [fit] changes the scaler objects and draws from the generator. *)
Definition state : Type := t * RNG.

(** [m[np.random.choice(len(m), size, replace=False)]] when a sample
    size is configured. *)
Definition subsample (m : nd2) : M state nd2 :=
  let! (self, g) := get in
  match scaler_fit_sample self with
  | None => ret m
  | Some size =>
      let '(sel_idx, g) := np_random_choice g (shape2 m).1 size in
      put (self, g);;
      let! sel_idx := lift sel_idx in
      lift (take_rows sel_idx m)
  end.

Definition fit (features targets : ndarray) : M state unit :=
  let! (self, _) := get in
  match scaler_features self with
  | None => ret tt
  | Some sf =>
      let! feat_reshaped := lift (reshape_rows features) in
      let! feat_reshaped := subsample feat_reshaped in
      let! sf := lift (Scaler_fit sf feat_reshaped) in
      let! (self, g) := get in
      put (mk (Some sf) (scaler_targets self) (scaler_fit_sample self), g)
  end;;
  let! (self, _) := get in
  match scaler_targets self with
  | None => ret tt
  | Some st =>
      let targ_reshaped := as_column targets in
      let! targ_reshaped := subsample targ_reshaped in
      let! st := lift (Scaler_fit st targ_reshaped) in
      let! (self, g) := get in
      put (mk (scaler_features self) (Some st) (scaler_fit_sample self), g)
  end.
End fit.
End TimeSeriesTensorScaler.

(** ** preprocessing.py: TensorPreprocessor

    The arrays of the caller are objects of a store; a Python name is
    bound either to one of them or to an array the method made itself. *)

Inductive aref :=
  | Caller (l : nat)
  | Own (a : ndarray).

Module TensorPreprocessor.
Record t := mk {
  fill_na_target : bool;
  crop_low : option float;
  crop_high : option float;
  time_id_features_idx : list Z;
}.

Section methods.
Context `{Numpy}.

(** The arrays of the caller, the random generator and [self.ts_scaler]. *)
Record world := mkWorld {
  store : gmap nat ndarray;
  rng : RNG;
  ts_scaler : TimeSeriesTensorScaler.t;
}.

(** A method of [self.ts_scaler] that changes it. *)
Definition with_scaler {A} (m : M TimeSeriesTensorScaler.state A) : M world A :=
  λ w, let '(r, (ts, g)) := m (ts_scaler w, rng w) in (r, mkWorld (store w) g ts).

(** Reading the array a name is bound to. *)
Definition deref (r : aref) : M world ndarray :=
  match r with
  | Own a => ret a
  | Caller l =>
      let! w := get in
      match store w !! l with Some a => ret a | None => raise AttributeError end
  end.

(** An in-place elementwise write through a name. *)
Definition update (r : aref) (f : float → float) : M world aref :=
  match r with
  | Own a => ret (Own (nd_map f a))
  | Caller l =>
      let! a := deref r in
      let! w := get in
      put (mkWorld (<[l := nd_map f a]> (store w)) (rng w) (ts_scaler w));;
      ret r
  end.

(** [x.copy()] *)
Definition copy_of (r : aref) : M world aref :=
  let! a := deref r in ret (Own a).

(** The array part of [_add_time_features], for a non-empty index list. *)
Definition time_features (idx : list Z) (x : ndarray) : result ndarray :=
  match x with
  | A3 a =>
      let? cols := mapM (norm_index (shape3 a).2) idx in
      let time_x_mean := time_profile nanmean a cols in
      let time_x_std := time_profile nanstd a cols in
      let time_x_mean := replicate (shape3 a).1.1 time_x_mean in
      let time_x_std := replicate (shape3 a).1.1 time_x_std in
      Ok (A3 (Nd3 ((shape3 a).1.1, (shape3 a).1.2,
                   (shape3 a).2 + length cols + length cols)
                  (zip_with (zip_with app)
                     (zip_with (zip_with app) (data3 a) time_x_mean) time_x_std)))
  | _ => Raise IndexError
  end.

Definition _add_time_features (self : t) (x : aref) : M world aref :=
  if decide (length (time_id_features_idx self) = 0) then ret x
  else
    let! a := deref x in
    let! a := lift (time_features (time_id_features_idx self) a) in
    ret (Own a).

Definition _run_data (self : t) (data : nat * nat) (copy : bool)
    : M world (aref * aref) :=
  let '(y, x) := data in
  let! x := (if copy then copy_of (Caller x) else ret (Caller x)) in
  let! y := (if copy then copy_of (Caller y) else ret (Caller y)) in
  let! x := _add_time_features self x in
  let! x := update x (set_where isnan fzero) in
  let! y := (if fill_na_target self then update y (set_where isnan fzero) else ret y) in
  let! y := (match crop_high self with
             | Some hi => update y (set_where (λ v, fgt v hi) hi)
             | None => ret y
             end) in
  let! y := (match crop_low self with
             | Some lo => update y (set_where (λ v, flt v lo) lo)
             | None => ret y
             end) in
  ret (x, y).

Definition ts_fit (features targets : ndarray) : M world unit :=
  with_scaler (TimeSeriesTensorScaler.fit features targets).

Definition ts_transform (features targets : ndarray) : M world (ndarray * ndarray) :=
  let! w := get in
  lift (TimeSeriesTensorScaler.transform (ts_scaler w) features targets).

Definition run (self : t) (train_data valid_data : nat * nat)
    : M world (ndarray * ndarray * timesteps * timesteps * ndarray * ndarray) :=
  let! (x_train, y_train) := _run_data self train_data true in
  let! (x_valid, y_valid) := _run_data self valid_data true in
  let! x_train := deref x_train in
  let! y_train := deref y_train in
  let! x_valid := deref x_valid in
  let! y_valid := deref y_valid in
  ts_fit x_train y_train;;
  let! (x_train, y_train) := ts_transform x_train y_train in
  let! (x_valid, y_valid) := ts_transform x_valid y_valid in
  let! timesteps_train := lift (timesteps_of y_train) in
  let! timesteps_valid := lift (timesteps_of y_valid) in
  ret (x_train, x_valid, timesteps_train, timesteps_valid, y_train, y_valid).

Definition run_inference (self : t) (x : nat) : M world ndarray :=
  let! x := update (Caller x) (set_where isnan fzero) in
  let! x := deref x in
  let! w := get in
  lift (TimeSeriesTensorScaler.transform_features (ts_scaler w) x).

Definition run_train (self : t) (data : nat * nat) : M world (ndarray * ndarray) :=
  let! (x, y) := _run_data self data false in
  let! x := deref x in
  let! y := deref y in
  ts_fit x y;;
  let! (x, y) := ts_transform x y in
  ret (x, y).

Definition inverse_transform (self : t) (valid_pred : ndarray) : M world ndarray :=
  let! w := get in
  lift (TimeSeriesTensorScaler.inverse_transform (ts_scaler w) valid_pred).
End methods.
End TensorPreprocessor.

Global Instance float_eq_dec : EqDecision float.
Proof. solve_decision. Defined.
Global Instance nd2_eq_dec : EqDecision nd2.
Proof. solve_decision. Defined.
Global Instance nd3_eq_dec : EqDecision nd3.
Proof. solve_decision. Defined.
Global Instance ndarray_eq_dec : EqDecision ndarray.
Proof. solve_decision. Defined.

(** ** Two members of sklearn.preprocessing

    Modelled from sklearn's documentation (the library is not part of the
    repository): [MinMaxScaler] with the default feature range (0, 1), a
    linear scaler, and [FunctionTransformer], which applies a function of
    the caller to the whole matrix it is given. *)

(** Input validation of a matrix: at least one row and one column. *)
Definition check_array (X : nd2) : result unit :=
  if decide (0 < (shape2 X).1 ∧ 0 < (shape2 X).2) then Ok tt else Raise ValueError.

Definition matrix_column (j : nat) (X : nd2) : list float :=
  map (λ row, default NaN (row !! j)) (data2 X).

Definition qmin (a b : Qc) : Qc := if decide (a ≤ b)%Qc then a else b.
Definition qmax (a b : Qc) : Qc := if decide (a ≤ b)%Qc then b else a.

Definition nanmin (l : list float) : float :=
  match present l with [] => NaN | q :: qs => Num (foldr qmin q qs) end.
Definition nanmax (l : list float) : float :=
  match present l with [] => NaN | q :: qs => Num (foldr qmax q qs) end.

(** A zero range is scaled by 1. *)
Definition handle_zeros_in_scale (r : float) : float :=
  match r with
  | Num q => if decide (q = 0%Qc) then Num 1%Qc else r
  | NaN => NaN
  end.

(** The fitted MinMaxScaler: [X * scale_ + min_] and [(X - min_) / scale_],
    column by column. *)
Definition MinMax_fitted (scale_ min_ : list float) : Fitted :=
  mkFitted
    (λ X, let? _ := check_array X in
          if decide ((shape2 X).2 = length scale_)
          then Ok (Nd2 (shape2 X)
                       (map (λ row, zip_with fadd (zip_with fmul row scale_) min_) (data2 X)))
          else Raise ValueError)
    (λ X, let? _ := check_array X in
          if decide ((shape2 X).2 = length scale_)
          then Ok (Nd2 (shape2 X)
                       (map (λ row, zip_with fdiv (zip_with fsub row min_) scale_) (data2 X)))
          else Raise ValueError).

Definition MinMaxScaler_fit (X : nd2) : result Fitted :=
  let? _ := check_array X in
  let data_min := map (λ j, nanmin (matrix_column j X)) (seq 0 (shape2 X).2) in
  let data_max := map (λ j, nanmax (matrix_column j X)) (seq 0 (shape2 X).2) in
  let scale_ := zip_with (λ lo hi, fdiv (Num 1%Qc) (handle_zeros_in_scale (fsub hi lo)))
                         data_min data_max in
  let min_ := zip_with (λ lo s, fsub fzero (fmul lo s)) data_min scale_ in
  Ok (MinMax_fitted scale_ min_).

Definition MinMaxScaler : Scaler := mkScaler MinMaxScaler_fit None [].

(** [FunctionTransformer(func)]: nothing to fit, [transform] is [func]
    and the inverse is the identity. *)
Definition FunctionTransformer (func : nd2 → nd2) : Scaler :=
  let fitted := mkFitted (λ X, Ok (func X)) (λ X, Ok X) in
  mkScaler (λ _, Ok fitted) (Some fitted) [].

(** [np.flipud]: the rows in reverse order. *)
Definition flipud (X : nd2) : nd2 := Nd2 (shape2 X) (reverse (data2 X)).

(** ** The reading of [transform] in the specification

    Following the specification's words: the feature scaler applied to
    the sample-by-feature slice [x[:, t, :]] of every time step [t], and
    the target scaler to every time-step column [y[:, t]]. *)

Definition transform_features_per_time_step (f : Fitted) (x : nd3) : result nd3 :=
  for_each (seq 0 (shape3 x).1.2)
    (λ t scaled,
       let? r := sk_transform f
                   (Nd2 ((shape3 x).1.1, (shape3 x).2)
                        (map (λ smp, default [] (smp !! t)) (data3 x))) in
       let? rows := broadcast2 (shape3 x).1.1 (shape3 x).2 r in
       Ok (Nd3 (shape3 x) (zip_with (λ smp row, <[t := row]> smp) (data3 scaled) rows)))
    x.

Definition transform_targets_per_time_step (f : Fitted) (y : nd2) : result nd2 :=
  for_each (seq 0 (shape2 y).2)
    (λ t scaled,
       let? r := sk_transform f
                   (Nd2 ((shape2 y).1, 1)
                        (map (λ row, [default NaN (row !! t)]) (data2 y))) in
       let? rows := broadcast2 (shape2 y).1 1 r in
       Ok (Nd2 (shape2 y)
               (zip_with (λ row v, <[t := default NaN (v !! 0)]> row) (data2 scaled) rows)))
    y.

(** The scaler acts on every row by itself: [transform] is a row function
    mapped over the rows, keeping their length. *)
Definition row_wise (f : Fitted) (g : list float → list float) : Prop :=
  (∀ row, length (g row) = length row) ∧
  ∀ X, sk_transform f X = Ok (Nd2 (shape2 X) (map g (data2 X))).

(** ** One iteration of the loops of [transform] *)

(** What the loop body of the features does with one sample. *)
Definition scale_sample (f : Fitted) (T F : nat) (m : list (list float))
    : result (list (list float)) :=
  let? r := sk_transform f (Nd2 (T, F) m) in broadcast2 T F r.

(** What the loop body of the targets does with the row of one sample. *)
Definition scale_target_row (f : Fitted) (T : nat) (row : list float)
    : result (list float) :=
  let? r := sk_transform f (transpose2 (Nd2 (1, T) [row])) in
  let? rows := broadcast2 1 T (transpose2 r) in
  match rows with [row'] => Ok row' | _ => Raise ValueError end.


(** ** Linear scalers *)

(** A column [(n, 1)] of values. *)
Definition col_of (l : list float) : nd2 := Nd2 (length l, 1) (map (λ v, [v]) l).

Definition faffine (a b : Qc) (v : float) : float := fadd (fmul v (Num a)) (Num b).
Definition faffine_inv (a b : Qc) (v : float) : float := fdiv (fsub v (Num b)) (Num a).

(** A fitted scaler that is linear on a single column: [v * a + b] with
    [a] not zero, and its inverse [(v - b) / a]. *)
Definition linear_scaler (ft : Fitted) (a b : Qc) : Prop :=
  a ≠ 0%Qc ∧
  ∀ l, l ≠ [] →
    sk_transform ft (col_of l) = Ok (col_of (map (faffine a b) l)) ∧
    sk_inverse_transform ft (col_of l) = Ok (col_of (map (faffine_inv a b) l)).

(** ** pandas data frames, as far as NaivePreprocessor uses them

    A frame has a number of rows and ordered, labelled columns; a column
    holds strings ([row_id]) or numbers.  Numeric columns are arrays of
    the element type above: an integer column is one whose values are
    integers. *)

Inductive column :=
  | StrCol (l : list string)
  | NumCol (l : list float).

Record frame := mkFrame { nrows : nat; columns : list (string * column) }.

(** The first column with the label. *)
Fixpoint assoc (name : string) (cols : list (string * column)) : option column :=
  match cols with
  | [] => None
  | (n, c) :: rest => if decide (n = name) then Some c else assoc name rest
  end.

Definition get_col (name : string) (df : frame) : option column :=
  assoc name (columns df).

(** ["name" in df] *)
Definition has_col (name : string) (df : frame) : bool :=
  bool_decide (is_Some (get_col name df)).

(** [df[name] = values]: replaces the column, or appends a new one. *)
Definition set_col (name : string) (c : column) (df : frame) : frame :=
  if has_col name df
  then mkFrame (nrows df) (map (λ p, if decide (p.1 = name) then (name, c) else p) (columns df))
  else mkFrame (nrows df) (columns df ++ [(name, c)]).

(** [df.drop(columns=labels)]: every label has to be there. *)
Definition drop_cols (labels : list string) (df : frame) : result frame :=
  if forallb (λ l, has_col l df) labels
  then Ok (mkFrame (nrows df) (filter (λ p, p.1 ∉ labels) (columns df)))
  else Raise KeyError.

(** The text before the first ["_"]. *)
Fixpoint first_segment (s : string) : string :=
  match s with
  | EmptyString => EmptyString
  | String c s' => if decide (c = "_"%char) then EmptyString else String c (first_segment s')
  end.

Definition digit_of (c : ascii) : option Z :=
  let n := nat_of_ascii c in
  if decide (48 ≤ n ≤ 57) then Some (Z.of_nat (n - 48)) else None.

Fixpoint parse_digits (acc : Z) (s : string) : option Z :=
  match s with
  | EmptyString => Some acc
  | String c s' => d ← digit_of c; parse_digits (10 * acc + d)%Z s'
  end.

(** [int(s)] for decimal digits with an optional sign. *)
Definition parse_int (s : string) : result Z :=
  let unsigned s := match s with
                    | EmptyString => None
                    | _ => parse_digits 0 s
                    end in
  let r := match s with
           | String "-"%char s' => Z.opp <$> unsigned s'
           | String "+"%char s' => unsigned s'
           | _ => unsigned s
           end in
  match r with Some z => Ok z | None => Raise ValueError end.

(** [df.row_id.str.split("_", expand=True)[0].astype(int).values] *)
Definition time_id_of_row_id (df : frame) : result column :=
  match get_col "row_id" df with
  | Some (StrCol ids) =>
      match ids with
      | [] => Raise KeyError
      | _ => let? zs := mapM (λ s, parse_int (first_segment s)) ids in
             Ok (NumCol (map of_Z zs))
      end
  | _ => Raise AttributeError
  end.

(** A group key of [groupby] and [merge]: a number or a text. *)
Inductive key :=
  | KNum (q : Qc)
  | KStr (s : string).

Global Instance key_eq_dec : EqDecision key.
Proof. solve_decision. Defined.

(** The keys of the rows of a column; a missing number is no key:
    [groupby] leaves the row out and [merge] finds no group for it. *)
Definition row_keys (c : column) : list (option key) :=
  match c with
  | NumCol l => map (λ v, match v with Num q => Some (KNum q) | NaN => None end) l
  | StrCol l => map (λ s, Some (KStr s)) l
  end.

(** [df.groupby(key)[c]]: the groups, each with the values of its rows
    (in the order of their first rows; pandas sorts them, and the merge
    below does not look at the order). *)
Definition groupby (keys : list (option key)) (vals : list float)
    : list (key * list float) :=
  map (λ k, (k, snd <$> filter (λ p, p.1 = Some k) (zip keys vals)))
      (remove_dups (omap id keys)).

(** [.mean()] or [.std()] and [reset_index]: one row for each group. *)
Definition aggregate (stat : list float → float) (groups : list (key * list float))
    : list (key * float) :=
  map (λ g, (g.1, stat g.2)) groups.

(** The row of a key in the aggregated frame. *)
Fixpoint group_value (k : key) (right : list (key * float)) : option float :=
  match right with
  | [] => None
  | (k', v) :: rest => if decide (k' = k) then Some v else group_value k rest
  end.

(** The column [pd.merge(df, right, how="left", on=key)] adds to [df]:
    for every row the value of its group, NaN where there is none. *)
Definition merge_left (keys : list (option key)) (right : list (key * float))
    : list float :=
  map (λ k, default NaN (k ≫= λ k, group_value k right)) keys.

(** A data frame as the matrix sklearn sees; text is not convertible. *)
Definition frame_to_matrix (df : frame) : result nd2 :=
  let? cols := mapM (λ p, match p.2 with
                          | NumCol l => Ok l
                          | StrCol _ => Raise ValueError
                          end) (columns df) in
  Ok (Nd2 (nrows df, length cols)
          (map (λ i, map (λ c, default NaN (c !! i)) cols) (seq 0 (nrows df)))).

(** ** preprocessing.py: NaivePreprocessor *)

(** What [_run] returns: the frame, or the matrix the scaler made of it. *)
Inductive features :=
  | DF (df : frame)
  | ND (m : nd2).

Module NaivePreprocessor.
Record t := mk {
  cols_to_drop : list string;
  crop_low : option float;
  crop_high : option float;
  time_id_features : list string;
}.

(** The frames of the caller and [self.scaler_features]. *)
Record world := mkWorld {
  store : gmap nat frame;
  scaler_features : option Scaler;
}.

Section methods.
Context `{Numpy}.

Definition read_frame (df : nat) : M world frame :=
  let! w := get in
  match store w !! df with Some f => ret f | None => raise AttributeError end.

Definition write_frame (df : nat) (f : frame) : M world unit :=
  let! w := get in
  put (mkWorld (<[df := f]> (store w)) (scaler_features w)).

(** [df.groupby("time_id")[self.time_id_features]]: the keys of the
    rows and the selected columns; every label has to be there. *)
Definition select_grouped (feats : list string) (df : frame)
    : result (list (option key) * list (string * column)) :=
  match get_col "time_id" df with
  | Some tid =>
      let? cols := mapM (λ c, match get_col c df with
                              | Some col => Ok (c, col)
                              | None => Raise KeyError
                              end) feats in
      Ok (row_keys tid, cols)
  | None => Raise KeyError
  end.

(** The aggregate of every selected column under its new label, as
    the left merge on [time_id] joins it to the rows (the generated
    labels are assumed not to clash with labels of the frame).  The
    statistic of a text column is a TypeError. *)
Definition time_columns (prefix : string) (stat : list float → float)
    (keys : list (option key)) (dgb : list (string * column))
    : result (list (string * column)) :=
  mapM (λ p, match p.2 with
             | NumCol vals =>
                 Ok (prefix +:+ p.1,
                     NumCol (merge_left keys (aggregate stat (groupby keys vals))))
             | StrCol _ => Raise TypeError
             end) dgb.

Definition _add_time_features (self : t) (df : frame) : result frame :=
  if decide (length (time_id_features self) = 0) then Ok df
  else
    let? dgb := select_grouped (time_id_features self) df in
    let? dgb_mean := time_columns "time_mean_" nanmean dgb.1 dgb.2 in
    let? dgb_std := time_columns "time_std_" nanstd1 dgb.1 dgb.2 in
    Ok (mkFrame (nrows df) (columns df ++ dgb_mean ++ dgb_std)).

(** The part of [_run] between the time column and the scaler: the
    time features are joined and the columns dropped. *)
Definition feature_frame (self : t) (f : frame) : result frame :=
  let? f := _add_time_features self f in
  let cols_to_drop := "row_id" :: cols_to_drop self in
  let cols_to_drop := if has_col "target" f then cols_to_drop ++ ["target"]
                      else cols_to_drop in
  drop_cols cols_to_drop f.

Definition _run (self : t) (df : nat) (fit_scaler : bool) : M world features :=
  let! f := read_frame df in
  (if has_col "time_id" f then ret tt
   else let! ids := lift (time_id_of_row_id f) in
        write_frame df (set_col "time_id" ids f));;
  let! f := read_frame df in
  let! f := lift (feature_frame self f) in
  let! w := get in
  match scaler_features w with
  | None => ret (DF f)
  | Some sc =>
      let! X := lift (frame_to_matrix f) in
      let! sc := (if fit_scaler
                  then let! sc := lift (Scaler_fit sc X) in
                       put (mkWorld (store w) (Some sc));; ret sc
                  else ret sc) in
      let! m := lift (Scaler_transform sc (IArr (A2 X))) in
      ret (ND m)
  end.

Definition run_inference (self : t) (valid_data : nat) : M world features :=
  _run self valid_data false.

(** [df.target.values]: the array behind the column. *)
Definition target_values (df : nat) : M world column :=
  let! f := read_frame df in
  match get_col "target" f with Some c => ret c | None => raise AttributeError end.

(** [y[mask(y)] = value] on the array behind the target column: the
    write goes through the view into the frame of the caller. *)
Definition set_target_where (df : nat) (mask : float → bool) (value : float)
    : M world unit :=
  let! f := read_frame df in
  match get_col "target" f with
  | Some (NumCol y) =>
      write_frame df (set_col "target" (NumCol (map (set_where mask value) y)) f)
  | Some (StrCol _) => raise TypeError
  | None => raise AttributeError
  end.

Definition run_train (self : t) (train_data : nat) : M world (features * column) :=
  let! x_train := _run self train_data true in
  let! _ := target_values train_data in
  match crop_high self with
  | Some hi => set_target_where train_data (λ v, fgt v hi) hi
  | None => ret tt
  end;;
  match crop_low self with
  | Some lo => set_target_where train_data (λ v, flt v lo) lo
  | None => ret tt
  end;;
  let! y_train := target_values train_data in
  ret (x_train, y_train).

Definition time_id_values (df : nat) : M world column :=
  let! f := read_frame df in
  match get_col "time_id" f with Some c => ret c | None => raise AttributeError end.

(** The arrays are returned by content; [y_train] is a view of the
    target column of [train_data] and is read when [run] returns. *)
Definition run (self : t) (train_data valid_data : nat)
    : M world (features * features * column * column * column * column) :=
  let! (x_train, _) := run_train self train_data in
  let! x_valid := run_inference self valid_data in
  let! timesteps_train := time_id_values train_data in
  let! timesteps_valid := time_id_values valid_data in
  let! y_valid := target_values valid_data in
  let! y_train := target_values train_data in
  ret (x_train, x_valid, timesteps_train, timesteps_valid, y_train, y_valid).
End methods.
End NaivePreprocessor.

(** ** What the preprocessors compute, element by element *)

(** [x[np.isnan(x)] = 0] *)
Definition fillna : float → float := set_where isnan fzero.

(** The two clamps, the upper bound first. *)
Definition clamp (lo hi : option float) (v : float) : float :=
  let v := match hi with Some hi => set_where (λ v, fgt v hi) hi v | None => v end in
  match lo with Some lo => set_where (λ v, flt v lo) lo v | None => v end.

(** The two clamps in the other order. *)
Definition clamp_low_first (lo hi : option float) (v : float) : float :=
  let v := match lo with Some lo => set_where (λ v, flt v lo) lo v | None => v end in
  match hi with Some hi => set_where (λ v, fgt v hi) hi v | None => v end.

(** What [TensorPreprocessor._run_data] makes of a target value. *)
Definition tensor_target (self : TensorPreprocessor.t) (v : float) : float :=
  clamp (TensorPreprocessor.crop_low self) (TensorPreprocessor.crop_high self)
        (if TensorPreprocessor.fill_na_target self then fillna v else v).

(** The features after [_add_time_features]. *)
Definition augmented `{Numpy} (self : TensorPreprocessor.t) (x : ndarray) : result ndarray :=
  if decide (length (TensorPreprocessor.time_id_features_idx self) = 0) then Ok x
  else TensorPreprocessor.time_features (TensorPreprocessor.time_id_features_idx self) x.

(** The values of column [j] at time step [t], one for each sample. *)
Definition across_samples (x : nd3) (t j : nat) : list float :=
  map (λ smp, default NaN (smp !! t ≫= (.!! j))) (data3 x).

(** [fit] was called once more on [sc], with rows of the matrix [rows]. *)
Definition fitted_once_on (sc sc' : Scaler) (rows : nd2) : Prop :=
  ∃ X, sk_fit_log sc' = sk_fit_log sc ++ [X]
       ∧ sk_fit sc' = sk_fit sc
       ∧ sk_fitted sc' = match sk_fit sc X with Ok f => Some f | Raise _ => None end
       ∧ is_Some (sk_fitted sc')
       ∧ (shape2 X).2 = (shape2 rows).2
       ∧ ∀ r, r ∈ data2 X → r ∈ data2 rows.

(** [ts'] is [ts] after one call [fit(features, targets)]: every scaler
    that is configured was fitted once more, on rows of the features or on
    values of the targets. *)
Definition fit_on (ts ts' : TimeSeriesTensorScaler.t) (features targets : ndarray) : Prop :=
  TimeSeriesTensorScaler.scaler_fit_sample ts' = TimeSeriesTensorScaler.scaler_fit_sample ts
  ∧ match TimeSeriesTensorScaler.scaler_features ts with
    | None => TimeSeriesTensorScaler.scaler_features ts' = None
    | Some sf =>
        ∃ sf' rows, TimeSeriesTensorScaler.scaler_features ts' = Some sf'
                    ∧ reshape_rows features = Ok rows ∧ fitted_once_on sf sf' rows
    end
  ∧ match TimeSeriesTensorScaler.scaler_targets ts with
    | None => TimeSeriesTensorScaler.scaler_targets ts' = None
    | Some st =>
        ∃ st', TimeSeriesTensorScaler.scaler_targets ts' = Some st'
               ∧ fitted_once_on st st' (as_column targets)
    end.


(** [f1] is the frame [f] after the first step of [_run]: the frame
    itself when it has a [time_id] column, and otherwise the frame with
    the column derived from [row_id] added. *)
Definition time_id_added (f f1 : frame) : Prop :=
  (has_col "time_id" f = true ∧ f1 = f)
  ∨ (has_col "time_id" f = false
     ∧ ∃ ids, time_id_of_row_id f = Ok ids ∧ f1 = set_col "time_id" ids f).

(** One masked write [y[mask(y)] = b] on a column, when [b] is configured. *)
Definition masked_write (mask : float → float → bool) (o : option float) (c c' : column)
    : Prop :=
  match o with
  | None => c' = c
  | Some b => ∃ y, c = NumCol y ∧ c' = NumCol (map (set_where (λ v, mask v b) b) y)
  end.

(** The target column [c] after the two clamps of [run_train]. *)
Definition clamped (self : NaivePreprocessor.t) (c y_train : column) : Prop :=
  match c with
  | NumCol y =>
      y_train = NumCol (map (clamp (NaivePreprocessor.crop_low self)
                                   (NaivePreprocessor.crop_high self)) y)
  | StrCol _ =>
      y_train = c ∧ NaivePreprocessor.crop_low self = None
      ∧ NaivePreprocessor.crop_high self = None
  end.

(** A method of NaivePreprocessor that leaves the scaler object as it is,
    whatever its outcome. *)
Definition keeps_scaler {A} (m : M NaivePreprocessor.world A) : Prop :=
  ∀ w r w', m w = (r, w') →
    NaivePreprocessor.scaler_features w' = NaivePreprocessor.scaler_features w.

(** What [_run] does with the scaler object [sc] and returns for the
    feature frame [ff]. *)
Definition scaled_by (fit_scaler : bool) (sc : option Scaler) (ff : frame)
    (r : features) (sc' : option Scaler) : Prop :=
  match sc with
  | None => sc' = None ∧ r = DF ff
  | Some sc =>
      ∃ X m, frame_to_matrix ff = Ok X ∧ r = ND m
        ∧ if fit_scaler
          then ∃ sc1, sc' = Some sc1 ∧ fitted_once_on sc sc1 X
                      ∧ Scaler_transform sc1 (IArr (A2 X)) = Ok m
          else sc' = Some sc ∧ Scaler_transform sc (IArr (A2 X)) = Ok m
  end.

(** ** Examples *)

(** [FunctionTransformer(func=np.flipud)] as the feature and as the target
    scaler. *)
Definition flip_scaler : TimeSeriesTensorScaler.t :=
  TimeSeriesTensorScaler.mk (Some (FunctionTransformer flipud))
                           (Some (FunctionTransformer flipud)) None.

Definition flip_fitted : Fitted := mkFitted (λ X, Ok (flipud X)) (λ X, Ok X).

(** Two samples, one time step, one feature; one sample, two time steps. *)
Definition x_210 : nd3 := Nd3 (2, 1, 1) [[[of_Z 1]]; [[of_Z 2]]].
Definition x_210_flipped : nd3 := Nd3 (2, 1, 1) [[[of_Z 2]]; [[of_Z 1]]].
Definition y_12 : nd2 := Nd2 (1, 2) [[of_Z 1; of_Z 2]].
Definition y_12_flipped : nd2 := Nd2 (1, 2) [[of_Z 2; of_Z 1]].

(** A MinMaxScaler fitted on the column [0, 2], and a scaler that uses it
    for the targets only. *)
Definition minmax_fitted_scaler : Scaler :=
  match Scaler_fit MinMaxScaler (col_of [of_Z 0; of_Z 2]) with
  | Ok s => s
  | Raise _ => MinMaxScaler
  end.

Definition minmax_targets : TimeSeriesTensorScaler.t :=
  TimeSeriesTensorScaler.mk None (Some minmax_fitted_scaler) None.

Definition y_31 : nd2 := Nd2 (3, 1) [[of_Z 1]; [NaN]; [of_Z 5]].

(** Two samples, three time steps, one feature, and the matching targets. *)
Definition x_231 : nd3 :=
  Nd3 (2, 3, 1) [[[of_Z 1]; [of_Z 2]; [of_Z 3]]; [[of_Z 4]; [of_Z 5]; [of_Z 6]]].
Definition y_23 : nd2 := Nd2 (2, 3) [[of_Z 1; of_Z 2; of_Z 3]; [of_Z 4; of_Z 5; of_Z 6]].


(** A numpy whose draws are the first positions and whose square root is
    the floor root of numerator and denominator (exact on squares). *)
Definition numpy_example : Numpy := {|
  RNG := unit;
  np_random_choice := λ g n size,
    (if decide (size ≤ n ∧ 0 < n) then Ok (seq 0 size) else Raise ValueError, g);
  np_sqrt := λ q, Q2Qc (Z.sqrt (Qnum (this q)) # Pos.sqrt (Qden (this q)));
|}.

(** A numpy that counts its draws. *)
Definition numpy_counting : Numpy := {|
  RNG := nat;
  np_random_choice := λ g n size,
    (if decide (size ≤ n ∧ 0 < n) then Ok (seq 0 size) else Raise ValueError, S g);
  np_sqrt := λ q, Q2Qc (Z.sqrt (Qnum (this q)) # Pos.sqrt (Qden (this q)));
|}.

(** Targets with a missing value and features of two samples, two time
    steps and one feature, as the arrays 0 and 1 of the caller. *)
Definition y_ex : ndarray := A2 (Nd2 (2, 2) [[of_Z 5; NaN]; [of_Z (-5); of_Z 0]]).
Definition x_ex3 : nd3 := Nd3 (2, 2, 1) [[[of_Z 1]; [NaN]]; [[of_Z 3]; [of_Z 4]]].
Definition x_ex : ndarray := A3 x_ex3.
Definition store_ex : gmap nat ndarray := <[0 := y_ex]> (<[1 := x_ex]> ∅).

Definition tensor_nofill : TensorPreprocessor.t :=
  TensorPreprocessor.mk false (Some (of_Z (-1))) (Some (of_Z 1)) [0%Z].
Definition tensor_fill : TensorPreprocessor.t :=
  TensorPreprocessor.mk true (Some (of_Z (-1))) (Some (of_Z 1)) [0%Z].

Definition no_scalers : TimeSeriesTensorScaler.t :=
  TimeSeriesTensorScaler.mk None None None.
Definition minmax_scalers : TimeSeriesTensorScaler.t :=
  TimeSeriesTensorScaler.mk (Some MinMaxScaler) (Some MinMaxScaler) None.

Definition world_ex (ts : TimeSeriesTensorScaler.t) : @TensorPreprocessor.world numpy_example :=
  @TensorPreprocessor.mkWorld numpy_example store_ex (tt : @RNG numpy_example) ts.

(** Both scalers with [scaler_fit_sample=2], on the numpy that counts. *)
Definition sampling_scalers : TimeSeriesTensorScaler.t :=
  TimeSeriesTensorScaler.mk (Some MinMaxScaler) (Some MinMaxScaler) (Some 2).

Definition world_sampling : @TensorPreprocessor.world numpy_counting :=
  @TensorPreprocessor.mkWorld numpy_counting store_ex (0 : @RNG numpy_counting)
    sampling_scalers.

(** A training frame with the targets -5, 0, 5 as the frame 0 of the caller. *)
Definition frame_ex : frame :=
  mkFrame 3 [("row_id", StrCol ["0_1"; "0_2"; "1_1"]);
             ("f_0", NumCol [of_Z 1; of_Z 2; of_Z 3]);
             ("target", NumCol [of_Z (-5); of_Z 0; of_Z 5])].

Definition naive_ex : NaivePreprocessor.t :=
  NaivePreprocessor.mk [] (Some (of_Z (-1))) (Some (of_Z 1)) [].

Definition nworld_ex (sc : option Scaler) : NaivePreprocessor.world :=
  NaivePreprocessor.mkWorld (<[0 := frame_ex]> ∅) sc.

(** A training frame whose only target is missing. *)
Definition frame_nan : frame :=
  mkFrame 1 [("row_id", StrCol ["0_1"]); ("target", NumCol [NaN])].

(** A validation frame, as the frame 1 of the caller. *)
Definition frame_valid : frame :=
  mkFrame 2 [("row_id", StrCol ["2_1"; "2_2"]);
             ("f_0", NumCol [of_Z 4; of_Z 5]);
             ("target", NumCol [of_Z 7; of_Z (-7)])].

Definition nworld_two (sc : option Scaler) : NaivePreprocessor.world :=
  NaivePreprocessor.mkWorld (<[1 := frame_valid]> (<[0 := frame_ex]> ∅)) sc.

Global Instance column_eq_dec : EqDecision column.
Proof. solve_decision. Defined.

(** ** Row ids and further example data *)

(** A row id [<time_id>_<suffix>], the time step printed in decimal. *)
Definition row_id_of (p : Z * string) : string := pretty.pretty p.1 +:+ "_" +:+ p.2.

(** The values of a feature column; no values when the frame has no such
    numeric column. *)
Definition feature_values (f : frame) (c : string) : list float :=
  match get_col c f with Some (NumCol vals) => vals | _ => [] end.

(** The values of a column in the rows whose key is [k]; a row without a
    key is in no group. *)
Definition values_of_key (k : option key) (keys : list (option key)) (vals : list float)
    : list float :=
  match k with
  | Some k => snd <$> filter (λ p, p.1 = Some k) (zip keys vals)
  | None => []
  end.

(** In how many rows the key [k] occurs. *)
Definition rows_of_key (k : option key) (keys : list (option key)) : nat :=
  length (filter (λ k', k' = k) keys).

(** A statistic of a column for every row, over the rows of its key. *)
Definition over_rows_of_key (stat : list float → float) (keys : list (option key))
    (vals : list float) : list float :=
  map (λ k, stat (values_of_key k keys vals)) keys.

Definition tensor_bad_index : TensorPreprocessor.t :=
  TensorPreprocessor.mk true None None [5%Z].

Definition frame_no_row_id : frame :=
  mkFrame 1 [("time_id", NumCol [of_Z 0]); ("target", NumCol [of_Z 1])].

Definition frame_no_target : frame :=
  mkFrame 2 [("row_id", StrCol ["0_1"; "1_1"]); ("f_0", NumCol [of_Z 1; of_Z 2])].

Definition naive_time : NaivePreprocessor.t :=
  NaivePreprocessor.mk [] None None ["f_0"].

(** A frame that brings its time steps: two rows of time step 0 and one
    of time step 1. *)
Definition frame_time : frame :=
  mkFrame 3 [("row_id", StrCol ["0_1"; "0_2"; "1_1"]);
             ("time_id", NumCol [of_Z 0; of_Z 0; of_Z 1]);
             ("f_0", NumCol [of_Z 1; of_Z 3; of_Z 5])].

Definition nworld_of (f : frame) : NaivePreprocessor.world :=
  NaivePreprocessor.mkWorld (<[0 := f]> ∅) None.

Definition tensor_plain : TensorPreprocessor.t :=
  TensorPreprocessor.mk true (Some (of_Z (-1))) (Some (of_Z 1)) [].

(** ** nn_commons.py: corr_loss, on tensors of one dimension

    The loss is a function of two tensors; the embedding covers tensors
    of one dimension, with the exact arithmetic of the arrays above. *)

(** torch broadcasting of two 1-D tensors under an elementwise operation:
    equal sizes, or one of them of size 1; any other pair of sizes is a
    RuntimeError. *)
Definition broadcast_op (f : float → float → float) (a b : list float)
    : option (list float) :=
  if decide (length a = length b) then Some (zip_with f a b)
  else match a, b with
       | [x], _ => Some (map (f x) b)
       | _, [y] => Some (map (λ x, f x y) a)
       | _, _ => None
       end.

(** [t.sum(axis=0)] and [t.mean(axis=0)]: the mean of no element is NaN. *)
Definition tensor_sum (t : list float) : float := foldr fadd fzero t.
Definition tensor_mean (t : list float) : float := fdiv (tensor_sum t) (of_nat (length t)).

Section torch.
Context `{Numpy}.

(** [v ** 0.5] *)
Definition fsqrt (v : float) : float :=
  match v with
  | Num q => if decide (q < 0)%Qc then NaN else Num (np_sqrt q)
  | NaN => NaN
  end.

Definition corr_loss (targ pred : list float) : option float :=
  let targ_mean := tensor_mean targ in
  let pred_mean := tensor_mean pred in
  let dt := map (λ v, fsub v targ_mean) targ in
  let dp := map (λ v, fsub v pred_mean) pred in
  prod ← broadcast_op fmul dt dp;
  let num := tensor_sum prod in
  let den := fsqrt (fmul (tensor_sum (map (λ v, fmul v v) dt))
                         (tensor_sum (map (λ v, fmul v v) dp))) in
  let avg_corr := fdiv num den in
  Some (fsub (Num 1%Qc) avg_corr).
End torch.


(** * Properties *)

(** A concrete call that is claimed to raise, although running it returns. *)
Ltac returns E :=
  match type of E with
  | ?t = (Raise _, _) =>
      let Hs := fresh in
      assert (Hs : succeeded t.1 = true) by (vm_compute; reflexivity);
      rewrite E in Hs; discriminate Hs
  end.

(** ** Lists, slices and ranges *)

Lemma ceil_div_0 w : 1 ≤ w → ceil_div 0 w = 0.
Proof.
  intros Hw. unfold ceil_div. apply Nat.div_small. lia.
Qed.

Lemma ceil_div_step d w : 0 < d → 1 ≤ w → ceil_div d w = S (ceil_div (d - w) w).
Proof.
  intros Hd Hw. unfold ceil_div.
  destruct (decide (d ≤ w)) as [Hle|Hgt].
  - replace (d - w + w - 1) with (w - 1) by lia.
    rewrite (Nat.div_small (w - 1)) by lia.
    symmetry. apply (Nat.div_unique _ _ _ (d - 1)); lia.
  - replace (d + w - 1) with ((d - w + w - 1) + 1 * w) by lia.
    rewrite Nat.div_add by lia. lia.
Qed.

Lemma ceil_div_bounds t w :
  1 ≤ w → 0 < t → (ceil_div t w - 1) * w < t ∧ t ≤ ceil_div t w * w.
Proof.
  intros Hw Ht. unfold ceil_div.
  pose proof (Nat.div_mod (t + w - 1) w ltac:(lia)) as E.
  pose proof (Nat.mod_upper_bound (t + w - 1) w ltac:(lia)) as B.
  set (q := (t + w - 1) / w) in *. set (r := (t + w - 1) mod w) in *.
  assert (1 ≤ q) by (destruct q; [lia|lia]).
  split; nia.
Qed.

Section range.
Context (stop step : nat) (Hstep : 1 ≤ step).

Lemma range_loop_length fuel start :
  stop - start ≤ fuel →
  length (range_loop fuel start stop step) = ceil_div (stop - start) step.
Proof using Hstep.
  revert start. induction fuel as [|fuel IH]; intros start Hf; simpl.
  - replace (stop - start) with 0 by lia. by rewrite ceil_div_0.
  - destruct (decide (start < stop)) as [Hlt|Hge]; simpl.
    + rewrite IH by lia. rewrite (ceil_div_step (stop - start)) by lia.
      f_equal. f_equal. lia.
    + replace (stop - start) with 0 by lia. by rewrite ceil_div_0.
Qed.

Lemma range_loop_lookup fuel start i :
  stop - start ≤ fuel →
  i < ceil_div (stop - start) step →
  range_loop fuel start stop step !! i = Some (start + i * step).
Proof using Hstep.
  revert start i. induction fuel as [|fuel IH]; intros start i Hf Hi; simpl.
  - replace (stop - start) with 0 in Hi by lia. rewrite ceil_div_0 in Hi; lia.
  - destruct (decide (start < stop)) as [Hlt|Hge].
    + destruct i as [|i]; simpl; [f_equal; lia|].
      rewrite IH; [f_equal; lia|lia|].
      rewrite (ceil_div_step (stop - start)) in Hi by lia.
      replace (stop - (start + step)) with (stop - start - step) by lia. lia.
    + replace (stop - start) with 0 in Hi by lia. rewrite ceil_div_0 in Hi; lia.
Qed.

(** Gluing the slices of one row back together gives the row back. *)
Lemma range_loop_glue {A} (l : list A) fuel start :
  length l = stop → stop - start ≤ fuel →
  foldr (λ s acc, slice s (s + step) l ++ acc) [] (range_loop fuel start stop step)
  = drop start l.
Proof using Hstep.
  intros Hl. revert start. induction fuel as [|fuel IH]; intros start Hf; simpl.
  - rewrite drop_ge; [done|lia].
  - destruct (decide (start < stop)) as [Hlt|Hge]; simpl.
    + rewrite IH by lia. unfold slice.
      replace (start + step - start) with step by lia.
      rewrite <- (take_drop step (drop start l)) at 2.
      by rewrite drop_drop.
    + rewrite drop_ge; [done|lia].
Qed.

Lemma range_loop_widths fuel start :
  stop - start ≤ fuel →
  foldr (λ s acc, ((s + step) `min` stop - s `min` stop) + acc) 0
        (range_loop fuel start stop step)
  = stop - start.
Proof using Hstep.
  revert start. induction fuel as [|fuel IH]; intros start Hf; simpl; [lia|].
  destruct (decide (start < stop)) as [Hlt|Hge]; simpl; [|lia].
  rewrite IH by lia. lia.
Qed.
End range.

Lemma zip_with_app_map {A B} (f g : A → list B) (d : list A) :
  zip_with app (map f d) (map g d) = map (λ r, f r ++ g r) d.
Proof. induction d as [|a d IH]; simpl; [done|by rewrite IH]. Qed.

Lemma replicate_as_map {A B} (b : B) (d : list A) :
  replicate (length d) b = map (λ _, b) d.
Proof. induction d as [|a d IH]; simpl; [done|by rewrite IH]. Qed.

Lemma map_id_on {A} (f : A → A) (d : list A) :
  Forall (λ a, f a = a) d → map f d = d.
Proof. induction 1 as [|a d Ha _ IH]; simpl; [done|by rewrite Ha, IH]. Qed.

(** ** TimeSplitter *)

Lemma concat_time3_data x f w starts :
  data3 (concat_time3 (length (data3 x)) f
           (map (λ s, slice_time3 s (s + w) x) starts))
  = map (λ smp, foldr (λ s acc, slice s (s + w) smp ++ acc) [] starts) (data3 x).
Proof.
  induction starts as [|s starts IH]; simpl.
  - apply replicate_as_map.
  - rewrite IH. apply zip_with_app_map.
Qed.

Lemma concat_time2_data y w starts :
  data2 (concat_time2 (length (data2 y))
           (map (λ s, slice_time2 s (s + w) y) starts))
  = map (λ row, foldr (λ s acc, slice s (s + w) row ++ acc) [] starts) (data2 y).
Proof.
  induction starts as [|s starts IH]; simpl.
  - apply replicate_as_map.
  - rewrite IH. apply zip_with_app_map.
Qed.

Lemma concat_time3_shape x n f w starts :
  shape3 (concat_time3 n f (map (λ s, slice_time3 s (s + w) x) starts))
  = (n, foldr (λ s acc, ((s + w) `min` (shape3 x).1.2 - s `min` (shape3 x).1.2) + acc)
              0 starts, f).
Proof.
  induction starts as [|s starts IH]; simpl; [done|]. by rewrite IH.
Qed.

Lemma concat_time2_shape y n w starts :
  shape2 (concat_time2 n (map (λ s, slice_time2 s (s + w) y) starts))
  = (n, foldr (λ s acc, ((s + w) `min` (shape2 y).2 - s `min` (shape2 y).2) + acc)
              0 starts).
Proof.
  induction starts as [|s starts IH]; simpl; [done|]. by rewrite IH.
Qed.

(** C2. For a well-formed tensor [x] of shape (N, T, F), targets [y] of
    shape (N, T) and a window size W >= 1, the splitter holds exactly
    ceil(T/W) chunks; chunk [i] is the window [i*W, i*W + W) of the time
    axis (so the chunks do not overlap), of time-length W except for a
    possibly shorter, non-empty last one; and concatenating the chunks in
    index order along the time axis gives [x] and [y] back. *)
Theorem TimeSplitter_partitions x y (W : Z) N T F :
  wf3 x → wf2 y → shape3 x = (N, T, F) → shape2 y = (N, T) → (1 ≤ W)%Z →
  ∃ ts, TimeSplitter.__init__ x y W = Ok ts
    ∧ TimeSplitter.__len__ ts = ceil_div T (Z.to_nat W)
    ∧ length (TimeSplitter.x_chunked ts) = ceil_div T (Z.to_nat W)
    ∧ length (TimeSplitter.y_chunked ts) = ceil_div T (Z.to_nat W)
    ∧ (∀ i, i < ceil_div T (Z.to_nat W) →
         ∃ cx cy, TimeSplitter.__getitem__ ts i = Ok (cx, cy)
           ∧ cx = slice_time3 (i * Z.to_nat W) (i * Z.to_nat W + Z.to_nat W) x
           ∧ cy = slice_time2 (i * Z.to_nat W) (i * Z.to_nat W + Z.to_nat W) y
           ∧ shape3 cx = (N, Z.to_nat W `min` (T - i * Z.to_nat W), F)
           ∧ shape2 cy = (N, Z.to_nat W `min` (T - i * Z.to_nat W))
           ∧ 0 < Z.to_nat W `min` (T - i * Z.to_nat W)
           ∧ (S i < ceil_div T (Z.to_nat W) →
              Z.to_nat W `min` (T - i * Z.to_nat W) = Z.to_nat W))
    ∧ concat_time3 N F (TimeSplitter.x_chunked ts) = x
    ∧ concat_time2 N (TimeSplitter.y_chunked ts) = y.
Proof.
  intros [Hxl Hxs] [Hyl Hyr] Hsx Hsy HW.
  destruct W as [|p|p]; try lia.
  set (w := Z.to_nat (Z.pos p)).
  assert (Hw : 1 ≤ w) by (unfold w; lia).
  unfold TimeSplitter.__init__. rewrite Hsx. simpl. fold w.
  replace (Pos.to_nat p) with w by (unfold w; lia).
  set (starts := range_loop T 0 T w).
  assert (Hlen : length starts = ceil_div T w).
  { unfold starts. rewrite range_loop_length by lia. f_equal. lia. }
  assert (Hlk : ∀ i, i < ceil_div T w → starts !! i = Some (i * w)).
  { intros i Hi. unfold starts. rewrite range_loop_lookup; [done|lia|lia|].
    by replace (T - 0) with T by lia. }
  eexists. split; [reflexivity|]. unfold TimeSplitter.__len__. simpl.
  rewrite length_seq, !length_map, Hlen.
  repeat split; try done.
  - intros i Hi. unfold TimeSplitter.__getitem__. simpl.
    rewrite !list_lookup_fmap, (Hlk i Hi). simpl.
    eexists _, _. split; [reflexivity|].
    assert (Hpos : i * w < T).
    { destruct (decide (T = 0)) as [->|Hne]; [rewrite ceil_div_0 in Hi; lia|].
      destruct (ceil_div_bounds T w Hw ltac:(lia)) as [Hlo _]. nia. }
    repeat split.
    + unfold slice_time3. rewrite Hsx. simpl. f_equal. f_equal. f_equal. lia.
    + unfold slice_time2. rewrite Hsy. simpl. f_equal. f_equal. lia.
    + lia.
    + intros HS. destruct (ceil_div_bounds T w Hw ltac:(lia)) as [Hlo _]. nia.
  - rewrite Hsx in Hxl, Hxs. simpl in Hxl, Hxs.
    destruct x as [sx dx]. simpl in *. subst sx.
    pose proof (concat_time3_data (Nd3 (N, T, F) dx) F w starts) as Hd.
    pose proof (concat_time3_shape (Nd3 (N, T, F) dx) N F w starts) as Hs.
    simpl in Hd, Hs. rewrite Hxl in Hd.
    destruct (concat_time3 N F _) as [s' d'] eqn:E. simpl in Hd, Hs. subst s' d'.
    f_equal.
    + unfold starts. rewrite range_loop_widths by lia. do 2 f_equal. lia.
    + apply map_id_on. eapply Forall_impl; [|exact Hxs].
      intros smp [Hl _]. simpl. unfold starts.
      rewrite (range_loop_glue T w Hw smp) by lia. apply drop_0.
  - rewrite Hsy in Hyl, Hyr. simpl in Hyl, Hyr.
    destruct y as [sy dy]. simpl in *. subst sy.
    pose proof (concat_time2_data (Nd2 (N, T) dy) w starts) as Hd.
    pose proof (concat_time2_shape (Nd2 (N, T) dy) N w starts) as Hs.
    simpl in Hd, Hs. rewrite Hyl in Hd.
    destruct (concat_time2 N _) as [s' d'] eqn:E. simpl in Hd, Hs. subst s' d'.
    f_equal.
    + unfold starts. rewrite range_loop_widths by lia. f_equal. lia.
    + apply map_id_on. eapply Forall_impl; [|exact Hyr].
      intros row Hl. simpl in *. unfold starts.
      rewrite (range_loop_glue T w Hw row) by lia. apply drop_0.
Qed.

Lemma TimeSplitter_partitions_witness :
  ∃ ts, TimeSplitter.__init__ x_231 y_23 2 = Ok ts
    ∧ TimeSplitter.__len__ ts = 2
    ∧ concat_time3 2 1 (TimeSplitter.x_chunked ts) = x_231
    ∧ concat_time2 2 (TimeSplitter.y_chunked ts) = y_23.
Proof.
  destruct (TimeSplitter_partitions x_231 y_23 2 2 3 1)
    as (ts & Hinit & Hlen & _ & _ & _ & Hx & Hy).
  - split; [reflexivity|]. repeat constructor.
  - split; [reflexivity|]. repeat constructor.
  - reflexivity.
  - reflexivity.
  - lia.
  - exists ts. split; [exact Hinit|]. split; [exact Hlen|]. split; [exact Hx|exact Hy].
Defined.

(** ** TimeSeriesTensorScaler.transform *)

Lemma rbind_ok {A B} (r : result A) (k : A → result B) b :
  rbind r k = Ok b → ∃ a, r = Ok a ∧ k a = Ok b.
Proof. destruct r as [a|e]; simpl; [eauto|done]. Qed.

Lemma mapM_ok_length {A B} (f : A → result B) l bs :
  mapM f l = Ok bs → length bs = length l.
Proof.
  revert bs. induction l as [|a l IH]; simpl; intros bs Hm.
  - by inversion Hm.
  - apply rbind_ok in Hm as (b & _ & Hm). apply rbind_ok in Hm as (bs' & Hbs & Hm).
    inversion Hm; subst. simpl. f_equal. by apply IH.
Qed.

Lemma mapM_ok_Forall {A B} (f : A → result B) (P : B → Prop) l bs :
  (∀ a b, f a = Ok b → P b) → mapM f l = Ok bs → Forall P bs.
Proof.
  intros Hf. revert bs. induction l as [|a l IH]; simpl; intros bs Hm.
  - inversion Hm. constructor.
  - apply rbind_ok in Hm as (b & Hb & Hm). apply rbind_ok in Hm as (bs' & Hbs & Hm).
    inversion Hm; subst. constructor; eauto.
Qed.

Lemma mapM_all_ok {A B} (f : A → result B) (g : A → B) l :
  Forall (λ a, f a = Ok (g a)) l → mapM f l = Ok (map g l).
Proof.
  induction 1 as [|a l Ha _ IH]; simpl; [done|]. by rewrite Ha, IH.
Qed.

Lemma broadcast_row_length f row row' :
  broadcast_row f row = Ok row' → length row' = f.
Proof.
  unfold broadcast_row. destruct (decide (length row = f)) as [Hl|Hl].
  - intros [= <-]. done.
  - destruct row as [|v [|??]]; try done. intros [= <-]. apply length_replicate.
Qed.

Lemma broadcast2_shape t f r m :
  broadcast2 t f r = Ok m → length m = t ∧ rows_ok f m.
Proof.
  unfold broadcast2. destruct (decide _) as [_|_]; [|done].
  intros Hm. apply rbind_ok in Hm as (rows & Hrows & Hm). split.
  - rewrite (mapM_ok_length _ _ _ Hm).
    destruct (decide (length (data2 r) = t)) as [Hl|Hl]; [by inversion Hrows; subst|].
    destruct (data2 r) as [|row [|??]]; try done. inversion Hrows; subst.
    apply length_replicate.
  - eapply mapM_ok_Forall; [|exact Hm]. intros a b. apply broadcast_row_length.
Qed.

Lemma broadcast2_id t f r :
  wf2 r → shape2 r = (t, f) → broadcast2 t f r = Ok (data2 r).
Proof.
  intros [Hl Hr] Hs. rewrite Hs in Hl, Hr. simpl in Hl, Hr.
  unfold broadcast2. rewrite Hs. simpl.
  rewrite decide_True by auto. rewrite decide_True by done. simpl.
  rewrite (mapM_all_ok _ id); [by rewrite map_id|].
  eapply Forall_impl; [|exact Hr]. intros row Hrow. simpl in *.
  unfold broadcast_row. by rewrite decide_True.
Qed.

Section transform_loops.
Context (self : TimeSeriesTensorScaler.t).

Lemma features_loop sf f sh data n k pre :
  sk_fitted sf = Some f →
  k + n = length data → length pre = k →
  for_each (seq k n)
    (λ i scaled_features,
       let? Xi := getitem (A3 (Nd3 sh data)) i in
       let? r := Scaler_transform sf Xi in
       setitem scaled_features i r)
    (A3 (Nd3 sh (pre ++ drop k data)))
  = let? ms := mapM (scale_sample f sh.1.2 sh.2) (drop k data) in
    Ok (A3 (Nd3 sh (pre ++ ms))).
Proof.
  intros Hf. set (body := λ (i : nat) (scaled_features : ndarray), _).
  revert k pre. induction n as [|n IH]; intros k pre Hk Hpre; simpl.
  - rewrite drop_ge by lia. done.
  - destruct (data !! k) as [m|] eqn:Hm; [|apply lookup_ge_None in Hm; lia].
    rewrite (drop_S _ _ _ Hm). simpl. unfold body at 1. simpl. rewrite Hm. simpl.
    unfold Scaler_transform at 1. rewrite Hf. unfold scale_sample at 1.
    destruct (sk_transform f _) as [r|e]; simpl; [|done].
    rewrite decide_True by (rewrite length_app; simpl; lia).
    destruct (broadcast2 _ _ r) as [bm|e]; simpl; [|done].
    replace (<[k:=bm]> (pre ++ m :: drop (S k) data))
      with ((pre ++ [bm]) ++ drop (S k) data).
    2:{ rewrite insert_app_r_alt by lia.
        replace (k - length pre) with 0 by lia. simpl. by rewrite <- app_assoc. }
    rewrite IH by (rewrite ?length_app; simpl; lia).
    destruct (mapM _ (drop (S k) data)) as [ms|e]; simpl; [|done].
    by rewrite <- app_assoc.
Qed.

Lemma targets_loop st f sh data n k pre :
  sk_fitted st = Some f →
  k + n = length data → length pre = k →
  for_each (seq k n)
    (λ i scaled_targets,
       let? col := transpose10 (getslice1 (A2 (Nd2 sh data)) i) in
       let? r := Scaler_transform st (IArr (A2 col)) in
       setslice1 scaled_targets i (transpose2 r))
    (A2 (Nd2 sh (pre ++ drop k data)))
  = let? rows := mapM (scale_target_row f sh.2) (drop k data) in
    Ok (A2 (Nd2 sh (pre ++ rows))).
Proof.
  intros Hf. set (body := λ (i : nat) (scaled_targets : ndarray), _).
  revert k pre. induction n as [|n IH]; intros k pre Hk Hpre; simpl.
  - rewrite drop_ge by lia. done.
  - destruct (data !! k) as [row|] eqn:Hrow; [|apply lookup_ge_None in Hrow; lia].
    rewrite (drop_S _ _ _ Hrow). simpl. unfold body at 1. simpl.
    unfold slice. replace (k + 1 - k) with 1 by lia.
    rewrite (drop_S _ _ _ Hrow). simpl. rewrite take_0. simpl.
    unfold Scaler_transform at 1. rewrite Hf. unfold scale_target_row at 1.
    destruct (sk_transform f _) as [r|e]; simpl; [|done].
    destruct (broadcast2 1 _ (transpose2 r)) as [[|row' [|??]]|e]; simpl; try done.
    replace (<[k:=row']> (pre ++ row :: drop (S k) data))
      with ((pre ++ [row']) ++ drop (S k) data).
    2:{ rewrite insert_app_r_alt by lia.
        replace (k - length pre) with 0 by lia. simpl. by rewrite <- app_assoc. }
    rewrite IH by (rewrite ?length_app; simpl; lia).
    destruct (mapM _ (drop (S k) data)) as [rows|e]; simpl; [|done].
    by rewrite <- app_assoc.
Qed.

Lemma transform_features_samples sf f x :
  TimeSeriesTensorScaler.scaler_features self = Some sf → sk_fitted sf = Some f →
  length (data3 x) = (shape3 x).1.1 →
  TimeSeriesTensorScaler.transform_features self (A3 x)
  = let? ms := mapM (scale_sample f (shape3 x).1.2 (shape3 x).2) (data3 x) in
    Ok (A3 (Nd3 (shape3 x) ms)).
Proof.
  intros Hsf Hf Hl. unfold TimeSeriesTensorScaler.transform_features.
  rewrite Hsf. simpl. destruct x as [sh data]. simpl in *. rewrite <- Hl.
  exact (features_loop sf f sh data (length data) 0 [] Hf eq_refl eq_refl).
Qed.

Lemma transform_targets_rows st f y :
  TimeSeriesTensorScaler.scaler_targets self = Some st → sk_fitted st = Some f →
  length (data2 y) = (shape2 y).1 →
  TimeSeriesTensorScaler.transform_targets self (A2 y)
  = let? rows := mapM (scale_target_row f (shape2 y).2) (data2 y) in
    Ok (A2 (Nd2 (shape2 y) rows)).
Proof.
  intros Hst Hf Hl. unfold TimeSeriesTensorScaler.transform_targets.
  rewrite Hst. simpl. destruct y as [sh data]. simpl in *. rewrite <- Hl.
  exact (targets_loop st f sh data (length data) 0 [] Hf eq_refl eq_refl).
Qed.
End transform_loops.

(** C5 (as amended). The loops of [transform] run over the first axis,
    the samples: the fitted feature scaler is applied to the time-by-feature
    matrix of each sample, one sample after the other, and the target
    scaler to the row of each sample, transposed to a column, transformed
    and transposed back. *)
Theorem transform_scales_sample_by_sample self sf st f ft x y :
  TimeSeriesTensorScaler.scaler_features self = Some sf → sk_fitted sf = Some f →
  TimeSeriesTensorScaler.scaler_targets self = Some st → sk_fitted st = Some ft →
  wf3 x → wf2 y →
  TimeSeriesTensorScaler.transform self (A3 x) (A2 y)
  = let? ms := mapM (scale_sample f (shape3 x).1.2 (shape3 x).2) (data3 x) in
    let? rows := mapM (scale_target_row ft (shape2 y).2) (data2 y) in
    Ok (A3 (Nd3 (shape3 x) ms), A2 (Nd2 (shape2 y) rows)).
Proof.
  intros Hsf Hf Hst Hft [Hx _] [Hy _]. unfold TimeSeriesTensorScaler.transform.
  rewrite (transform_features_samples self sf f x Hsf Hf Hx).
  rewrite (transform_targets_rows self st ft y Hst Hft Hy).
  destruct (mapM _ (data3 x)); simpl; [|done].
  destruct (mapM _ (data2 y)); simpl; done.
Qed.

Lemma transform_scales_sample_by_sample_witness :
  TimeSeriesTensorScaler.transform flip_scaler (A3 x_210) (A2 y_12)
  = Ok (A3 x_210, A2 y_12_flipped).
Proof.
  rewrite (transform_scales_sample_by_sample flip_scaler
             (FunctionTransformer flipud) (FunctionTransformer flipud)
             flip_fitted flip_fitted x_210 y_12);
    [reflexivity | reflexivity .. | |].
  - split; [reflexivity|]. repeat constructor.
  - split; [reflexivity|]. repeat constructor.
Defined.

(** C5 (as stated) fails: with a transformer that reverses the rows of the
    matrix it is given, [transform] leaves a tensor of one time step
    unchanged (each sample is a one-row matrix), while scaling the slice
    of every time step would exchange the two samples; and the targets of
    one sample are reversed in time, while scaling every time-step column
    would leave them unchanged. *)
Lemma transform_not_per_time_step :
  TimeSeriesTensorScaler.transform flip_scaler (A3 x_210) (A2 y_12)
    = Ok (A3 x_210, A2 y_12_flipped)
  ∧ transform_features_per_time_step flip_fitted x_210 = Ok x_210_flipped
  ∧ transform_targets_per_time_step flip_fitted y_12 = Ok y_12
  ∧ x_210 ≠ x_210_flipped ∧ y_12_flipped ≠ y_12.
Proof.
  split; [reflexivity|]. split; [reflexivity|]. split; [reflexivity|].
  split; apply (bool_decide_eq_false_1 _); vm_compute; reflexivity.
Qed.

(** ** Reshaping *)

Lemma length_unflatten {A} r c (l : list A) : length (unflatten r c l) = r.
Proof. revert l. induction r as [|r IH]; intros l; simpl; [done|by rewrite IH]. Qed.

Lemma concat_unflatten {A} r c (l : list A) :
  length l = r * c → concat (unflatten r c l) = l.
Proof.
  revert l. induction r as [|r IH]; intros l Hl; simpl.
  - by destruct l.
  - rewrite IH; [apply take_drop|]. rewrite length_drop. lia.
Qed.

Lemma unflatten_rows_ok r c (l : list float) :
  length l = r * c → rows_ok c (unflatten r c l).
Proof.
  revert l. induction r as [|r IH]; intros l Hl; simpl; constructor.
  - rewrite length_take. lia.
  - apply IH. rewrite length_drop. lia.
Qed.

Lemma unflatten_concat {A} c (m : list (list A)) :
  Forall (λ r, length r = c) m → unflatten (length m) c (concat m) = m.
Proof.
  induction 1 as [|row m Hrow _ IH]; simpl; [done|].
  rewrite take_app_length', drop_app_length' by done. by rewrite IH.
Qed.

Lemma length_concat_rows {A} c (m : list (list A)) :
  Forall (λ r, length r = c) m → length (concat m) = length m * c.
Proof.
  induction 1 as [|row m Hrow _ IH]; simpl; [done|]. rewrite length_app. lia.
Qed.

Lemma concat_singletons {A} (l : list A) : concat (map (λ v, [v]) l) = l.
Proof. induction l as [|a l IH]; simpl; [done|by rewrite IH]. Qed.

Lemma unflatten_singletons {A} (l : list A) :
  unflatten (length l) 1 l = map (λ v, [v]) l.
Proof.
  induction l as [|a l IH]; simpl; [done|]. rewrite take_0, drop_0. by rewrite IH.
Qed.

Lemma concat_concat_unflatten {A} m k (ss : list (list A)) :
  Forall (λ s, length s = m * k) ss →
  concat (concat (map (unflatten m k) ss)) = concat ss.
Proof.
  induction 1 as [|s ss Hs _ IH]; simpl; [done|].
  rewrite concat_app, IH. f_equal. by apply concat_unflatten.
Qed.

Lemma ravel_length a :
  wf a → length (ravel a) = foldr Nat.mul 1 (nd_shape a).
Proof.
  destruct a as [v|[[n m] d]|[[[n m] k] d]]; simpl.
  - lia.
  - intros [Hl Hr]. simpl in *. rewrite (length_concat_rows m) by done. lia.
  - intros [Hl Hs]. simpl in *.
    rewrite (length_concat_rows k).
    + rewrite (length_concat_rows m); [lia|].
      eapply Forall_impl; [|exact Hs]. by intros s [? _].
    + apply Forall_concat. eapply Forall_impl; [|exact Hs]. by intros s [_ ?].
Qed.

(** Reshaping as many values as the array has to the shape of the array. *)
Lemma reshape_like a l :
  wf a → length l = length (ravel a) →
  ∃ a', reshape l (nd_shape a) = Ok a' ∧ nd_shape a' = nd_shape a
        ∧ ravel a' = l ∧ wf a'.
Proof.
  intros Hwf Hl. rewrite (ravel_length a Hwf) in Hl.
  destruct a as [v|[[n m] d]|[[[n m] k] d]]; simpl in *.
  - rewrite decide_True by lia. eexists. split; [done|].
    split; [simpl; f_equal; lia|done].
  - rewrite decide_True by lia. eexists. split; [done|]. repeat split; simpl.
    + apply concat_unflatten. lia.
    + apply length_unflatten.
    + apply unflatten_rows_ok. lia.
  - rewrite decide_True by lia. eexists. split; [done|].
    assert (Hrows : Forall (λ s : list float, length s = m * k) (unflatten n (m * k) l)).
    { apply unflatten_rows_ok. lia. }
    repeat split; simpl.
    + rewrite (concat_concat_unflatten m k) by done.
      apply concat_unflatten. lia.
    + rewrite length_map. apply length_unflatten.
    + apply Forall_map. eapply Forall_impl; [|exact Hrows].
      intros s Hs. simpl in *. split; [apply length_unflatten|].
      by apply unflatten_rows_ok.
Qed.

(** ** TimeSeriesTensorScaler.inverse_transform *)

(** C9. [inverse_transform] accepts exactly the arrays of rank 1 and the
    arrays whose second dimension is 1.  On those it returns the array
    itself when no target scaler is configured, and otherwise the values
    the fitted scaler's inverse gives for the array as one column, in the
    shape of the array.  An array of rank 2 or more with another second
    dimension raises an AssertionError; in both cases the state of the
    preprocessor is the one before the call. *)
Theorem inverse_transform_single_column `{Numpy} self (w : TensorPreprocessor.world) targets :
  ((length (nd_shape targets) = 1 ∨ nd_shape targets !! 1 = Some 1) → wf targets →
     (TimeSeriesTensorScaler.scaler_targets (TensorPreprocessor.ts_scaler w) = None →
        TensorPreprocessor.inverse_transform self targets w = (Ok targets, w))
     ∧ (∀ st ft r,
          TimeSeriesTensorScaler.scaler_targets (TensorPreprocessor.ts_scaler w) = Some st → sk_fitted st = Some ft →
          sk_inverse_transform ft (as_column targets) = Ok r →
          wf2 r → shape2 r = shape2 (as_column targets) →
          ∃ a, TensorPreprocessor.inverse_transform self targets w = (Ok a, w)
               ∧ nd_shape a = nd_shape targets ∧ ravel a = concat (data2 r) ∧ wf a))
  ∧ (2 ≤ length (nd_shape targets) → nd_shape targets !! 1 ≠ Some 1 →
       TensorPreprocessor.inverse_transform self targets w = (Raise AssertionError, w)).
Proof.
  unfold TensorPreprocessor.inverse_transform, bind, get, lift, TimeSeriesTensorScaler.inverse_transform.
  split.
  - intros Hdom Hwf. rewrite decide_True by done. split.
    + by intros ->.
    + intros st ft r -> Hft Hinv [Hrl Hrr] Hrs.
      unfold Scaler_inverse_transform. rewrite Hft, Hinv. simpl.
      destruct (reshape_like targets (concat (data2 r)) Hwf) as (a & Ha & Hs & Hr & Hwa).
      { rewrite (length_concat_rows 1).
        - rewrite Hrl, Hrs. simpl. lia.
        - rewrite Hrs in Hrr. exact Hrr. }
      exists a. by rewrite Ha.
  - intros Hrank Hne. rewrite decide_False; [done|]. intros [?|?]; [lia|done].
Qed.

Lemma inverse_transform_single_column_witness :
  TensorPreprocessor.inverse_transform tensor_fill (A2 y_31) (world_ex no_scalers)
  = (Ok (A2 y_31), world_ex no_scalers)
  ∧ TensorPreprocessor.inverse_transform tensor_fill y_ex (world_ex no_scalers)
    = (Raise AssertionError, world_ex no_scalers).
Proof.
  split.
  - refine (proj1 (proj1 (inverse_transform_single_column tensor_fill
                            (world_ex no_scalers) (A2 y_31))
                     (or_intror eq_refl) _) eq_refl).
    split; [reflexivity|]. repeat constructor.
  - refine (proj2 (inverse_transform_single_column tensor_fill
                     (world_ex no_scalers) y_ex) _ _).
    + simpl. lia.
    + simpl. discriminate.
Defined.

(** ** The round trip through a linear target scaler *)

Lemma faffine_inv_faffine a b v : a ≠ 0%Qc → faffine_inv a b (faffine a b v) = v.
Proof.
  intros Ha. destruct v as [|q]; [done|].
  unfold faffine_inv, faffine. simpl. rewrite decide_False by done.
  f_equal. field. done.
Qed.

Lemma single_column y :
  wf2 y → (shape2 y).2 = 1 → y = col_of (concat (data2 y)).
Proof.
  destruct y as [[n m] d]. simpl. intros [Hl Hr] ->. simpl in *.
  unfold col_of. f_equal.
  - f_equal. rewrite (length_concat_rows 1) by done. lia.
  - clear Hl. induction Hr as [|row d Hrow _ IH]; simpl; [done|].
    destruct row as [|v [|??]]; try done. simpl. by rewrite <- IH.
Qed.

Section linear.
Context (self : TimeSeriesTensorScaler.t) (st : Scaler) (ft : Fitted) (a b : Qc).
Context (Hst : TimeSeriesTensorScaler.scaler_targets self = Some st) (Hft : sk_fitted st = Some ft).
Context (Hlin : linear_scaler ft a b).

Lemma transform_targets_column l :
  TimeSeriesTensorScaler.transform_targets self (A2 (col_of l))
  = Ok (A2 (col_of (map (faffine a b) l))).
Proof using Hst Hft Hlin.
  rewrite (transform_targets_rows self st ft) by (done || (simpl; by rewrite length_map)).
  simpl. rewrite (mapM_all_ok _ (map (faffine a b))).
  - simpl. unfold col_of. rewrite !length_map. do 3 f_equal.
    rewrite !map_map. done.
  - apply Forall_map, Forall_forall. intros v _. simpl.
    unfold scale_target_row.
    change (transpose2 (Nd2 (1, 1) [[v]])) with (col_of [v]).
    destruct Hlin as [_ Hl]. destruct (Hl [v] ltac:(done)) as [-> _]. done.
Qed.

Lemma inverse_transform_column l :
  l ≠ [] →
  TimeSeriesTensorScaler.inverse_transform self (A2 (col_of l))
  = Ok (A2 (col_of (map (faffine_inv a b) l))).
Proof using Hst Hft Hlin.
  intros Hne. unfold TimeSeriesTensorScaler.inverse_transform. simpl.
  rewrite Hst.
  unfold Scaler_inverse_transform. rewrite Hft.
  unfold as_column. simpl. rewrite concat_singletons.
  destruct Hlin as [_ Hl]. destruct (Hl l Hne) as [_ Hinv].
  unfold col_of in Hinv. rewrite Hinv. simpl.
  rewrite concat_singletons, !length_map.
  rewrite decide_True by lia. unfold col_of. rewrite length_map.
  do 3 f_equal. rewrite <- (length_map (faffine_inv a b) l).
  apply unflatten_singletons.
Qed.

Lemma inverse_transform_vector l :
  l ≠ [] →
  TimeSeriesTensorScaler.inverse_transform self (A1 l)
  = Ok (A1 (map (faffine_inv a b) l)).
Proof using Hst Hft Hlin.
  intros Hne. unfold TimeSeriesTensorScaler.inverse_transform. simpl.
  rewrite Hst.
  unfold Scaler_inverse_transform. rewrite Hft.
  unfold as_column. simpl.
  destruct Hlin as [_ Hl]. destruct (Hl l Hne) as [_ Hinv].
  unfold col_of in Hinv. rewrite Hinv. simpl.
  rewrite concat_singletons, !length_map. by rewrite decide_True.
Qed.

Lemma transform_targets_vector l :
  l ≠ [] → TimeSeriesTensorScaler.transform_targets self (A1 l) = Raise ValueError.
Proof using Hst.
  intros Hne. unfold TimeSeriesTensorScaler.transform_targets. rewrite Hst.
  destruct l as [|v l]; done.
Qed.
End linear.

(** C3 (as amended). With a fitted linear target scaler, the round trip
    [inverse_transform(transform(y))] gives [y] back for every single-column
    [y] with at least one row.  For a non-empty 1-D [y], [transform] raises
    a ValueError (the row slice of a 1-D array has no two axes to
    transpose); [inverse_transform] alone accepts such an array and undoes
    the scaling of its values. *)
Theorem scaler_round_trip self st ft a b x x' y :
  TimeSeriesTensorScaler.scaler_targets self = Some st → sk_fitted st = Some ft → linear_scaler ft a b →
  TimeSeriesTensorScaler.transform_features self x = Ok x' →
  wf2 y → (shape2 y).2 = 1 → 0 < (shape2 y).1 →
  (∃ y', TimeSeriesTensorScaler.transform self x (A2 y) = Ok (x', y')
         ∧ TimeSeriesTensorScaler.inverse_transform self y' = Ok (A2 y))
  ∧ (∀ v, v ≠ [] →
       TimeSeriesTensorScaler.transform self x (A1 v) = Raise ValueError
       ∧ TimeSeriesTensorScaler.inverse_transform self (A1 (map (faffine a b) v))
         = Ok (A1 v)).
Proof.
  intros Hst Hft Hlin Hx Hwf Hc Hn. split.
  - rewrite (single_column y Hwf Hc).
    assert (Hne : concat (data2 y) ≠ []).
    { destruct Hwf as [Hl Hr]. intros E. apply (f_equal length) in E.
      rewrite (length_concat_rows (shape2 y).2) in E by done. simpl in E. nia. }
    set (l := concat (data2 y)) in *.
    exists (A2 (col_of (map (faffine a b) l))). split.
    + unfold TimeSeriesTensorScaler.transform. rewrite Hx. simpl.
      by rewrite (transform_targets_column self st ft a b Hst Hft Hlin).
    + rewrite (inverse_transform_column self st ft a b Hst Hft Hlin).
      * rewrite map_map. do 3 f_equal. apply map_id_on, Forall_forall.
        intros v _. apply faffine_inv_faffine, Hlin.
      * destruct l; [done|]. done.
  - intros v Hv. split.
    + unfold TimeSeriesTensorScaler.transform. rewrite Hx. simpl.
      by rewrite (transform_targets_vector self st Hst).
    + rewrite (inverse_transform_vector self st ft a b Hst Hft Hlin).
      * rewrite map_map. do 2 f_equal. apply map_id_on, Forall_forall.
        intros u _. apply faffine_inv_faffine, Hlin.
      * destruct v; done.
Qed.

(** MinMaxScaler is such a linear scaler once it is fitted on a column
    that holds a number. *)
Lemma MinMax_fitted_linear a b :
  a ≠ 0%Qc → linear_scaler (MinMax_fitted [Num a] [Num b]) a b.
Proof.
  intros Ha. split; [done|]. intros l Hl.
  assert (Hc : 0 < length l ∧ 0 < 1) by (destruct l; [done|simpl; lia]).
  unfold MinMax_fitted, check_array, col_of. simpl.
  rewrite !decide_True by done. simpl. rewrite !length_map, !map_map. done.
Qed.

Lemma nanmin_present l : present l ≠ [] → ∃ q, nanmin l = Num q.
Proof. unfold nanmin. destruct (present l); [done|eauto]. Qed.

Lemma nanmax_present l : present l ≠ [] → ∃ q, nanmax l = Num q.
Proof. unfold nanmax. destruct (present l); [done|eauto]. Qed.

Lemma MinMaxScaler_fit_linear l :
  present l ≠ [] →
  ∃ a b, MinMaxScaler_fit (col_of l) = Ok (MinMax_fitted [Num a] [Num b]) ∧ a ≠ 0%Qc.
Proof.
  intros Hp.
  assert (Hc : 0 < length l ∧ 0 < 1) by (destruct l; [done|simpl; lia]).
  unfold MinMaxScaler_fit, check_array, col_of. simpl.
  rewrite decide_True by done. simpl.
  unfold matrix_column. simpl. rewrite map_map. simpl. rewrite map_id.
  destruct (nanmin_present l Hp) as [lo ->]. destruct (nanmax_present l Hp) as [hi ->].
  simpl.
  assert (Hinv : ∀ r : Qc, r ≠ 0%Qc → (1 / r)%Qc ≠ 0%Qc).
  { intros r Hr E. assert (E1 : (r * (1 / r) = 1)%Qc) by (field; done).
    rewrite E in E1. ring_simplify in E1. done. }
  destruct (decide ((hi - lo)%Qc = 0%Qc)) as [_|Hne].
  - rewrite decide_False by done. eexists _, _. split; [reflexivity|]. by apply Hinv.
  - rewrite decide_False by done. eexists _, _. split; [reflexivity|]. by apply Hinv.
Qed.

Lemma minmax_fitted_scaler_linear :
  ∃ ft a b, sk_fitted minmax_fitted_scaler = Some ft ∧ linear_scaler ft a b.
Proof.
  destruct (MinMaxScaler_fit_linear [of_Z 0; of_Z 2]) as (a & b & Hfit & Ha); [done|].
  exists (MinMax_fitted [Num a] [Num b]), a, b. split.
  - unfold minmax_fitted_scaler, Scaler_fit. simpl sk_fit. by rewrite Hfit.
  - by apply MinMax_fitted_linear.
Qed.

Lemma scaler_round_trip_witness :
  ∃ y', TimeSeriesTensorScaler.transform minmax_targets (A3 x_210) (A2 y_31)
          = Ok (A3 x_210, y')
        ∧ TimeSeriesTensorScaler.inverse_transform minmax_targets y' = Ok (A2 y_31).
Proof.
  destruct minmax_fitted_scaler_linear as (ft & a & b & Hft & Hlin).
  refine (proj1 (scaler_round_trip minmax_targets minmax_fitted_scaler ft a b
                   (A3 x_210) (A3 x_210) y_31 eq_refl Hft Hlin eq_refl _ eq_refl _)).
  - split; [reflexivity|]. repeat constructor.
  - simpl. lia.
Defined.

(** C3 (as stated) fails on a 1-D target: with a fitted MinMaxScaler for the
    targets, [transform] raises a ValueError on the 1-D array [1], so there
    is nothing to invert. *)
Lemma round_trip_fails_on_vector :
  sk_fit_log minmax_fitted_scaler = [col_of [of_Z 0; of_Z 2]]
  ∧ TimeSeriesTensorScaler.transform minmax_targets (A3 x_210) (A1 [of_Z 1])
    = Raise ValueError.
Proof. split; reflexivity. Qed.

(** ** The monad *)

Lemma bind_ok {S A B} (m : M S A) (k : A → M S B) s a s1 :
  m s = (Ok a, s1) → bind m k s = k a s1.
Proof. unfold bind. by intros ->. Qed.

Lemma bind_raise {S A B} (m : M S A) (k : A → M S B) s e s1 :
  m s = (Raise e, s1) → bind m k s = (Raise e, s1).
Proof. unfold bind. by intros ->. Qed.

Lemma bind_inv {S A B} (m : M S A) (k : A → M S B) s b s2 :
  bind m k s = (Ok b, s2) → ∃ a s1, m s = (Ok a, s1) ∧ k a s1 = (Ok b, s2).
Proof. unfold bind. destruct (m s) as [[a|e] s1]; [eauto|done]. Qed.

Lemma lift_inv {S A} (r : result A) (s : S) a s' :
  lift r s = (Ok a, s') → r = Ok a ∧ s' = s.
Proof. unfold lift. by intros [= -> ->]. Qed.

(** ** Elementwise maps *)

Lemma nd_map_nd_map f g a : nd_map f (nd_map g a) = nd_map (λ v, f (g v)) a.
Proof.
  destruct a as [v|[s d]|[s d]]; simpl; f_equal; [|f_equal..].
  - by rewrite map_map.
  - rewrite map_map. apply map_ext. intros r. by rewrite map_map.
  - rewrite map_map. apply map_ext. intros m. rewrite map_map.
    apply map_ext. intros r. by rewrite map_map.
Qed.

Lemma nd_map_ext f g a : (∀ v, f v = g v) → nd_map f a = nd_map g a.
Proof.
  intros E. destruct a as [v|[s d]|[s d]]; simpl; f_equal; [|f_equal..].
  - by apply map_ext.
  - apply map_ext. intros r. by apply map_ext.
  - apply map_ext. intros m. apply map_ext. intros r. by apply map_ext.
Qed.

Lemma nd_map_id a : nd_map (λ v, v) a = a.
Proof.
  destruct a as [v|[s d]|[s d]]; simpl; f_equal; [|f_equal..].
  - apply map_id.
  - rewrite <- (map_id d) at 2. apply map_ext. intros r. apply map_id.
  - rewrite <- (map_id d) at 2. apply map_ext. intros m.
    rewrite <- (map_id m) at 2. apply map_ext. intros r. apply map_id.
Qed.

Lemma nd_map_shape f a : nd_shape (nd_map f a) = nd_shape a.
Proof. destruct a as [v|[s d]|[s d]]; simpl; [by rewrite length_map|done..]. Qed.

Lemma nd_map_wf f a : wf a → wf (nd_map f a).
Proof.
  destruct a as [v|[s d]|[s d]]; simpl; [done| |].
  - intros [Hl Hr]. simpl in *. split; simpl; [by rewrite length_map|].
    apply Forall_map. eapply Forall_impl; [|exact Hr].
    intros r Hrl. simpl in *. by rewrite length_map.
  - intros [Hl Hs]. simpl in *. split; simpl; [by rewrite length_map|].
    apply Forall_map. eapply Forall_impl; [|exact Hs].
    intros m [Hm Hr]. simpl in *. split; [by rewrite length_map|].
    apply Forall_map. eapply Forall_impl; [|exact Hr].
    intros r Hrl. simpl in *. by rewrite length_map.
Qed.

Lemma concat_map_map {A B} (f : A → B) (d : list (list A)) :
  concat (map (map f) d) = map f (concat d).
Proof.
  induction d as [|r d IH]; simpl; [done|]. by rewrite IH, List.map_app.
Qed.

Lemma ravel_nd_map f a : ravel (nd_map f a) = map f (ravel a).
Proof.
  destruct a as [v|[s d]|[s d]]; simpl; [done| |].
  - apply concat_map_map.
  - rewrite <- concat_map_map. f_equal.
    induction d as [|m d IH]; simpl; [done|]. by rewrite IH, List.map_app.
Qed.

(** ** Loops that keep the shape *)

Lemma for_each_invariant {S} (P : S → Prop) (body : nat → S → result S) idxs s s' :
  (∀ i a a', body i a = Ok a' → P a → P a') →
  P s → for_each idxs body s = Ok s' → P s'.
Proof.
  intros Hbody. revert s. induction idxs as [|i idxs IH]; simpl; intros s Hs Hr.
  - by inversion Hr; subst.
  - apply rbind_ok in Hr as (a & Ha & Hr). eauto.
Qed.

Lemma setitem_keeps a i r a' :
  setitem a i r = Ok a' → nd_shape a' = nd_shape a ∧ (wf a → wf a').
Proof.
  destruct a as [v|m|[sh d]]; simpl; try done.
  destruct (decide (i < length d)) as [Hi|Hi]; [|done].
  intros Hr. apply rbind_ok in Hr as (m & Hm & Hr). inversion Hr; subst. simpl.
  split; [done|]. intros [Hl Hs]. simpl in *.
  apply broadcast2_shape in Hm as [Hml Hmr].
  split; simpl; [by rewrite length_insert|]. by apply Forall_insert.
Qed.

Lemma setslice1_keeps a i r a' :
  setslice1 a i r = Ok a' → nd_shape a' = nd_shape a ∧ (wf a → wf a').
Proof.
  destruct a as [v|[sh d]|m]; simpl; try done.
  intros Hr. apply rbind_ok in Hr as (rows & Hrows & Hr).
  destruct rows as [|row [|??]]; try done. inversion Hr; subst. simpl.
  split; [done|]. intros [Hl Hs]. simpl in *.
  apply broadcast2_shape in Hrows as [_ Hrr]. inversion Hrr; subst.
  split; simpl; [by rewrite length_insert|]. by apply Forall_insert.
Qed.

Lemma transform_features_keeps self x x' :
  TimeSeriesTensorScaler.transform_features self x = Ok x' →
  nd_shape x' = nd_shape x ∧ (wf x → wf x').
Proof.
  unfold TimeSeriesTensorScaler.transform_features.
  destruct (TimeSeriesTensorScaler.scaler_features self) as [sf|]; [|by intros [= ->]].
  apply (for_each_invariant (λ a, nd_shape a = nd_shape x ∧ (wf x → wf a))); [|done].
  intros i a a' Hb [Hs Hw]. apply rbind_ok in Hb as (Xi & _ & Hb).
  apply rbind_ok in Hb as (r & _ & Hb). apply setitem_keeps in Hb as [Hs' Hw'].
  split; [congruence|auto].
Qed.

Lemma transform_targets_keeps self y y' :
  TimeSeriesTensorScaler.transform_targets self y = Ok y' →
  nd_shape y' = nd_shape y ∧ (wf y → wf y').
Proof.
  unfold TimeSeriesTensorScaler.transform_targets.
  destruct (TimeSeriesTensorScaler.scaler_targets self) as [st|]; [|by intros [= ->]].
  apply (for_each_invariant (λ a, nd_shape a = nd_shape y ∧ (wf y → wf a))); [|done].
  intros i a a' Hb [Hs Hw]. apply rbind_ok in Hb as (col & _ & Hb).
  apply rbind_ok in Hb as (r & _ & Hb). apply setslice1_keeps in Hb as [Hs' Hw'].
  split; [congruence|auto].
Qed.

Lemma transform_keeps self x y x' y' :
  TimeSeriesTensorScaler.transform self x y = Ok (x', y') →
  TimeSeriesTensorScaler.transform_features self x = Ok x'
  ∧ TimeSeriesTensorScaler.transform_targets self y = Ok y'.
Proof.
  unfold TimeSeriesTensorScaler.transform. intros Hr.
  apply rbind_ok in Hr as (a & Ha & Hr). apply rbind_ok in Hr as (b & Hb & Hr).
  by inversion Hr; subst.
Qed.

(** ** Time features of a tensor *)

Lemma zip_with_replicate {A B C} (f : A → B → C) (d : list A) c :
  zip_with f d (replicate (length d) c) = map (λ a, f a c) d.
Proof. induction d as [|a d IH]; simpl; [done|by rewrite IH]. Qed.

Lemma zip_two_profiles {A} (Pm Ps : nat → list A) (l : list (list A)) k :
  zip_with app (zip_with app l (map Pm (seq k (length l)))) (map Ps (seq k (length l)))
  = imap (λ i row, (row ++ Pm (k + i)) ++ Ps (k + i)) l.
Proof.
  revert k. induction l as [|row l IH]; intros k; simpl; [done|].
  rewrite Nat.add_0_r. f_equal. rewrite IH. apply imap_ext. intros i r _. simpl.
  f_equal; [f_equal|]; f_equal; lia.
Qed.

Lemma zip_profiles {A} (Pm Ps : nat → list A) (d : list (list (list A))) T :
  Forall (λ smp, length smp = T) d →
  zip_with (zip_with app)
    (zip_with (zip_with app) d (replicate (length d) (map Pm (seq 0 T))))
    (replicate (length d) (map Ps (seq 0 T)))
  = map (imap (λ t row, (row ++ Pm t) ++ Ps t)) d.
Proof.
  induction 1 as [|smp d Hsmp _ IH]; simpl; [done|].
  rewrite IH. f_equal. rewrite <- Hsmp. apply zip_two_profiles.
Qed.

Lemma mapM_norm_index_ok F idx :
  Forall (λ j, (- Z.of_nat F ≤ j < Z.of_nat F)%Z) idx →
  ∃ cols, mapM (norm_index F) idx = Ok cols.
Proof.
  induction 1 as [|j idx Hj _ [cols IH]]; simpl; [eauto|].
  unfold norm_index at 1.
  destruct (decide (0 ≤ j < Z.of_nat F)%Z); simpl.
  - rewrite IH. simpl. eauto.
  - rewrite decide_True by lia. simpl. rewrite IH. simpl. eauto.
Qed.

Section time_features.
Context `{Numpy}.

Lemma time_features_spec idx x cols :
  wf3 x → mapM (norm_index (shape3 x).2) idx = Ok cols →
  let x' := Nd3 ((shape3 x).1.1, (shape3 x).1.2, (shape3 x).2 + 2 * length idx)
              (map (imap (λ t row,
                      (row ++ map (λ j, nanmean (across_samples x t j)) cols)
                      ++ map (λ j, nanstd (across_samples x t j)) cols))
                   (data3 x)) in
  TensorPreprocessor.time_features idx (A3 x) = Ok (A3 x') ∧ wf3 x'.
Proof.
  intros [Hl Hs] Hcols. simpl.
  pose proof (mapM_ok_length _ _ _ Hcols) as Hk.
  unfold TensorPreprocessor.time_features. rewrite Hcols. simpl.
  rewrite <- Hl, !Hk. split.
  - f_equal. f_equal. f_equal; [f_equal; lia|].
    unfold time_profile, across_samples.
    apply (zip_profiles
             (λ t, map (λ j, nanmean (map (λ smp, default NaN (smp !! t ≫= lookup j))
                                          (data3 x))) cols)
             (λ t, map (λ j, nanstd (map (λ smp, default NaN (smp !! t ≫= lookup j))
                                         (data3 x))) cols)).
    eapply Forall_impl; [|exact Hs]. by intros smp [? _].
  - split; simpl; [by rewrite length_map|].
    apply Forall_map. eapply Forall_impl; [|exact Hs].
    intros smp [Hsl Hr]. simpl in *. split; [by rewrite length_imap|].
    unfold rows_ok in *. apply Forall_forall. intros row Hin.
    apply list_elem_of_In, list_elem_of_lookup in Hin as [t Ht].
    rewrite list_lookup_imap in Ht.
    destruct (smp !! t) as [r|] eqn:Hr0; [|done]. simpl in Ht. inversion Ht; subst.
    rewrite !length_app, !length_map.
    rewrite Forall_forall in Hr.
    rewrite (Hr r); [lia|]. apply list_elem_of_In. by eapply list_elem_of_lookup_2.
Qed.
End time_features.

(** ** TimeSeriesTensorScaler.fit *)

Lemma take_rows_spec sel m X :
  take_rows sel m = Ok X →
  (shape2 X).2 = (shape2 m).2 ∧ ∀ r, r ∈ data2 X → r ∈ data2 m.
Proof.
  unfold take_rows. intros Hr. apply rbind_ok in Hr as (rows & Hrows & Hr).
  inversion Hr; subst. simpl. split; [done|].
  apply list.Forall_forall. eapply mapM_ok_Forall; [|exact Hrows].
  intros i r Hi. simpl in Hi. destruct (data2 m !! i) as [r'|] eqn:E; [|done].
  inversion Hi; subst. by eapply list_elem_of_lookup_2.
Qed.

Lemma Scaler_fit_spec sc X sc' rows :
  Scaler_fit sc X = Ok sc' →
  (shape2 X).2 = (shape2 rows).2 → (∀ r, r ∈ data2 X → r ∈ data2 rows) →
  fitted_once_on sc sc' rows.
Proof.
  unfold Scaler_fit. intros Hr Hc Hin. apply rbind_ok in Hr as (f & Hf & Hr).
  inversion Hr; subst. exists X. simpl. rewrite Hf. eauto 10.
Qed.

Section fit.
Context `{Numpy}.
Import TimeSeriesTensorScaler.

Lemma subsample_spec m ts g X s' :
  subsample m (ts, g) = (Ok X, s') →
  s'.1 = ts ∧ (shape2 X).2 = (shape2 m).2 ∧ ∀ r, r ∈ data2 X → r ∈ data2 m.
Proof.
  unfold subsample, bind, get, put, ret, lift. simpl.
  destruct (scaler_fit_sample ts) as [size|]; [|by intros [= -> <-]].
  destruct (np_random_choice g (shape2 m).1 size) as [[sel|e] g1]; simpl; [|done].
  destruct (take_rows sel m) as [X'|e] eqn:E; [|done].
  intros [= -> <-]. split; [done|]. by eapply take_rows_spec.
Qed.

(** A successful [fit] fits every configured scaler exactly once. *)
Lemma fit_effect features targets ts g u ts' g' :
  fit features targets (ts, g) = (Ok u, (ts', g')) → fit_on ts ts' features targets.
Proof.
  unfold fit. intros Hr.
  apply bind_inv in Hr as ([ts0 g0] & s0 & Hget & Hr). inversion Hget; subst. clear Hget.
  apply bind_inv in Hr as ([] & [ts1 g1] & Hfeat & Hr).
  apply bind_inv in Hr as ([ts2 g2] & s2 & Hget & Hr). inversion Hget; subst. clear Hget.
  assert (Hfeat' :
    scaler_fit_sample ts2 = scaler_fit_sample ts0
    ∧ scaler_targets ts2 = scaler_targets ts0
    ∧ match scaler_features ts0 with
      | None => scaler_features ts2 = None
      | Some sf => ∃ sf' rows, scaler_features ts2 = Some sf'
                     ∧ reshape_rows features = Ok rows ∧ fitted_once_on sf sf' rows
      end).
  { destruct (scaler_features ts0) as [sf|] eqn:Esf.
    - apply bind_inv in Hfeat as (rows & s & Hrows & Hfeat).
      apply lift_inv in Hrows as [Hrows ->].
      apply bind_inv in Hfeat as (X & [ts3 g3] & Hsub & Hfeat).
      apply subsample_spec in Hsub as (Hts & Hc & Hin). simpl in Hts. subst ts3.
      apply bind_inv in Hfeat as (sf' & s & Hfit & Hfeat).
      apply lift_inv in Hfit as [Hfit ->].
      apply bind_inv in Hfeat as ([ts4 g4] & s & Hget & Hput).
      inversion Hget; subst. inversion Hput; subst. simpl.
      repeat split; try done. exists sf', rows. repeat split; try done.
      by eapply Scaler_fit_spec.
    - inversion Hfeat; subst. by rewrite Esf. }
  destruct Hfeat' as (Hs & Ht & Hf).
  unfold fit_on. rewrite <- Ht.
  destruct (scaler_targets ts2) as [st|] eqn:Est.
  - apply bind_inv in Hr as (X & [ts3 g3] & Hsub & Hr).
    apply subsample_spec in Hsub as (Hts & Hc & Hin). simpl in Hts. subst ts3.
    apply bind_inv in Hr as (st' & s & Hfit & Hr).
    apply lift_inv in Hfit as [Hfit ->].
    apply bind_inv in Hr as ([ts4 g4] & s & Hget & Hput).
    inversion Hget; subst. inversion Hput; subst. simpl.
    split; [done|]. split.
    + destruct (scaler_features ts0); [|done].
      destruct Hf as (sf' & rows & ? & ? & ?). eauto.
    + exists st'. split; [done|]. by eapply Scaler_fit_spec.
  - inversion Hr; subst. rewrite Est. done.
Qed.

(** Without a sample size [fit] leaves the generator alone, whatever
    its outcome. *)
Lemma fit_keeps_rng features targets ts g r ts' g' :
  scaler_fit_sample ts = None →
  fit features targets (ts, g) = (r, (ts', g')) → g' = g.
Proof.
  intros Hs. unfold fit, subsample, bind, get, put, ret, lift. simpl.
  destruct (scaler_features ts) as [sf|]; simpl.
  - destruct (reshape_rows features) as [rows|e]; simpl; [|by intros [= _ _ <-]].
    rewrite Hs. simpl.
    destruct (Scaler_fit sf rows) as [sf'|e]; simpl; [|by intros [= _ _ <-]].
    destruct (scaler_targets ts) as [st|]; simpl; [|by intros [= _ _ <-]].
    rewrite Hs. simpl.
    destruct (Scaler_fit st _) as [st'|e]; simpl; by intros [= _ _ <-].
  - destruct (scaler_targets ts) as [st|]; simpl; [|by intros [= _ _ <-]].
    rewrite Hs. simpl.
    destruct (Scaler_fit st _) as [st'|e]; simpl; by intros [= _ _ <-].
Qed.
End fit.

(** ** TensorPreprocessor: reading and writing arrays *)

Section tensor.
Context `{Numpy}.
Import TensorPreprocessor.

Lemma deref_caller w l a : store w !! l = Some a → deref (Caller l) w = (Ok a, w).
Proof. intros Hl. unfold deref, bind, get. simpl. by rewrite Hl. Qed.

Lemma update_caller w l a f :
  store w !! l = Some a →
  update (Caller l) f w
  = (Ok (Caller l), mkWorld (<[l := nd_map f a]> (store w)) (rng w) (ts_scaler w)).
Proof. intros Hl. unfold update, deref, bind, get, put, ret. simpl. by rewrite Hl. Qed.

Ltac solve_lookup :=
  simpl; repeat first [rewrite lookup_insert_eq | rewrite lookup_insert_ne by done];
  first [reflexivity | eassumption].

Ltac run_step :=
  first [ erewrite (bind_ok (update (Caller _) _)) by (apply update_caller; solve_lookup)
        | rewrite (bind_ok (ret _) _ _ _ _ eq_refl) ].

Lemma world_eta w : mkWorld (store w) (rng w) (ts_scaler w) = w.
Proof. by destruct w. Qed.

(** With [copy=True] the method works on its own arrays: the world is
    the one before the call. *)
Lemma _run_data_copy self ly lx w x y xa :
  store w !! lx = Some x → store w !! ly = Some y → augmented self x = Ok xa →
  _run_data self (ly, lx) true w
  = (Ok (Own (nd_map fillna xa), Own (nd_map (tensor_target self) y)), w).
Proof.
  intros Hx Hy Ha. unfold _run_data, copy_of.
  rewrite (bind_ok _ _ w (Own x) w) by (by rewrite (bind_ok _ _ _ _ _ (deref_caller w lx x Hx))).
  rewrite (bind_ok _ _ w (Own y) w) by (by rewrite (bind_ok _ _ _ _ _ (deref_caller w ly y Hy))).
  rewrite (bind_ok _ _ w (Own xa) w).
  2:{ unfold _add_time_features, augmented in *.
      destruct (decide _); [by inversion Ha|].
      unfold bind, deref, ret, lift. by rewrite Ha. }
  destruct self as [fill lo hi idx]. unfold tensor_target, clamp, fillna. simpl.
  destruct fill, hi as [hi|], lo as [lo|]; unfold bind, update, ret; simpl;
    rewrite ?nd_map_nd_map; try done.
  by rewrite nd_map_id.
Qed.

(** Without the copy the writes go to the arrays of the caller. *)
Lemma _run_data_nocopy self ly lx w x y xa :
  lx ≠ ly →
  store w !! lx = Some x → store w !! ly = Some y → augmented self x = Ok xa →
  ∃ xr w',
    _run_data self (ly, lx) false w = (Ok (xr, Caller ly), w')
    ∧ deref xr w' = (Ok (nd_map fillna xa), w')
    ∧ store w' !! ly = Some (nd_map (tensor_target self) y)
    ∧ store w' !! lx
      = Some (if decide (length (time_id_features_idx self) = 0)
              then nd_map fillna x else x)
    ∧ (∀ l, l ≠ lx → l ≠ ly → store w' !! l = store w !! l)
    ∧ rng w' = rng w ∧ ts_scaler w' = ts_scaler w.
Proof.
  intros Hne Hx Hy Ha. destruct w as [st g ts]. simpl in Hx, Hy.
  destruct self as [fill lo hi idx]. unfold augmented in Ha. simpl in Ha.
  unfold _run_data, _add_time_features, tensor_target, clamp, fillna in *. simpl.
  rewrite !(bind_ok (ret _) _ _ _ _ eq_refl).
  destruct (decide (length idx = 0)) as [Hidx|Hidx].
  - inversion Ha; subst xa.
    rewrite (bind_ok (ret _) _ _ _ _ eq_refl).
    destruct fill, hi as [hi|], lo as [lo|];
      repeat run_step;
      eexists _, _; (split; [reflexivity|]);
      (split; [apply deref_caller; solve_lookup|]); simpl;
      repeat (rewrite ?lookup_insert_eq, ?lookup_insert_ne by done; simpl);
      rewrite ?Hx, ?Hy, ?nd_map_nd_map, ?nd_map_id;
      (repeat split; try done);
      intros l Hl1 Hl2; by rewrite ?lookup_insert_ne by done.
  - erewrite (bind_ok (bind (deref _) _)); cycle 1.
    { rewrite (bind_ok _ _ _ _ _ (deref_caller (mkWorld st g ts) lx x Hx)).
      unfold bind, lift, ret. by rewrite Ha. }
    rewrite (bind_ok (update (Own _) _) _ _ _ _ eq_refl).
    destruct fill, hi as [hi|], lo as [lo|];
      repeat run_step;
      eexists _, _; (split; [reflexivity|]); simpl;
      (split; [reflexivity|]);
      repeat (rewrite ?lookup_insert_eq, ?lookup_insert_ne by done; simpl);
      rewrite ?Hx, ?Hy, ?nd_map_nd_map, ?nd_map_id;
      (repeat split; try done);
      intros l Hl1 Hl2; by rewrite ?lookup_insert_ne by done.
Qed.

Lemma _run_data_raise self ly lx w x y e copy :
  store w !! lx = Some x → store w !! ly = Some y → augmented self x = Raise e →
  _run_data self (ly, lx) copy w = (Raise e, w).
Proof.
  intros Hx Hy Ha. unfold augmented in Ha. unfold _run_data, copy_of, _add_time_features.
  destruct (decide _) as [|Hidx]; [done|].
  destruct copy.
  - rewrite (bind_ok _ _ w (Own x) w)
      by (by rewrite (bind_ok _ _ _ _ _ (deref_caller w lx x Hx))).
    rewrite (bind_ok _ _ w (Own y) w)
      by (by rewrite (bind_ok _ _ _ _ _ (deref_caller w ly y Hy))).
    unfold bind, deref, ret, lift. by rewrite Ha.
  - rewrite !(bind_ok (ret _) _ _ _ _ eq_refl).
    rewrite (bind_raise _ _ w e w); [done|].
    rewrite (bind_ok _ _ _ _ _ (deref_caller w lx x Hx)).
    unfold bind, lift. by rewrite Ha.
Qed.

Lemma ts_fit_spec features targets w r w' :
  ts_fit features targets w = (r, w') →
  store w' = store w
  ∧ (∀ u, r = Ok u → fit_on (ts_scaler w) (ts_scaler w') features targets).
Proof.
  unfold ts_fit, with_scaler.
  destruct (TimeSeriesTensorScaler.fit features targets (ts_scaler w, rng w))
    as [r0 [ts g]] eqn:E.
  intros [= <- <-]. simpl. split; [done|]. intros u ->. by eapply fit_effect.
Qed.

Lemma ts_transform_spec features targets w :
  ts_transform features targets w
  = (TimeSeriesTensorScaler.transform (ts_scaler w) features targets, w).
Proof. done. Qed.

(** [run_inference] zero-fills the array of the caller in place and
    applies the transform; it never fits. *)
Lemma run_inference_spec self lx w x :
  store w !! lx = Some x →
  run_inference self lx w
  = (TimeSeriesTensorScaler.transform_features (ts_scaler w) (nd_map fillna x),
     mkWorld (<[lx := nd_map fillna x]> (store w)) (rng w) (ts_scaler w)).
Proof.
  intros Hx. unfold run_inference.
  rewrite (bind_ok _ _ _ _ _ (update_caller w lx x _ Hx)).
  erewrite (bind_ok (deref _)) by (apply deref_caller; solve_lookup).
  done.
Qed.

Lemma run_train_inv self ly lx w x y res w' :
  lx ≠ ly → store w !! lx = Some x → store w !! ly = Some y →
  run_train self (ly, lx) w = (Ok res, w') →
  ∃ xa, augmented self x = Ok xa
    ∧ TimeSeriesTensorScaler.transform (ts_scaler w')
        (nd_map fillna xa) (nd_map (tensor_target self) y) = Ok res
    ∧ fit_on (ts_scaler w) (ts_scaler w')
        (nd_map fillna xa) (nd_map (tensor_target self) y)
    ∧ store w' !! ly = Some (nd_map (tensor_target self) y)
    ∧ store w' !! lx
      = Some (if decide (length (time_id_features_idx self) = 0)
              then nd_map fillna x else x)
    ∧ (∀ l, l ≠ lx → l ≠ ly → store w' !! l = store w !! l).
Proof.
  intros Hne Hx Hy Hr. unfold run_train in Hr.
  destruct (augmented self x) as [xa|e] eqn:Ha.
  2:{ by rewrite (bind_raise _ _ _ _ _ (_run_data_raise self ly lx w x y e false Hx Hy Ha))
        in Hr. }
  destruct (_run_data_nocopy self ly lx w x y xa Hne Hx Hy Ha)
    as (xr & w1 & Hrun & Hdx & Hly & Hlx & Hother & Hrng & Hts).
  rewrite (bind_ok _ _ _ _ _ Hrun) in Hr.
  rewrite (bind_ok _ _ _ _ _ Hdx) in Hr.
  rewrite (bind_ok _ _ _ _ _ (deref_caller w1 ly _ Hly)) in Hr.
  apply bind_inv in Hr as (u & w2 & Hfit & Hr).
  apply ts_fit_spec in Hfit as [Hst Hfit].
  apply bind_inv in Hr as ([x' y'] & w3 & Htr & Hr).
  rewrite ts_transform_spec in Htr. inversion Htr; subst. clear Htr.
  inversion Hr; subst. exists xa. rewrite Hst, <- Hts.
  split; [done|]. split; [done|]. split; [exact (Hfit u eq_refl)|].
  split; [done|]. split; done.
Qed.

Lemma run_inv self lyt lxt lyv lxv w xt yt xv yv res w' :
  store w !! lxt = Some xt → store w !! lyt = Some yt →
  store w !! lxv = Some xv → store w !! lyv = Some yv →
  run self (lyt, lxt) (lyv, lxv) w = (Ok res, w') →
  ∃ xat xav x_train y_train x_valid y_valid,
    augmented self xt = Ok xat ∧ augmented self xv = Ok xav
    ∧ res.1.1.1.1.1 = x_train ∧ res.1.1.1.1.2 = x_valid
    ∧ res.1.2 = y_train ∧ res.2 = y_valid
    ∧ TimeSeriesTensorScaler.transform (ts_scaler w')
        (nd_map fillna xat) (nd_map (tensor_target self) yt) = Ok (x_train, y_train)
    ∧ TimeSeriesTensorScaler.transform (ts_scaler w')
        (nd_map fillna xav) (nd_map (tensor_target self) yv) = Ok (x_valid, y_valid)
    ∧ fit_on (ts_scaler w) (ts_scaler w')
        (nd_map fillna xat) (nd_map (tensor_target self) yt)
    ∧ store w' = store w.
Proof.
  intros Hxt Hyt Hxv Hyv Hr. unfold run in Hr.
  destruct (augmented self xt) as [xat|e] eqn:Hat.
  2:{ by rewrite (bind_raise _ _ _ _ _
                    (_run_data_raise self lyt lxt w xt yt e true Hxt Hyt Hat)) in Hr. }
  rewrite (bind_ok _ _ _ _ _ (_run_data_copy self lyt lxt w xt yt xat Hxt Hyt Hat)) in Hr.
  destruct (augmented self xv) as [xav|e] eqn:Hav.
  2:{ by rewrite (bind_raise _ _ _ _ _
                    (_run_data_raise self lyv lxv w xv yv e true Hxv Hyv Hav)) in Hr. }
  rewrite (bind_ok _ _ _ _ _ (_run_data_copy self lyv lxv w xv yv xav Hxv Hyv Hav)) in Hr.
  rewrite !(bind_ok (deref (Own _)) _ _ _ _ eq_refl) in Hr.
  apply bind_inv in Hr as (u & w2 & Hfit & Hr).
  apply ts_fit_spec in Hfit as [Hst Hfit].
  apply bind_inv in Hr as ([x_train y_train] & w3 & Htr & Hr).
  rewrite ts_transform_spec in Htr. inversion Htr as [[Htr' Hw3]]. subst w3. clear Htr.
  apply bind_inv in Hr as ([x_valid y_valid] & w4 & Htv & Hr).
  rewrite ts_transform_spec in Htv. inversion Htv as [[Htv' Hw4]]. subst w4. clear Htv.
  unfold bind, lift, ret in Hr.
  destruct (timesteps_of y_train) as [t1|e]; [|done].
  destruct (timesteps_of y_valid) as [t2|e]; [|done].
  inversion Hr; subst. simpl.
  exists xat, xav, x_train, y_train, x_valid, y_valid.
  do 8 (split; [done|]). split; [exact (Hfit u eq_refl)|done].
Qed.

Lemma ts_fit_keeps_rng features targets w r w' :
  TimeSeriesTensorScaler.scaler_fit_sample (ts_scaler w) = None →
  ts_fit features targets w = (r, w') → rng w' = rng w.
Proof.
  intros Hs. unfold ts_fit, with_scaler.
  destruct (TimeSeriesTensorScaler.fit features targets (ts_scaler w, rng w))
    as [r0 [ts g]] eqn:E.
  intros [= _ <-]. simpl. by eapply fit_keeps_rng.
Qed.

(** The same [fit] from a world with other arrays. *)
Lemma ts_fit_elsewhere features targets w w1 r w2 :
  ts_fit features targets w = (r, w2) →
  rng w1 = rng w → ts_scaler w1 = ts_scaler w →
  ts_fit features targets w1 = (r, mkWorld (store w1) (rng w2) (ts_scaler w2)).
Proof.
  unfold ts_fit, with_scaler. intros Hr -> ->.
  destruct (TimeSeriesTensorScaler.fit features targets (ts_scaler w, rng w))
    as [r0 [ts g]].
  by inversion Hr.
Qed.

(** [_run_data] touches neither the scalers nor the generator, and with
    the copy no array of the caller. *)
Lemma _run_data_keeps_scalers self ly lx copy w x y r w' :
  lx ≠ ly → store w !! lx = Some x → store w !! ly = Some y →
  _run_data self (ly, lx) copy w = (r, w') →
  rng w' = rng w ∧ ts_scaler w' = ts_scaler w ∧ (copy = true → store w' = store w).
Proof.
  intros Hne Hx Hy Hr.
  destruct (augmented self x) as [xa|e] eqn:Ha.
  2:{ rewrite (_run_data_raise self ly lx w x y e copy Hx Hy Ha) in Hr.
      by inversion Hr. }
  destruct copy.
  - rewrite (_run_data_copy self ly lx w x y xa Hx Hy Ha) in Hr. by inversion Hr.
  - destruct (_run_data_nocopy self ly lx w x y xa Hne Hx Hy Ha)
      as (xr & w1 & Hrun & _ & _ & _ & _ & Hrng & Hts).
    rewrite Hrun in Hr. by inversion Hr; subst.
Qed.

(** What [run] does, step by step, once it has returned. *)
Lemma run_steps self lyt lxt lyv lxv w xt yt xv yv
    x_train x_valid t1 t2 y_train y_valid w' :
  store w !! lxt = Some xt → store w !! lyt = Some yt →
  store w !! lxv = Some xv → store w !! lyv = Some yv →
  run self (lyt, lxt) (lyv, lxv) w
  = (Ok (x_train, x_valid, t1, t2, y_train, y_valid), w') →
  ∃ xat xav u,
    augmented self xt = Ok xat ∧ augmented self xv = Ok xav
    ∧ ts_fit (nd_map fillna xat) (nd_map (tensor_target self) yt) w = (Ok u, w')
    ∧ TimeSeriesTensorScaler.transform (ts_scaler w')
        (nd_map fillna xat) (nd_map (tensor_target self) yt) = Ok (x_train, y_train)
    ∧ TimeSeriesTensorScaler.transform (ts_scaler w')
        (nd_map fillna xav) (nd_map (tensor_target self) yv) = Ok (x_valid, y_valid)
    ∧ timesteps_of y_train = Ok t1 ∧ timesteps_of y_valid = Ok t2.
Proof.
  intros Hxt Hyt Hxv Hyv Hr. unfold run in Hr.
  destruct (augmented self xt) as [xat|e] eqn:Hat.
  2:{ by rewrite (bind_raise _ _ _ _ _
                    (_run_data_raise self lyt lxt w xt yt e true Hxt Hyt Hat)) in Hr. }
  rewrite (bind_ok _ _ _ _ _ (_run_data_copy self lyt lxt w xt yt xat Hxt Hyt Hat)) in Hr.
  destruct (augmented self xv) as [xav|e] eqn:Hav.
  2:{ by rewrite (bind_raise _ _ _ _ _
                    (_run_data_raise self lyv lxv w xv yv e true Hxv Hyv Hav)) in Hr. }
  rewrite (bind_ok _ _ _ _ _ (_run_data_copy self lyv lxv w xv yv xav Hxv Hyv Hav)) in Hr.
  rewrite !(bind_ok (deref (Own _)) _ _ _ _ eq_refl) in Hr.
  apply bind_inv in Hr as (u & w2 & Hfit & Hr).
  apply bind_inv in Hr as ([x_train' y_train'] & w3 & Htr & Hr).
  rewrite ts_transform_spec in Htr. inversion Htr as [[Htr' Hw3]]. subst w3. clear Htr.
  apply bind_inv in Hr as ([x_valid' y_valid'] & w4 & Htv & Hr).
  rewrite ts_transform_spec in Htv. inversion Htv as [[Htv' Hw4]]. subst w4. clear Htv.
  unfold bind, lift, ret in Hr.
  destruct (timesteps_of y_train') as [t1'|e] eqn:Et1; [|done].
  destruct (timesteps_of y_valid') as [t2'|e] eqn:Et2; [|done].
  inversion Hr; subst. exists xat, xav, u. done.
Qed.

(** What [run_train] does, step by step, once it has returned: the
    scalers and the generator are the ones the fit leaves. *)
Lemma run_train_steps self ly lx w x y res w' :
  lx ≠ ly → store w !! lx = Some x → store w !! ly = Some y →
  run_train self (ly, lx) w = (Ok res, w') →
  ∃ xa u, augmented self x = Ok xa
    ∧ ts_fit (nd_map fillna xa) (nd_map (tensor_target self) y) w
      = (Ok u, mkWorld (store w) (rng w') (ts_scaler w'))
    ∧ TimeSeriesTensorScaler.transform (ts_scaler w')
        (nd_map fillna xa) (nd_map (tensor_target self) y) = Ok res.
Proof.
  intros Hne Hx Hy Hr. unfold run_train in Hr.
  destruct (augmented self x) as [xa|e] eqn:Ha.
  2:{ by rewrite (bind_raise _ _ _ _ _ (_run_data_raise self ly lx w x y e false Hx Hy Ha))
        in Hr. }
  destruct (_run_data_nocopy self ly lx w x y xa Hne Hx Hy Ha)
    as (xr & w1 & Hrun & Hdx & Hly & Hlx & Hother & Hrng & Hts).
  rewrite (bind_ok _ _ _ _ _ Hrun) in Hr.
  rewrite (bind_ok _ _ _ _ _ Hdx) in Hr.
  rewrite (bind_ok _ _ _ _ _ (deref_caller w1 ly _ Hly)) in Hr.
  apply bind_inv in Hr as (u & w2 & Hfit & Hr).
  apply bind_inv in Hr as ([x' y'] & w3 & Htr & Hr).
  rewrite ts_transform_spec in Htr. inversion Htr; subst. clear Htr.
  inversion Hr; subst. exists xa, u. split; [done|]. split; [|done].
  by apply (ts_fit_elsewhere _ _ w1 w _ _ Hfit).
Qed.
End tensor.

(** ** Data frames *)

Lemma get_col_set_col_eq name c f : get_col name (set_col name c f) = Some c.
Proof.
  unfold set_col, has_col, get_col. destruct f as [n cols]. simpl.
  destruct (bool_decide (is_Some (assoc name cols))) eqn:E; simpl.
  - apply bool_decide_eq_true in E. induction cols as [|[n0 c0] cols IH]; simpl in *.
    + by destruct E.
    + destruct (decide (n0 = name)) as [->|Hne]; simpl.
      * by rewrite decide_True.
      * rewrite decide_False by done. auto.
  - apply bool_decide_eq_false in E. induction cols as [|[n0 c0] cols IH]; simpl in *.
    + by rewrite decide_True.
    + destruct (decide (n0 = name)) as [->|Hne]; [by destruct E|auto].
Qed.

Lemma get_col_set_col_ne name name' c f :
  name' ≠ name → get_col name' (set_col name c f) = get_col name' f.
Proof.
  intros Hne. unfold set_col, has_col, get_col. destruct f as [n cols]. simpl.
  destruct (bool_decide (is_Some (assoc name cols))); simpl.
  - induction cols as [|[n0 c0] cols IH]; simpl; [done|].
    destruct (decide (n0 = name)) as [->|Hn]; simpl.
    + by rewrite !decide_False by done.
    + destruct (decide (n0 = name')); [done|auto].
  - induction cols as [|[n0 c0] cols IH]; simpl.
    + by rewrite decide_False.
    + destruct (decide (n0 = name')); [done|auto].
Qed.

(** ** NaivePreprocessor *)

Section naive.
Context `{Numpy}.
Import NaivePreprocessor.

Lemma read_frame_inv df w f w' :
  read_frame df w = (Ok f, w') → store w !! df = Some f ∧ w' = w.
Proof.
  unfold read_frame, bind, get, ret, raise.
  destruct (store w !! df); [by intros [= -> ->]|done].
Qed.

Lemma target_values_inv df w c w' :
  target_values df w = (Ok c, w') →
  w' = w ∧ ∃ f, store w !! df = Some f ∧ get_col "target" f = Some c.
Proof.
  unfold target_values. intros Hr.
  apply bind_inv in Hr as (f & w1 & Hf & Hr). apply read_frame_inv in Hf as [Hf ->].
  destruct (get_col "target" f) as [c'|] eqn:E; [|done].
  inversion Hr; subst. eauto.
Qed.

Lemma keeps_bind {A B} (m : M world A) (k : A → M world B) :
  keeps_scaler m → (∀ a, keeps_scaler (k a)) → keeps_scaler (bind m k).
Proof.
  intros Hm Hk w r w'. unfold bind. destruct (m w) as [[a|e] w1] eqn:E.
  - intros Hr. rewrite (Hk a _ _ _ Hr). by eapply Hm.
  - intros [= <- <-]. by eapply Hm.
Qed.

Lemma keeps_pure {A} (m : M world A) :
  (∀ w, (m w).2 = w) → keeps_scaler m.
Proof. intros Hm w r w' E. specialize (Hm w). rewrite E in Hm. simpl in Hm. by subst. Qed.

Lemma keeps_read df : keeps_scaler (read_frame df).
Proof.
  apply keeps_pure. intros w. unfold read_frame, bind, get, ret, raise.
  by destruct (store w !! df).
Qed.

Lemma keeps_write df f : keeps_scaler (write_frame df f).
Proof. intros w r w'. unfold write_frame, bind, get, put. by intros [= <- <-]. Qed.

(** Without [fit_scaler] the scaler object is not touched, whatever the
    outcome. *)
Lemma _run_keeps_scaler self df : keeps_scaler (_run self df false).
Proof.
  unfold _run. apply keeps_bind; [apply keeps_read|]. intros f.
  apply keeps_bind.
  { destruct (has_col "time_id" f); [by apply keeps_pure|].
    apply keeps_bind; [by apply keeps_pure|]. intros ids. apply keeps_write. }
  intros _. apply keeps_bind; [apply keeps_read|]. intros f1.
  apply keeps_bind; [by apply keeps_pure|]. intros ff.
  apply keeps_bind; [by apply keeps_pure|]. intros w0.
  destruct (scaler_features w0); [|by apply keeps_pure].
  apply keeps_bind; [by apply keeps_pure|]. intros X.
  apply keeps_bind; [by apply keeps_pure|]. intros sc.
  apply keeps_bind; [by apply keeps_pure|]. intros m. by apply keeps_pure.
Qed.

Lemma _run_inv self df fit w f r w' :
  store w !! df = Some f → _run self df fit w = (Ok r, w') →
  ∃ f1 ff, time_id_added f f1 ∧ store w' = <[df := f1]> (store w)
    ∧ feature_frame self f1 = Ok ff
    ∧ scaled_by fit (scaler_features w) ff r (scaler_features w').
Proof.
  intros Hf Hr. unfold _run in Hr.
  apply bind_inv in Hr as (f0 & w0 & Hf0 & Hr).
  apply read_frame_inv in Hf0 as [Hf0 ->]. rewrite Hf in Hf0. inversion Hf0; subst f0.
  apply bind_inv in Hr as ([] & w1 & Htid & Hr).
  assert (Hw1 : ∃ f1, time_id_added f f1 ∧ store w1 = <[df := f1]> (store w)
                      ∧ scaler_features w1 = scaler_features w).
  { unfold time_id_added. destruct (has_col "time_id" f) eqn:Eh.
    - inversion Htid; subst. exists f. split; [by left|].
      split; [by rewrite insert_id|done].
    - apply bind_inv in Htid as (ids & w2 & Hids & Htid).
      apply lift_inv in Hids as [Hids ->].
      unfold write_frame, bind, get, put in Htid. inversion Htid; subst. simpl.
      exists (set_col "time_id" ids f). split; [right; eauto|done]. }
  destruct Hw1 as (f1 & Hadd & Hst1 & Hsc1).
  apply bind_inv in Hr as (f1' & w2 & Hf1 & Hr).
  apply read_frame_inv in Hf1 as [Hf1 ->].
  rewrite Hst1, lookup_insert_eq in Hf1. inversion Hf1; subst f1'.
  apply bind_inv in Hr as (ff & w2 & Hff & Hr). apply lift_inv in Hff as [Hff ->].
  apply bind_inv in Hr as (w2 & w3 & Hget & Hr). inversion Hget; subst w2 w3.
  exists f1, ff. split; [done|]. rewrite <- Hsc1. rewrite <- Hst1.
  unfold scaled_by. destruct (scaler_features w1) as [sc|] eqn:Esc.
  - apply bind_inv in Hr as (X & w2 & HX & Hr). apply lift_inv in HX as [HX ->].
    apply bind_inv in Hr as (sc1 & w2 & Hsc & Hr).
    apply bind_inv in Hr as (m & w3 & Hm & Hr). apply lift_inv in Hm as [Hm ->].
    inversion Hr; subst. destruct fit.
    + apply bind_inv in Hsc as (sc2 & w3 & Hfit & Hsc).
      apply lift_inv in Hfit as [Hfit ->].
      unfold bind, put, ret in Hsc. inversion Hsc; subst. simpl.
      repeat split; try done. exists X, m. repeat split; try done.
      exists sc1. repeat split; try done. by eapply Scaler_fit_spec.
    + inversion Hsc; subst. repeat split; try done.
      exists X, m. by rewrite Esc.
  - inversion Hr; subst. by rewrite Esc.
Qed.

Lemma crop_step_inv mask o df w u w' f c :
  store w !! df = Some f → get_col "target" f = Some c →
  match o with
  | Some b => set_target_where df (λ v, mask v b) b
  | None => ret tt
  end w = (Ok u, w') →
  ∃ f' c', store w' = <[df := f']> (store w)
    ∧ scaler_features w' = scaler_features w
    ∧ (∀ name, name ≠ "target" → get_col name f' = get_col name f)
    ∧ get_col "target" f' = Some c' ∧ masked_write mask o c c'.
Proof.
  intros Hf Hc Hr. destruct o as [b|]; simpl.
  - unfold set_target_where in Hr.
    apply bind_inv in Hr as (f0 & w0 & Hf0 & Hr).
    apply read_frame_inv in Hf0 as [Hf0 ->]. rewrite Hf in Hf0. inversion Hf0; subst f0.
    rewrite Hc in Hr. destruct c as [l|y]; [done|].
    unfold write_frame, bind, get, put in Hr. inversion Hr; subst. simpl.
    eexists _, _. split; [done|]. split; [done|]. split.
    + intros name Hn. by apply get_col_set_col_ne.
    + split; [apply get_col_set_col_eq|]. by exists y.
  - inversion Hr; subst. exists f, c. by rewrite insert_id.
Qed.

Lemma time_id_added_cols f f1 name :
  time_id_added f f1 → name ≠ "time_id" → get_col name f1 = get_col name f.
Proof.
  intros [[_ ->]|(_ & ids & _ & ->)] Hn; [done|]. by apply get_col_set_col_ne.
Qed.

Lemma clamp_two_writes lo hi y :
  map (set_where (λ v, flt v lo) lo) (map (set_where (λ v, fgt v hi) hi) y)
  = map (clamp (Some lo) (Some hi)) y.
Proof. by rewrite map_map. Qed.

Lemma run_train_inv_naive self tr w f x y_train w' :
  store w !! tr = Some f → run_train self tr w = (Ok (x, y_train), w') →
  ∃ f1 ff f2 c,
    time_id_added f f1 ∧ feature_frame self f1 = Ok ff
    ∧ scaled_by true (scaler_features w) ff x (scaler_features w')
    ∧ store w' = <[tr := f2]> (store w)
    ∧ (∀ name, name ≠ "target" → get_col name f2 = get_col name f1)
    ∧ get_col "target" f1 = Some c ∧ get_col "target" f2 = Some y_train
    ∧ clamped self c y_train.
Proof.
  intros Hf Hr. unfold run_train in Hr.
  apply bind_inv in Hr as (x0 & w1 & Hrun & Hr).
  destruct (_run_inv self tr true w f x0 w1 Hf Hrun) as (f1 & ff & Hadd & Hst1 & Hff & Hsc).
  apply bind_inv in Hr as (c & w1' & Hc & Hr).
  apply target_values_inv in Hc as (-> & f1' & Hf1 & Hc).
  rewrite Hst1, lookup_insert_eq in Hf1. inversion Hf1; subst f1'.
  apply bind_inv in Hr as ([] & w2 & Hhi & Hr).
  assert (Hl1 : store w1 !! tr = Some f1) by (by rewrite Hst1, lookup_insert_eq).
  destruct (crop_step_inv fgt (crop_high self) tr w1 () w2 f1 c Hl1 Hc Hhi)
    as (f2 & c2 & Hst2 & Hsc2 & Hcols2 & Hc2 & Hm2).
  apply bind_inv in Hr as ([] & w3 & Hlo & Hr).
  assert (Hl2 : store w2 !! tr = Some f2) by (by rewrite Hst2, lookup_insert_eq).
  destruct (crop_step_inv flt (crop_low self) tr w2 () w3 f2 c2 Hl2 Hc2 Hlo)
    as (f3 & c3 & Hst3 & Hsc3 & Hcols3 & Hc3 & Hm3).
  apply bind_inv in Hr as (y & w3' & Hy & Hr).
  apply target_values_inv in Hy as (-> & f3' & Hf3 & Hy).
  rewrite Hst3, lookup_insert_eq in Hf3. inversion Hf3; subst f3'.
  inversion Hr; subst. rewrite Hc3 in Hy. inversion Hy; subst c3.
  exists f1, ff, f3, c. split; [done|]. split; [done|].
  split; [by rewrite Hsc3, Hsc2|].
  split; [by rewrite Hst3, Hst2, Hst1, !insert_insert_eq|].
  split; [intros name Hn; by rewrite Hcols3, Hcols2|].
  split; [done|]. split; [done|].
  unfold clamped, masked_write, clamp in *.
  destruct (crop_high self) as [hi|], (crop_low self) as [lo|].
  - destruct Hm2 as (y0 & -> & ->). destruct Hm3 as (y1 & [= <-] & ->).
    by rewrite map_map.
  - destruct Hm2 as (y0 & -> & ->). by subst.
  - subst c2. destruct Hm3 as (y1 & -> & ->). done.
  - subst. destruct c as [l|y0]; [done|]. by rewrite map_id.
Qed.

Lemma time_id_values_inv df w c w' :
  time_id_values df w = (Ok c, w') → w' = w.
Proof.
  unfold time_id_values. intros Hr.
  apply bind_inv in Hr as (f & w1 & Hf & Hr). apply read_frame_inv in Hf as [Hf ->].
  destruct (get_col "time_id" f); [|done]. by inversion Hr.
Qed.

Lemma run_inv_naive self tr va w ftr fva x_train x_valid t1 t2 y_train y_valid w' :
  store w !! tr = Some ftr → store w !! va = Some fva →
  run self tr va w = (Ok (x_train, x_valid, t1, t2, y_train, y_valid), w') →
  ∃ c ftr' fva',
    get_col "target" ftr = Some c ∧ clamped self c y_train
    ∧ store w' !! tr = Some ftr' ∧ get_col "target" ftr' = Some y_train
    ∧ store w' !! va = Some fva' ∧ get_col "target" fva' = Some y_valid
    ∧ (va ≠ tr → get_col "target" fva = Some y_valid)
    ∧ (va = tr → y_valid = y_train)
    ∧ (∀ l, l ≠ tr → l ≠ va → store w' !! l = store w !! l).
Proof.
  intros Htr Hva Hr. unfold run in Hr.
  apply bind_inv in Hr as ([x0 y0] & w1 & Hrt & Hr).
  destruct (run_train_inv_naive self tr w ftr x0 y0 w1 Htr Hrt)
    as (f1 & ff & f2 & c & Hadd & _ & _ & Hst1 & Hcols & Hc1 & Hc2 & Hcl).
  rewrite (time_id_added_cols ftr f1 "target" Hadd) in Hc1 by done.
  apply bind_inv in Hr as (xv & w2 & Hinf & Hr). unfold run_inference in Hinf.
  assert (Hva1 : ∃ fva1, store w1 !! va = Some fva1
                         ∧ get_col "target" fva1
                           = if decide (va = tr) then Some y0
                             else get_col "target" fva).
  { rewrite Hst1. destruct (decide (va = tr)) as [->|Hne].
    - rewrite lookup_insert_eq. eauto.
    - rewrite lookup_insert_ne by done. eauto. }
  destruct Hva1 as (fva1 & Hva1 & Htv1).
  destruct (_run_inv self va false w1 fva1 xv w2 Hva1 Hinf)
    as (fva2 & _ & Hadd2 & Hst2 & _ & _).
  pose proof (time_id_added_cols fva1 fva2 "target" Hadd2 ltac:(done)) as Htv2.
  apply bind_inv in Hr as (t1' & w3 & Ht1 & Hr). apply time_id_values_inv in Ht1 as ->.
  apply bind_inv in Hr as (t2' & w3 & Ht2 & Hr). apply time_id_values_inv in Ht2 as ->.
  apply bind_inv in Hr as (yv & w3 & Hyv & Hr).
  apply target_values_inv in Hyv as (-> & fv & Hfv & Hyv).
  apply bind_inv in Hr as (yt & w3 & Hyt & Hr).
  apply target_values_inv in Hyt as (-> & ft & Hft & Hyt).
  inversion Hr; subst. clear Hr.
  rewrite Hst2, lookup_insert_eq in Hfv. inversion Hfv; subst fv.
  rewrite Htv2, Htv1 in Hyv.
  assert (Hy0 : y0 = y_train).
  { rewrite Hst2 in Hft. destruct (decide (va = tr)) as [->|Hne].
    - rewrite lookup_insert_eq in Hft. inversion Hft; subst ft.
      rewrite Htv2, Htv1 in Hyt. congruence.
    - rewrite lookup_insert_ne, Hst1, lookup_insert_eq in Hft by done.
      inversion Hft; subst ft. congruence. }
  subst y0. exists c, ft, fva2.
  split; [done|]. split; [done|]. split; [done|]. split; [done|].
  split; [by rewrite Hst2, lookup_insert_eq|].
  split; [by rewrite Htv2, Htv1|].
  split; [intros Hne; by rewrite decide_False in Hyv|].
  split; [intros ->; rewrite decide_True in Hyv by done; congruence|].
  intros l Hl1 Hl2. by rewrite Hst2, lookup_insert_ne, Hst1, lookup_insert_ne.
Qed.

Lemma keeps_target_values df : keeps_scaler (target_values df).
Proof.
  apply keeps_pure. intros w. unfold target_values, read_frame, bind, get, ret, raise.
  destruct (store w !! df) as [f|]; [|done]. by destruct (get_col "target" f).
Qed.

Lemma keeps_time_id_values df : keeps_scaler (time_id_values df).
Proof.
  apply keeps_pure. intros w. unfold time_id_values, read_frame, bind, get, ret, raise.
  destruct (store w !! df) as [f|]; [|done]. by destruct (get_col "time_id" f).
Qed.

(** In [run] the scaler is the one [run_train] leaves. *)
Lemma run_scaler_naive self tr va w res w' :
  run self tr va w = (Ok res, w') →
  ∃ x0 y0 w1, run_train self tr w = (Ok (x0, y0), w1)
              ∧ scaler_features w' = scaler_features w1.
Proof.
  unfold run. intros Hr. apply bind_inv in Hr as ([x0 y0] & w1 & Hrt & Hr).
  exists x0, y0, w1. split; [done|].
  revert Hr. apply keeps_bind; [apply _run_keeps_scaler|]. intros xv.
  apply keeps_bind; [apply keeps_time_id_values|]. intros t1.
  apply keeps_bind; [apply keeps_time_id_values|]. intros t2.
  apply keeps_bind; [apply keeps_target_values|]. intros yv.
  apply keeps_bind; [apply keeps_target_values|]. intros yt. by apply keeps_pure.
Qed.

(** [run] is [run_train] followed by [run_inference]; the reads that
    follow change nothing. *)
Lemma run_steps_naive self tr va w x_train x_valid t1 t2 y_train y_valid w' :
  run self tr va w = (Ok (x_train, x_valid, t1, t2, y_train, y_valid), w') →
  ∃ y0 w1, run_train self tr w = (Ok (x_train, y0), w1)
    ∧ run_inference self va w1 = (Ok x_valid, w').
Proof.
  unfold run. intros Hr. apply bind_inv in Hr as ([x0 y0] & w1 & Hrt & Hr).
  apply bind_inv in Hr as (xv & w2 & Hinf & Hr).
  apply bind_inv in Hr as (t1' & w3 & Ht1 & Hr). apply time_id_values_inv in Ht1 as ->.
  apply bind_inv in Hr as (t2' & w3 & Ht2 & Hr). apply time_id_values_inv in Ht2 as ->.
  apply bind_inv in Hr as (yv & w3 & Hyv & Hr). apply target_values_inv in Hyv as (-> & _).
  apply bind_inv in Hr as (yt & w3 & Hyt & Hr). apply target_values_inv in Hyt as (-> & _).
  inversion Hr; subst. eauto.
Qed.
End naive.

(** ** Clamping *)

Lemma clamp_nan lo hi : clamp lo hi NaN = NaN.
Proof. by destruct lo as [[|?]|], hi as [[|?]|]. Qed.

Lemma clamp_in_interval lo hi v :
  fle lo hi = true → isnan v = false →
  in_interval lo hi (clamp (Some lo) (Some hi) v) = true.
Proof.
  destruct lo as [|a], hi as [|b], v as [|q]; try done. simpl.
  intros Hab _. apply bool_decide_eq_true in Hab.
  unfold clamp, set_where, in_interval, flt, fgt, fle.
  destruct (bool_decide (b < q)%Qc) eqn:E1.
  - rewrite bool_decide_eq_false_2 by (by apply Qcle_not_lt).
    rewrite !bool_decide_eq_true_2; [done|apply Qcle_refl|done].
  - apply bool_decide_eq_false in E1. apply Qcnot_lt_le in E1.
    destruct (bool_decide (q < a)%Qc) eqn:E2.
    + rewrite !bool_decide_eq_true_2; [done|done|apply Qcle_refl].
    + apply bool_decide_eq_false in E2. apply Qcnot_lt_le in E2.
      by rewrite !bool_decide_eq_true_2.
Qed.

Lemma clamp_fillna_in_interval lo hi v :
  fle lo hi = true → in_interval lo hi (clamp (Some lo) (Some hi) (fillna v)) = true.
Proof.
  intros Hle. apply clamp_in_interval; [done|]. by destruct v.
Qed.

(** The order of the two clamps makes no difference unless the lower
    bound is greater than the upper one. *)
Lemma clamp_order lo hi v :
  match lo, hi with Some lo, Some hi => fgt lo hi = false | _, _ => True end →
  clamp lo hi v = clamp_low_first lo hi v.
Proof.
  destruct lo as [[|a]|], hi as [[|b]|], v as [|q]; simpl; intros Hab;
    unfold clamp, clamp_low_first, set_where, flt, fgt; simpl; try done;
    repeat case_bool_decide; try done;
    unfold Qclt, Qcle in *; exfalso; lra.
Qed.

(** ** Target cropping *)

Lemma clamp_all lo hi (l : list float) :
  fle lo hi = true →
  Forall (λ v, in_interval lo hi v = true ∨ isnan v = true)
         (map (clamp (Some lo) (Some hi)) l)
  ∧ (Forall (λ v, isnan v = false) l →
     Forall (λ v, in_interval lo hi v = true) (map (clamp (Some lo) (Some hi)) l)).
Proof.
  intros Hle. split.
  - apply Forall_map, Forall_forall. intros v _.
    destruct (isnan v) eqn:E.
    + right. destruct v; [|done]. by rewrite clamp_nan.
    + left. by apply clamp_in_interval.
  - intros Hl. apply Forall_map. eapply Forall_impl; [|exact Hl].
    intros v Hv. by apply clamp_in_interval.
Qed.

(** C1 (as amended). With crop bounds [lo <= hi], the targets returned
    after cropping are the clamped targets: every value that is not
    missing lies in [lo, hi], and a missing value (NaN) stays missing.
    NaivePreprocessor.run_train never fills missing targets;
    TensorPreprocessor._run_data fills them with 0 before the clamps when
    [fill_na_target] is set, and then every value lies in [lo, hi]. *)
Theorem cropped_targets_within_bounds `{Numpy} lo hi :
  fle lo hi = true →
  (∀ (self : NaivePreprocessor.t) w tr f x y_train w',
     NaivePreprocessor.crop_low self = Some lo →
     NaivePreprocessor.crop_high self = Some hi →
     NaivePreprocessor.store w !! tr = Some f →
     NaivePreprocessor.run_train self tr w = (Ok (x, y_train), w') →
     ∃ y, get_col "target" f = Some (NumCol y)
       ∧ y_train = NumCol (map (clamp (Some lo) (Some hi)) y)
       ∧ Forall (λ v, in_interval lo hi v = true ∨ isnan v = true)
                (map (clamp (Some lo) (Some hi)) y)
       ∧ (Forall (λ v, isnan v = false) y →
          Forall (λ v, in_interval lo hi v = true) (map (clamp (Some lo) (Some hi)) y)))
  ∧ (∀ (self : TensorPreprocessor.t) w ly lx copy x y xa,
       TensorPreprocessor.crop_low self = Some lo →
       TensorPreprocessor.crop_high self = Some hi →
       lx ≠ ly →
       TensorPreprocessor.store w !! lx = Some x →
       TensorPreprocessor.store w !! ly = Some y →
       augmented self x = Ok xa →
       ∃ xr yr w' y',
         TensorPreprocessor._run_data self (ly, lx) copy w = (Ok (xr, yr), w')
         ∧ TensorPreprocessor.deref yr w' = (Ok y', w')
         ∧ y' = nd_map (tensor_target self) y
         ∧ Forall (λ v, in_interval lo hi v = true ∨ isnan v = true) (ravel y')
         ∧ (TensorPreprocessor.fill_na_target self = true →
            Forall (λ v, in_interval lo hi v = true) (ravel y'))).
Proof.
  intros Hle. split.
  - intros self w tr f x y_train w' Hlo Hhi Hf Hr.
    destruct (run_train_inv_naive self tr w f x y_train w' Hf Hr)
      as (f1 & ff & f2 & c & Hadd & _ & _ & _ & _ & Hc & _ & Hcl).
    rewrite (time_id_added_cols f f1 "target" Hadd) in Hc by done.
    unfold clamped in Hcl. rewrite Hlo, Hhi in Hcl.
    destruct c as [l|y]; [by destruct Hcl as (_ & ? & _)|].
    exists y. split; [done|]. split; [done|]. by apply clamp_all.
  - intros self w ly lx copy x y xa Hlo Hhi Hne Hx Hy Ha.
    assert (Hall : Forall (λ v, in_interval lo hi v = true ∨ isnan v = true)
                     (ravel (nd_map (tensor_target self) y))
                   ∧ (TensorPreprocessor.fill_na_target self = true →
                      Forall (λ v, in_interval lo hi v = true)
                             (ravel (nd_map (tensor_target self) y)))).
    { rewrite ravel_nd_map. unfold tensor_target. rewrite Hlo, Hhi. split.
      - apply Forall_map, Forall_forall. intros v _.
        destruct (TensorPreprocessor.fill_na_target self).
        + left. by apply clamp_fillna_in_interval.
        + destruct (isnan v) eqn:E.
          * right. destruct v; [|done]. by rewrite clamp_nan.
          * left. by apply clamp_in_interval.
      - intros ->. apply Forall_map, Forall_forall. intros v _.
        by apply clamp_fillna_in_interval. }
    destruct copy.
    + eexists _, _, _, _. split; [by apply (_run_data_copy self ly lx w x y xa)|].
      split; [reflexivity|]. split; [done|]. exact Hall.
    + destruct (_run_data_nocopy self ly lx w x y xa Hne Hx Hy Ha)
        as (xr & w' & Hrun & _ & Hly & _).
      exists xr, (Caller ly), w', (nd_map (tensor_target self) y).
      split; [done|]. split; [by apply deref_caller|]. split; [done|]. exact Hall.
Qed.

Lemma cropped_targets_within_bounds_witness :
  ∃ x w', NaivePreprocessor.run_train (H := numpy_example) naive_ex 0 (nworld_ex None)
          = (Ok (x, NumCol [of_Z (-1); of_Z 0; of_Z 1]), w').
Proof.
  destruct (NaivePreprocessor.run_train (H := numpy_example) naive_ex 0 (nworld_ex None))
    as [[[x y_train]|e] w'] eqn:E.
  - destruct (proj1 (cropped_targets_within_bounds (H := numpy_example)
                       (of_Z (-1)) (of_Z 1) eq_refl)
                naive_ex (nworld_ex None) 0 frame_ex x y_train w'
                eq_refl eq_refl eq_refl E) as (y & Hy & Hyt & _).
    injection Hy as <-. subst y_train. exists x, w'. reflexivity.
  - by returns E.
Defined.

(** C1 (as stated) fails on a missing target: the clamps compare with NaN,
    which is neither above the upper nor below the lower bound, so NaN
    stays in the returned targets and lies outside [-1, 1].  This is what
    TensorPreprocessor._run_data returns when [fill_na_target] is off, and
    what NaivePreprocessor.run_train returns for a missing target. *)
Lemma crop_leaves_missing_targets :
  fle (of_Z (-1)) (of_Z 1) = true
  ∧ in_interval (of_Z (-1)) (of_Z 1) NaN = false
  ∧ (∃ xr w', TensorPreprocessor._run_data tensor_nofill (0, 1) true (world_ex no_scalers)
              = (Ok (xr, Own (A2 (Nd2 (2, 2) [[of_Z 1; NaN]; [of_Z (-1); of_Z 0]]))), w'))
  ∧ (∃ x w', NaivePreprocessor.run_train (H := numpy_example) naive_ex 0
               (NaivePreprocessor.mkWorld (<[0 := frame_nan]> ∅) None)
             = (Ok (x, NumCol [NaN]), w')).
Proof.
  split; [reflexivity|]. split; [reflexivity|]. split.
  - eexists _, _. vm_compute. reflexivity.
  - eexists _, _. vm_compute. reflexivity.
Qed.

(** ** The feature count of TensorPreprocessor *)

Section feature_count.
Context `{Numpy}.
Import TensorPreprocessor.

Lemma augmented_shape self x xa :
  wf3 x → augmented self (A3 x) = Ok xa →
  nd_shape xa = [(shape3 x).1.1; (shape3 x).1.2;
                 (shape3 x).2 + 2 * length (time_id_features_idx self)]
  ∧ wf xa.
Proof.
  intros Hwf. unfold augmented.
  destruct (decide (length (time_id_features_idx self) = 0)) as [Hk|Hk].
  - intros [= <-]. simpl. rewrite Hk. split; [do 3 f_equal; lia|done].
  - destruct (mapM (norm_index (shape3 x).2) (time_id_features_idx self))
      as [cols|e] eqn:Hcols.
    + destruct (time_features_spec _ x cols Hwf Hcols) as [-> Hwf'].
      intros [= <-]. done.
    + unfold time_features. by rewrite Hcols.
Qed.

Lemma ts_fit_no_scalers features targets w :
  TimeSeriesTensorScaler.scaler_features (ts_scaler w) = None →
  TimeSeriesTensorScaler.scaler_targets (ts_scaler w) = None →
  ts_fit features targets w = (Ok (), w).
Proof.
  intros Hf Ht. unfold ts_fit, with_scaler, TimeSeriesTensorScaler.fit, bind, get, ret.
  simpl. rewrite Hf. simpl. rewrite Ht. simpl. by rewrite world_eta.
Qed.

Lemma transform_no_scalers ts features targets :
  TimeSeriesTensorScaler.scaler_features ts = None →
  TimeSeriesTensorScaler.scaler_targets ts = None →
  TimeSeriesTensorScaler.transform ts features targets = Ok (features, targets).
Proof.
  intros Hf Ht. unfold TimeSeriesTensorScaler.transform,
    TimeSeriesTensorScaler.transform_features, TimeSeriesTensorScaler.transform_targets.
  by rewrite Hf, Ht.
Qed.

Lemma run_train_no_scalers self ly lx w x y xa :
  lx ≠ ly → store w !! lx = Some x → store w !! ly = Some y →
  augmented self x = Ok xa →
  TimeSeriesTensorScaler.scaler_features (ts_scaler w) = None →
  TimeSeriesTensorScaler.scaler_targets (ts_scaler w) = None →
  ∃ w', run_train self (ly, lx) w
        = (Ok (nd_map fillna xa, nd_map (tensor_target self) y), w').
Proof.
  intros Hne Hx Hy Ha Hsf Hst.
  destruct (_run_data_nocopy self ly lx w x y xa Hne Hx Hy Ha)
    as (xr & w1 & Hrun & Hdx & Hly & _ & _ & _ & Hts).
  exists w1. unfold run_train.
  rewrite (bind_ok _ _ _ _ _ Hrun), (bind_ok _ _ _ _ _ Hdx).
  rewrite (bind_ok _ _ _ _ _ (deref_caller w1 ly _ Hly)).
  rewrite (bind_ok _ _ _ _ _ (ts_fit_no_scalers _ _ w1 ltac:(by rewrite Hts)
                                ltac:(by rewrite Hts))).
  unfold bind. rewrite ts_transform_spec.
  rewrite transform_no_scalers by (by rewrite Hts). done.
Qed.

(** The feature count after [run_train]. *)
Lemma run_train_shape self ly lx w x y x' y' w' :
  lx ≠ ly → wf3 x →
  store w !! lx = Some (A3 x) → store w !! ly = Some y →
  run_train self (ly, lx) w = (Ok (x', y'), w') →
  nd_shape x' = [(shape3 x).1.1; (shape3 x).1.2;
                 (shape3 x).2 + 2 * length (time_id_features_idx self)]
  ∧ wf x'.
Proof.
  intros Hne Hwf Hx Hy Hr.
  destruct (run_train_inv self ly lx w (A3 x) y (x', y') w' Hne Hx Hy Hr)
    as (xa & Ha & Htr & _).
  apply transform_keeps in Htr as [Htr _].
  apply transform_features_keeps in Htr as [Hs Hw].
  destruct (augmented_shape self x xa Hwf Ha) as [Hsa Hwa].
  rewrite Hs, nd_map_shape. split; [done|]. by apply Hw, nd_map_wf.
Qed.
End feature_count.

(** C6. With [k] configured time-feature indices, the feature tensor that
    [run] and [run_train] return for an input of shape (N, T, F) has shape
    (N, T, F + 2k): [_add_time_features] appends to the features of every
    sample and time step the mean and then the standard deviation, over the
    samples and ignoring missing values, of each selected column at that
    time step; the NaN fill and the scaler keep the shape.  The calls
    return, for instance, whenever the indices are column indices of the
    tensor and no scaler is configured. *)
Theorem time_features_widen_the_tensor `{Numpy} (self : TensorPreprocessor.t) :
  let idx := TensorPreprocessor.time_id_features_idx self in
  (∀ x cols,
     wf3 x → idx ≠ [] → mapM (norm_index (shape3 x).2) idx = Ok cols →
     augmented self (A3 x)
     = Ok (A3 (Nd3 ((shape3 x).1.1, (shape3 x).1.2, (shape3 x).2 + 2 * length idx)
                   (map (imap (λ t row,
                           (row ++ map (λ j, nanmean (across_samples x t j)) cols)
                           ++ map (λ j, nanstd (across_samples x t j)) cols))
                        (data3 x)))))
  ∧ (∀ ly lx w x y x' y' w',
       lx ≠ ly → wf3 x →
       TensorPreprocessor.store w !! lx = Some (A3 x) →
       TensorPreprocessor.store w !! ly = Some y →
       TensorPreprocessor.run_train self (ly, lx) w = (Ok (x', y'), w') →
       nd_shape x' = [(shape3 x).1.1; (shape3 x).1.2; (shape3 x).2 + 2 * length idx]
       ∧ wf x')
  ∧ (∀ lyt lxt lyv lxv w xt yt xv yv x_train x_valid t1 t2 y_train y_valid w',
       wf3 xt → wf3 xv →
       TensorPreprocessor.store w !! lxt = Some (A3 xt) →
       TensorPreprocessor.store w !! lyt = Some yt →
       TensorPreprocessor.store w !! lxv = Some (A3 xv) →
       TensorPreprocessor.store w !! lyv = Some yv →
       TensorPreprocessor.run self (lyt, lxt) (lyv, lxv) w
       = (Ok (x_train, x_valid, t1, t2, y_train, y_valid), w') →
       nd_shape x_train
       = [(shape3 xt).1.1; (shape3 xt).1.2; (shape3 xt).2 + 2 * length idx]
       ∧ wf x_train
       ∧ nd_shape x_valid
         = [(shape3 xv).1.1; (shape3 xv).1.2; (shape3 xv).2 + 2 * length idx]
       ∧ wf x_valid)
  ∧ (∀ ly lx w x y,
       lx ≠ ly → wf3 x →
       TensorPreprocessor.store w !! lx = Some (A3 x) →
       TensorPreprocessor.store w !! ly = Some y →
       Forall (λ j, (- Z.of_nat (shape3 x).2 ≤ j < Z.of_nat (shape3 x).2)%Z) idx →
       TimeSeriesTensorScaler.scaler_features (TensorPreprocessor.ts_scaler w) = None →
       TimeSeriesTensorScaler.scaler_targets (TensorPreprocessor.ts_scaler w) = None →
       ∃ x' y' w', TensorPreprocessor.run_train self (ly, lx) w = (Ok (x', y'), w')).
Proof.
  simpl. split; [|split; [|split]].
  - intros x cols Hwf Hidx Hcols. unfold augmented.
    rewrite decide_False by (by destruct (TensorPreprocessor.time_id_features_idx self)).
    by destruct (time_features_spec _ x cols Hwf Hcols) as [-> _].
  - intros ly lx w x y x' y' w' Hne Hwf Hx Hy Hr.
    by apply (run_train_shape self ly lx w x y x' y' w').
  - intros lyt lxt lyv lxv w xt yt xv yv x_train x_valid t1 t2 y_train y_valid w'
      Hwt Hwv Hxt Hyt Hxv Hyv Hr.
    destruct (run_inv self lyt lxt lyv lxv w (A3 xt) yt (A3 xv) yv _ w'
                Hxt Hyt Hxv Hyv Hr)
      as (xat & xav & x1 & y1 & x2 & y2 & Hat & Hav & E1 & E2 & _ & _ & Htt & Htv & _).
    simpl in E1, E2. subst x1 x2.
    apply transform_keeps in Htt as [Htt _]. apply transform_keeps in Htv as [Htv _].
    apply transform_features_keeps in Htt as [Hst Hwt'].
    apply transform_features_keeps in Htv as [Hsv Hwv'].
    destruct (augmented_shape self xt xat Hwt Hat) as [Hsat Hwat].
    destruct (augmented_shape self xv xav Hwv Hav) as [Hsav Hwav].
    rewrite Hst, Hsv, !nd_map_shape.
    split; [done|]. split; [by apply Hwt', nd_map_wf|].
    split; [done|]. by apply Hwv', nd_map_wf.
  - intros ly lx w x y Hne Hwf Hx Hy Hidx Hsf Hst.
    assert (Ha : ∃ xa, augmented self (A3 x) = Ok xa).
    { unfold augmented. destruct (decide _); [eauto|].
      destruct (mapM_norm_index_ok _ _ Hidx) as [cols Hcols].
      destruct (time_features_spec _ x cols Hwf Hcols) as [-> _]. eauto. }
    destruct Ha as [xa Ha].
    destruct (run_train_no_scalers self ly lx w (A3 x) y xa Hne Hx Hy Ha Hsf Hst)
      as [w' Hr].
    eauto.
Qed.

Lemma x_ex3_wf : wf3 x_ex3.
Proof. split; [reflexivity|]. repeat constructor. Qed.

Lemma time_features_widen_the_tensor_witness :
  ∃ x' y' w',
    TensorPreprocessor.run_train tensor_fill (0, 1) (world_ex minmax_scalers)
    = (Ok (x', y'), w')
    ∧ nd_shape x' = [2; 2; 3].
Proof.
  destruct (TensorPreprocessor.run_train tensor_fill (0, 1) (world_ex minmax_scalers))
    as [[[x' y']|e] w'] eqn:E.
  - exists x', y', w'. split; [reflexivity|].
    exact (proj1 (proj1 (proj2 (time_features_widen_the_tensor tensor_fill))
                    0 1 (world_ex minmax_scalers) x_ex3 y_ex x' y' w'
                    ltac:(done) x_ex3_wf eq_refl eq_refl E)).
  - by returns E.
Defined.

(** C10. [run_inference] appends no time features: for an input of shape
    (N, T, F) the tensor it returns has shape (N, T, F), whatever indices
    are configured: it is the zero-filled input under the fitted feature
    transform (the zero-filled input itself when no feature scaler is
    configured), whereas [run_train] returns F + 2k features. *)
Theorem run_inference_adds_no_time_features `{Numpy}
    (self : TensorPreprocessor.t) lx w x :
  TensorPreprocessor.store w !! lx = Some (A3 x) → wf3 x →
  (∀ x' w',
     TensorPreprocessor.run_inference self lx w = (Ok x', w') →
     nd_shape x' = [(shape3 x).1.1; (shape3 x).1.2; (shape3 x).2] ∧ wf x'
     ∧ TimeSeriesTensorScaler.transform_features (TensorPreprocessor.ts_scaler w)
         (nd_map fillna (A3 x)) = Ok x')
  ∧ (TimeSeriesTensorScaler.scaler_features (TensorPreprocessor.ts_scaler w) = None →
     ∃ w', TensorPreprocessor.run_inference self lx w = (Ok (nd_map fillna (A3 x)), w'))
  ∧ (∀ ly y x' y' w',
       lx ≠ ly → TensorPreprocessor.store w !! ly = Some y →
       TensorPreprocessor.run_train self (ly, lx) w = (Ok (x', y'), w') →
       nd_shape x'
       = [(shape3 x).1.1; (shape3 x).1.2;
          (shape3 x).2 + 2 * length (TensorPreprocessor.time_id_features_idx self)]).
Proof.
  intros Hx Hwf. split; [|split].
  - intros x' w' Hr. rewrite (run_inference_spec self lx w (A3 x) Hx) in Hr.
    inversion Hr as [[Htr Hw]].
    destruct (transform_features_keeps _ _ _ Htr) as [Hs Hw'].
    rewrite Hs. split; [done|]. split; [|done].
    apply Hw'. by apply (nd_map_wf fillna (A3 x)).
  - intros Hsf. rewrite (run_inference_spec self lx w (A3 x) Hx).
    unfold TimeSeriesTensorScaler.transform_features. rewrite Hsf. eauto.
  - intros ly y x' y' w' Hne Hy Hr.
    by destruct (run_train_shape self ly lx w x y x' y' w' Hne Hwf Hx Hy Hr).
Qed.

Lemma run_inference_adds_no_time_features_witness :
  ∃ x' w',
    TensorPreprocessor.run_inference tensor_fill 1 (world_ex no_scalers) = (Ok x', w')
    ∧ nd_shape x' = [2; 2; 1].
Proof.
  destruct (TensorPreprocessor.run_inference tensor_fill 1 (world_ex no_scalers))
    as [[x'|e] w'] eqn:E.
  - exists x', w'. split; [reflexivity|].
    exact (proj1 (proj1 (run_inference_adds_no_time_features tensor_fill 1
                           (world_ex no_scalers) x_ex3 eq_refl x_ex3_wf) x' w' E)).
  - by returns E.
Defined.

(** ** Which state the methods change *)

(** C7 (as amended). [TensorPreprocessor.run] works on copies and leaves
    the arrays of the caller as they are.  [TensorPreprocessor.run_train]
    ([_run_data] without the copy) writes into them: afterwards the target
    array holds the filled and clamped targets, and the feature tensor is
    zero-filled in place when no time features are configured and
    unmodified otherwise.  [NaivePreprocessor._run] adds a [time_id] column
    to the frame of the caller when it has none, and
    [NaivePreprocessor.run_train], hence [run], leaves the clamped targets
    in the target column of the training frame; the other columns, frames
    and arrays are unmodified.  Besides these writes a call changes what
    [fit] changes and nothing else: the scaler objects and, through
    [np.random.choice] when a sample size is configured, the random
    generator.  [_run_data] changes neither of them, and without a sample
    size [fit] leaves the generator alone. *)
Theorem caller_data_after_the_calls `{Numpy} :
  (∀ (self : TensorPreprocessor.t) lyt lxt lyv lxv w xt yt xv yv res w',
     TensorPreprocessor.store w !! lxt = Some xt →
     TensorPreprocessor.store w !! lyt = Some yt →
     TensorPreprocessor.store w !! lxv = Some xv →
     TensorPreprocessor.store w !! lyv = Some yv →
     TensorPreprocessor.run self (lyt, lxt) (lyv, lxv) w = (Ok res, w') →
     TensorPreprocessor.store w' = TensorPreprocessor.store w
     ∧ ∃ xat u, augmented self xt = Ok xat
         ∧ TensorPreprocessor.ts_fit
             (nd_map fillna xat) (nd_map (tensor_target self) yt) w = (Ok u, w'))
  ∧ (∀ (self : TensorPreprocessor.t) ly lx w x y res w',
       lx ≠ ly →
       TensorPreprocessor.store w !! lx = Some x →
       TensorPreprocessor.store w !! ly = Some y →
       TensorPreprocessor.run_train self (ly, lx) w = (Ok res, w') →
       TensorPreprocessor.store w' !! ly = Some (nd_map (tensor_target self) y)
       ∧ TensorPreprocessor.store w' !! lx
         = Some (if decide (length (TensorPreprocessor.time_id_features_idx self) = 0)
                 then nd_map fillna x else x)
       ∧ (∀ l, l ≠ lx → l ≠ ly →
               TensorPreprocessor.store w' !! l = TensorPreprocessor.store w !! l)
       ∧ ∃ xa u, augmented self x = Ok xa
           ∧ TensorPreprocessor.ts_fit
               (nd_map fillna xa) (nd_map (tensor_target self) y) w
             = (Ok u, TensorPreprocessor.mkWorld (TensorPreprocessor.store w)
                        (TensorPreprocessor.rng w') (TensorPreprocessor.ts_scaler w')))
  ∧ (∀ (self : TensorPreprocessor.t) ly lx copy w x y r w',
       lx ≠ ly →
       TensorPreprocessor.store w !! lx = Some x →
       TensorPreprocessor.store w !! ly = Some y →
       TensorPreprocessor._run_data self (ly, lx) copy w = (r, w') →
       TensorPreprocessor.rng w' = TensorPreprocessor.rng w
       ∧ TensorPreprocessor.ts_scaler w' = TensorPreprocessor.ts_scaler w
       ∧ (copy = true → TensorPreprocessor.store w' = TensorPreprocessor.store w))
  ∧ (∀ features targets w r w',
       TensorPreprocessor.ts_fit features targets w = (r, w') →
       TensorPreprocessor.store w' = TensorPreprocessor.store w
       ∧ (TimeSeriesTensorScaler.scaler_fit_sample (TensorPreprocessor.ts_scaler w) = None →
          TensorPreprocessor.rng w' = TensorPreprocessor.rng w))
  ∧ (∀ (self : NaivePreprocessor.t) df fit w f r w',
       NaivePreprocessor.store w !! df = Some f →
       NaivePreprocessor._run self df fit w = (Ok r, w') →
       ∃ f1 ff, time_id_added f f1
         ∧ NaivePreprocessor.store w' = <[df := f1]> (NaivePreprocessor.store w)
         ∧ NaivePreprocessor.feature_frame self f1 = Ok ff
         ∧ scaled_by fit (NaivePreprocessor.scaler_features w) ff r
             (NaivePreprocessor.scaler_features w'))
  ∧ (∀ (self : NaivePreprocessor.t) tr w f x y_train w',
       NaivePreprocessor.store w !! tr = Some f →
       NaivePreprocessor.run_train self tr w = (Ok (x, y_train), w') →
       ∃ f1 f2 c,
         time_id_added f f1
         ∧ NaivePreprocessor.store w' = <[tr := f2]> (NaivePreprocessor.store w)
         ∧ get_col "target" f = Some c ∧ clamped self c y_train
         ∧ get_col "target" f2 = Some y_train
         ∧ get_col "time_id" f2 = get_col "time_id" f1
         ∧ ∀ name, name ≠ "target" → name ≠ "time_id" →
                   get_col name f2 = get_col name f)
  ∧ (∀ (self : NaivePreprocessor.t) tr va w ftr fva
         x_train x_valid t1 t2 y_train y_valid w',
       NaivePreprocessor.store w !! tr = Some ftr →
       NaivePreprocessor.store w !! va = Some fva →
       NaivePreprocessor.run self tr va w
       = (Ok (x_train, x_valid, t1, t2, y_train, y_valid), w') →
       (∃ y0 w1, NaivePreprocessor.run_train self tr w = (Ok (x_train, y0), w1)
                 ∧ NaivePreprocessor._run self va false w1 = (Ok x_valid, w'))
       ∧ (∃ ftr', NaivePreprocessor.store w' !! tr = Some ftr'
                  ∧ get_col "target" ftr' = Some y_train)
       ∧ (va ≠ tr → ∃ fva', time_id_added fva fva'
                            ∧ NaivePreprocessor.store w' !! va = Some fva')
       ∧ ∀ l, l ≠ tr → l ≠ va →
              NaivePreprocessor.store w' !! l = NaivePreprocessor.store w !! l).
Proof.
  split; [|split; [|split; [|split; [|split; [|split]]]]].
  - intros self lyt lxt lyv lxv w xt yt xv yv res w' Hxt Hyt Hxv Hyv Hr.
    destruct res as [[[[[x_train x_valid] t1] t2] y_train] y_valid].
    destruct (run_steps self lyt lxt lyv lxv w xt yt xv yv
                x_train x_valid t1 t2 y_train y_valid w' Hxt Hyt Hxv Hyv Hr)
      as (xat & xav & u & Hat & _ & Hfit & _).
    split; [exact (proj1 (ts_fit_spec _ _ _ _ _ Hfit))|eauto].
  - intros self ly lx w x y res w' Hne Hx Hy Hr.
    destruct (run_train_inv self ly lx w x y res w' Hne Hx Hy Hr)
      as (xa & _ & _ & _ & Hly & Hlx & Hother).
    destruct (run_train_steps self ly lx w x y res w' Hne Hx Hy Hr)
      as (xa' & u & Ha & Hfit & _).
    split; [done|]. split; [done|]. split; [done|]. eauto.
  - intros self ly lx copy w x y r w' Hne Hx Hy Hr.
    exact (_run_data_keeps_scalers self ly lx copy w x y r w' Hne Hx Hy Hr).
  - intros features targets w r w' Hr. split.
    + exact (proj1 (ts_fit_spec _ _ _ _ _ Hr)).
    + intros Hs. exact (ts_fit_keeps_rng _ _ _ _ _ Hs Hr).
  - intros self df fit w f r w' Hf Hr.
    exact (_run_inv self df fit w f r w' Hf Hr).
  - intros self tr w f x y_train w' Hf Hr.
    destruct (run_train_inv_naive self tr w f x y_train w' Hf Hr)
      as (f1 & ff & f2 & c & Hadd & _ & _ & Hst & Hcols & Hc & Hc2 & Hcl).
    exists f1, f2, c. split; [done|]. split; [done|].
    split; [by rewrite <- (time_id_added_cols f f1 "target" Hadd)|].
    split; [done|]. split; [done|]. split; [by apply Hcols|].
    intros name Hn1 Hn2. rewrite Hcols by done. by apply time_id_added_cols.
  - intros self tr va w ftr fva x_train x_valid t1 t2 y_train y_valid w' Htr Hva Hr.
    destruct (run_steps_naive self tr va w x_train x_valid t1 t2 y_train y_valid w' Hr)
      as (y0 & w1 & Hrt & Hinf).
    destruct (run_inv_naive self tr va w ftr fva x_train x_valid t1 t2 y_train y_valid w'
                Htr Hva Hr)
      as (c & ftr' & fva' & _ & _ & Hl & Ht & _ & _ & _ & _ & Hother).
    split; [eauto|]. split; [eauto|]. split; [|done].
    intros Hne.
    destruct (run_train_inv_naive self tr w ftr x_train y0 w1 Htr Hrt)
      as (f1 & ff & f2 & c' & _ & _ & _ & Hst1 & _).
    assert (Hva1 : NaivePreprocessor.store w1 !! va = Some fva)
      by (by rewrite Hst1, lookup_insert_ne).
    destruct (_run_inv self va false w1 fva x_valid w' Hva1 Hinf)
      as (fv1 & _ & Hadd & Hst2 & _).
    exists fv1. split; [done|]. by rewrite Hst2, lookup_insert_eq.
Qed.

Lemma caller_data_after_the_calls_witness :
  ∃ res w',
    TensorPreprocessor.run tensor_fill (0, 1) (0, 1) (world_ex minmax_scalers)
    = (Ok res, w')
    ∧ TensorPreprocessor.store w' = store_ex.
Proof.
  destruct (TensorPreprocessor.run tensor_fill (0, 1) (0, 1) (world_ex minmax_scalers))
    as [[res|e] w'] eqn:E.
  - exists res, w'. split; [reflexivity|].
    exact (proj1 (proj1 caller_data_after_the_calls tensor_fill 0 1 0 1
                    (world_ex minmax_scalers) x_ex y_ex x_ex y_ex res w'
                    eq_refl eq_refl eq_refl eq_refl E)).
  - by returns E.
Defined.

(** C7 (as stated) fails: [TensorPreprocessor.run_train] overwrites the
    target array of the caller with the zero-filled and clamped targets. *)
Lemma run_train_overwrites_targets :
  ∃ res w',
    TensorPreprocessor.run_train tensor_fill (0, 1) (world_ex no_scalers) = (Ok res, w')
    ∧ TensorPreprocessor.store (world_ex no_scalers) !! 0
      = Some (A2 (Nd2 (2, 2) [[of_Z 5; NaN]; [of_Z (-5); of_Z 0]]))
    ∧ TensorPreprocessor.store w' !! 0
      = Some (A2 (Nd2 (2, 2) [[of_Z 1; of_Z 0]; [of_Z (-1); of_Z 0]]))
    ∧ TensorPreprocessor.store w' !! 0 ≠ TensorPreprocessor.store (world_ex no_scalers) !! 0.
Proof.
  eexists _, _. split; [vm_compute; reflexivity|].
  split; [reflexivity|]. split; [vm_compute; reflexivity|].
  apply (bool_decide_eq_false_1 _). vm_compute. reflexivity.
Qed.

(** With a sample size the generator does not stay as it is: on a numpy
    that counts its draws, [run] with [scaler_fit_sample=2] and both
    scalers draws twice, once for the feature rows and once for the
    targets. *)
Lemma fit_with_a_sample_draws :
  succeeded (TensorPreprocessor.run tensor_fill (0, 1) (0, 1) world_sampling).1 = true
  ∧ TensorPreprocessor.rng world_sampling = 0
  ∧ TensorPreprocessor.rng
      (TensorPreprocessor.run tensor_fill (0, 1) (0, 1) world_sampling).2 = 2.
Proof. split; [|split]; vm_compute; reflexivity. Qed.

(** ** When the scalers are fitted *)




(** ** The targets NaivePreprocessor.run returns *)

(** C8 (as amended). [NaivePreprocessor.run] returns as [y_train] the
    clamped target column of the training frame, and as [y_valid] the
    target column of the validation frame as it is when the validation
    frame is another object than the training frame; when the same frame
    is passed for both, [y_valid] is the clamped column.  The clamp is
    elementwise, the upper bound first, and the order of the two clamps
    makes no difference unless [crop_low > crop_high]. *)
Theorem valid_targets_are_not_clamped `{Numpy} (self : NaivePreprocessor.t)
    tr va w ftr fva x_train x_valid t1 t2 y_train y_valid w' :
  NaivePreprocessor.store w !! tr = Some ftr →
  NaivePreprocessor.store w !! va = Some fva →
  NaivePreprocessor.run self tr va w
  = (Ok (x_train, x_valid, t1, t2, y_train, y_valid), w') →
  (va ≠ tr → get_col "target" fva = Some y_valid)
  ∧ (va = tr → y_valid = y_train)
  ∧ (∃ c, get_col "target" ftr = Some c ∧ clamped self c y_train)
  ∧ (∀ v, clamp (NaivePreprocessor.crop_low self) (NaivePreprocessor.crop_high self) v
          = (match NaivePreprocessor.crop_low self with
             | Some lo => set_where (λ v, flt v lo) lo
             | None => λ v, v
             end)
              ((match NaivePreprocessor.crop_high self with
                | Some hi => set_where (λ v, fgt v hi) hi
                | None => λ v, v
                end) v))
  ∧ (match NaivePreprocessor.crop_low self, NaivePreprocessor.crop_high self with
     | Some lo, Some hi => fgt lo hi = false
     | _, _ => True
     end →
     ∀ v, clamp (NaivePreprocessor.crop_low self) (NaivePreprocessor.crop_high self) v
          = clamp_low_first (NaivePreprocessor.crop_low self)
              (NaivePreprocessor.crop_high self) v).
Proof.
  intros Htr Hva Hr.
  destruct (run_inv_naive self tr va w ftr fva x_train x_valid t1 t2 y_train y_valid w'
              Htr Hva Hr)
    as (c & ftr' & fva' & Hc & Hcl & _ & _ & _ & _ & Hne & Heq & _).
  split; [done|]. split; [done|]. split; [eauto|]. split.
  - intros v. unfold clamp.
    by destruct (NaivePreprocessor.crop_low self), (NaivePreprocessor.crop_high self).
  - intros Hord v. by apply clamp_order.
Qed.

Lemma valid_targets_are_not_clamped_witness :
  ∃ x_train x_valid t1 t2 w',
    NaivePreprocessor.run (H := numpy_example) naive_ex 0 1 (nworld_two None)
    = (Ok (x_train, x_valid, t1, t2,
           NumCol [of_Z (-1); of_Z 0; of_Z 1], NumCol [of_Z 7; of_Z (-7)]), w').
Proof.
  destruct (NaivePreprocessor.run (H := numpy_example) naive_ex 0 1 (nworld_two None))
    as [[[[[[[x_train x_valid] t1] t2] y_train] y_valid]|e] w'] eqn:E.
  - destruct (valid_targets_are_not_clamped (H := numpy_example) naive_ex 0 1
                (nworld_two None) frame_ex frame_valid
                x_train x_valid t1 t2 y_train y_valid w' eq_refl eq_refl E)
      as (Hv & _ & (c & Hc & Hcl) & _).
    specialize (Hv ltac:(done)). injection Hv as <-. injection Hc as <-.
    simpl in Hcl. subst y_train. exists x_train, x_valid, t1, t2, w'. reflexivity.
  - by returns E.
Defined.

(** C8 (as stated) fails when the training frame is passed as the
    validation frame as well: [run_train] clamps the target column of the
    frame in place, and [y_valid] is read from it afterwards. *)
Lemma run_on_one_frame_returns_clamped_valid_targets :
  ∃ x_train x_valid t1 t2 w',
    NaivePreprocessor.run (H := numpy_example) naive_ex 0 0 (nworld_ex None)
    = (Ok (x_train, x_valid, t1, t2,
           NumCol [of_Z (-1); of_Z 0; of_Z 1], NumCol [of_Z (-1); of_Z 0; of_Z 1]), w')
    ∧ get_col "target" frame_ex = Some (NumCol [of_Z (-5); of_Z 0; of_Z 5])
    ∧ NumCol [of_Z (-1); of_Z 0; of_Z 1] ≠ NumCol [of_Z (-5); of_Z 0; of_Z 5].
Proof.
  eexists _, _, _, _, _. split; [vm_compute; reflexivity|].
  split; [reflexivity|].
  apply (bool_decide_eq_false_1 _). vm_compute. reflexivity.
Qed.

Lemma transpose2_row T row :
  length row = T → transpose2 (Nd2 (1, T) [row]) = col_of row.
Proof.
  intros <-. unfold transpose2, col_of. simpl. f_equal.
  induction row as [|v row IH] using rev_ind; [done|].
  rewrite length_app. simpl. rewrite Nat.add_1_r, seq_S, !List.map_app. simpl.
  rewrite lookup_app_r by lia. rewrite Nat.sub_diag. simpl. f_equal.
  rewrite <- IH. apply map_ext_in. intros j Hj. apply in_seq in Hj.
  by rewrite lookup_app_l by lia.
Qed.

Lemma transpose2_col_of l : transpose2 (col_of l) = Nd2 (1, length l) [l].
Proof.
  unfold transpose2, col_of. simpl. do 2 f_equal. rewrite map_map. simpl. apply map_id.
Qed.

Lemma scale_target_row_linear ft a b T row :
  linear_scaler ft a b → length row = T → 0 < T →
  scale_target_row ft T row = Ok (map (faffine a b) row).
Proof.
  intros [_ Hlin] Hl HT. unfold scale_target_row.
  rewrite (transpose2_row T row Hl).
  destruct (Hlin row) as [-> _]; [by destruct row; simpl in *; [lia|]|]. simpl.
  rewrite transpose2_col_of, length_map, Hl.
  rewrite broadcast2_id; [done| |done].
  split; [done|]. repeat constructor. simpl. by rewrite length_map.
Qed.

(** ** TimeSeriesTensorScaler: shapes, and targets of several time steps *)

(** X1. [TimeSeriesTensorScaler.transform] keeps the shapes: whenever it
    returns, the scaled features and targets have the shapes of the
    features and targets it was given (a scaler result is broadcast into
    the slot of its sample), and well-formed arrays stay well formed. *)
Theorem transform_keeps_shapes self x y x' y' :
  wf x → wf y →
  TimeSeriesTensorScaler.transform self x y = Ok (x', y') →
  nd_shape x' = nd_shape x ∧ nd_shape y' = nd_shape y ∧ wf x' ∧ wf y'.
Proof.
  intros Hx Hy Hr. apply transform_keeps in Hr as [Hfx Hfy].
  apply transform_features_keeps in Hfx as [Hsx Hwx].
  apply transform_targets_keeps in Hfy as [Hsy Hwy].
  split; [exact Hsx|]. split; [exact Hsy|]. split; [exact (Hwx Hx)|exact (Hwy Hy)].
Qed.

Lemma transform_keeps_shapes_witness :
  ∃ x' y', TimeSeriesTensorScaler.transform flip_scaler (A3 x_210) (A2 y_12) = Ok (x', y')
    ∧ nd_shape x' = [2; 1; 1] ∧ nd_shape y' = [1; 2].
Proof.
  exists (A3 x_210), (A2 y_12_flipped). split; [reflexivity|].
  destruct (transform_keeps_shapes flip_scaler (A3 x_210) (A2 y_12)
              (A3 x_210) (A2 y_12_flipped)) as (Hx & Hy & _).
  - split; [reflexivity|]. repeat constructor.
  - split; [reflexivity|]. repeat constructor.
  - reflexivity.
  - split; [exact Hx|exact Hy].
Defined.

(** X2. With a fitted linear target scaler [v * a + b], [transform]
    scales targets of shape (N, T) with T >= 1 element by element, and
    [inverse_transform] of the scaled targets flattened to one dimension
    gives the flattened targets back ([inverse_transform] refuses the
    (N, T) array itself unless T = 1). *)
Theorem linear_scaler_scales_every_target self st ft a b x x' y :
  TimeSeriesTensorScaler.scaler_targets self = Some st → sk_fitted st = Some ft →
  linear_scaler ft a b →
  TimeSeriesTensorScaler.transform_features self x = Ok x' →
  wf2 y → 0 < (shape2 y).1 → 0 < (shape2 y).2 →
  let y' := A2 (Nd2 (shape2 y) (map (map (faffine a b)) (data2 y))) in
  TimeSeriesTensorScaler.transform self x (A2 y) = Ok (x', y')
  ∧ TimeSeriesTensorScaler.inverse_transform self (A1 (ravel y')) = Ok (A1 (ravel (A2 y)))
  ∧ (1 < (shape2 y).2 →
     TimeSeriesTensorScaler.inverse_transform self y' = Raise AssertionError).
Proof.
  intros Hst Hft Hlin Hx [Hl Hr] HN HT. simpl. split; [|split].
  - unfold TimeSeriesTensorScaler.transform. rewrite Hx. simpl.
    rewrite (transform_targets_rows self st ft y Hst Hft Hl).
    rewrite (mapM_all_ok _ (map (faffine a b))); [done|].
    eapply Forall_impl; [|exact Hr]. intros row Hrow. simpl in *.
    by apply scale_target_row_linear.
  - rewrite (inverse_transform_vector self st ft a b Hst Hft Hlin).
    + f_equal. f_equal. rewrite concat_map_map, map_map.
      apply map_id_on, Forall_forall. intros v _.
      apply faffine_inv_faffine, Hlin.
    + intros E. apply (f_equal length) in E.
      rewrite (length_concat_rows (shape2 y).2) in E.
      * rewrite length_map in E. simpl in E. nia.
      * apply Forall_map. eapply Forall_impl; [|exact Hr].
        intros row Hrow. simpl in *. by rewrite length_map.
  - intros HT1. unfold TimeSeriesTensorScaler.inverse_transform. simpl.
    rewrite decide_False; [done|]. intros [H1|H1]; [done|]. inversion H1. lia.
Qed.

Lemma linear_scaler_scales_every_target_witness :
  ∃ y', TimeSeriesTensorScaler.transform minmax_targets (A3 x_210) (A2 y_12)
        = Ok (A3 x_210, y')
    ∧ TimeSeriesTensorScaler.inverse_transform minmax_targets (A1 (ravel y'))
      = Ok (A1 [of_Z 1; of_Z 2]).
Proof.
  destruct minmax_fitted_scaler_linear as (ft & a & b & Hft & Hlin).
  destruct (linear_scaler_scales_every_target minmax_targets minmax_fitted_scaler
              ft a b (A3 x_210) (A3 x_210) y_12 eq_refl Hft Hlin eq_refl)
    as (Ht & Hi & _).
  - split; [reflexivity|]. repeat constructor.
  - simpl. lia.
  - simpl. lia.
  - eexists. split; [exact Ht|exact Hi].
Defined.

(** ** TimeSeriesTensorScaler.fit without a sample size *)

Section fit_all.
Context `{Numpy}.
Import TimeSeriesTensorScaler.

Lemma subsample_none m ts g :
  scaler_fit_sample ts = None → subsample m (ts, g) = (Ok m, (ts, g)).
Proof. intros Hs. unfold subsample, bind, get, ret. simpl. by rewrite Hs. Qed.

Lemma Scaler_fit_log sc X sc' :
  Scaler_fit sc X = Ok sc' → sk_fit_log sc' = sk_fit_log sc ++ [X].
Proof.
  unfold Scaler_fit. intros Hr. apply rbind_ok in Hr as (f & _ & Hr).
  by inversion Hr.
Qed.

(** X3. Without [scaler_fit_sample], a successful [fit] draws nothing
    from the random generator and fits the feature scaler on all the
    N*T rows of the (N, T, F) feature tensor, in sample-major order, and
    the target scaler on all the target values as one column. *)
Theorem fit_without_sample_uses_every_row features targets ts g u ts' g' :
  scaler_fit_sample ts = None →
  fit features targets (ts, g) = (Ok u, (ts', g')) →
  g' = g
  ∧ match scaler_features ts with
    | None => scaler_features ts' = None
    | Some sf =>
        ∃ sf' x, features = A3 x ∧ scaler_features ts' = Some sf'
          ∧ sk_fit_log sf'
            = sk_fit_log sf
              ++ [Nd2 ((shape3 x).1.1 * (shape3 x).1.2, (shape3 x).2) (concat (data3 x))]
    end
  ∧ match scaler_targets ts with
    | None => scaler_targets ts' = None
    | Some st =>
        ∃ st', scaler_targets ts' = Some st'
          ∧ sk_fit_log st' = sk_fit_log st ++ [as_column targets]
    end.
Proof.
  intros Hs Hr. unfold fit in Hr.
  apply bind_inv in Hr as ([ts0 g0] & s0 & Hget & Hr). inversion Hget; subst. clear Hget.
  apply bind_inv in Hr as ([] & [ts1 g1] & Hfeat & Hr).
  apply bind_inv in Hr as ([ts2 g2] & s2 & Hget & Hr). inversion Hget; subst. clear Hget.
  assert (Hfeat' :
    g2 = g0 ∧ scaler_fit_sample ts2 = None ∧ scaler_targets ts2 = scaler_targets ts0
    ∧ match scaler_features ts0 with
      | None => scaler_features ts2 = None
      | Some sf =>
          ∃ sf' x, features = A3 x ∧ scaler_features ts2 = Some sf'
            ∧ sk_fit_log sf'
              = sk_fit_log sf
                ++ [Nd2 ((shape3 x).1.1 * (shape3 x).1.2, (shape3 x).2)
                        (concat (data3 x))]
      end).
  { destruct (scaler_features ts0) as [sf|] eqn:Esf.
    - apply bind_inv in Hfeat as (rows & s & Hrows & Hfeat).
      apply lift_inv in Hrows as [Hrows ->].
      rewrite (bind_ok _ _ _ _ _ (subsample_none rows ts0 g0 Hs)) in Hfeat.
      apply bind_inv in Hfeat as (sf' & s & Hfit & Hfeat).
      apply lift_inv in Hfit as [Hfit ->].
      apply bind_inv in Hfeat as ([ts4 g4] & s & Hget & Hput).
      inversion Hget; subst. inversion Hput; subst. simpl.
      split; [done|]. split; [done|]. split; [done|].
      destruct features as [v|m|x]; simpl in Hrows; try done.
      destruct (decide ((shape3 x).2 = 0)); [done|]. inversion Hrows; subst.
      exists sf', x. split; [done|]. split; [done|]. by apply Scaler_fit_log.
    - inversion Hfeat; subst. by rewrite Esf. }
  destruct Hfeat' as (-> & Hs2 & Ht & Hf). rewrite <- Ht.
  destruct (scaler_targets ts2) as [st|] eqn:Est.
  - rewrite (bind_ok _ _ _ _ _ (subsample_none _ ts2 g0 Hs2)) in Hr.
    apply bind_inv in Hr as (st' & s & Hfit & Hr).
    apply lift_inv in Hfit as [Hfit ->].
    apply bind_inv in Hr as ([ts4 g4] & s & Hget & Hput).
    inversion Hget; subst. inversion Hput; subst. simpl.
    split; [done|]. split.
    + destruct (scaler_features ts0); [|done].
      destruct Hf as (sf' & x & ? & ? & ?). eauto.
    + exists st'. split; [done|]. by apply Scaler_fit_log.
  - inversion Hr; subst. rewrite Est. done.
Qed.
End fit_all.

Lemma fit_without_sample_uses_every_row_witness :
  ∃ ts' sf', TimeSeriesTensorScaler.fit (H := numpy_example) x_ex y_ex (minmax_scalers, tt)
             = (Ok tt, (ts', tt))
    ∧ TimeSeriesTensorScaler.scaler_features ts' = Some sf'
    ∧ sk_fit_log sf' = [Nd2 (4, 1) [[of_Z 1]; [NaN]; [of_Z 3]; [of_Z 4]]].
Proof.
  destruct (TimeSeriesTensorScaler.fit (H := numpy_example) x_ex y_ex (minmax_scalers, tt))
    as [[[]|e] [ts' []]] eqn:E.
  - destruct (fit_without_sample_uses_every_row (H := numpy_example)
                x_ex y_ex minmax_scalers tt tt ts' tt eq_refl E)
      as (_ & (sf' & x & Hx & Hsf & Hlog) & _).
    injection Hx as <-. exists ts', sf'. split; [reflexivity|]. split; [exact Hsf|].
    exact Hlog.
  - assert (Hs : succeeded
                   (TimeSeriesTensorScaler.fit (H := numpy_example) x_ex y_ex
                      (minmax_scalers, tt)).1 = true) by (vm_compute; reflexivity).
    rewrite E in Hs. discriminate Hs.
Defined.

(** ** TensorPreprocessor: errors, repeated calls and missing values *)

Lemma fillna_idem v : fillna (fillna v) = fillna v.
Proof. by destruct v. Qed.

Lemma fillna_present v : isnan (fillna v) = false.
Proof. by destruct v. Qed.

Lemma clamp_present lo hi v : isnan v = false → isnan (clamp lo hi v) = false.
Proof.
  destruct v as [|q]; [done|]. intros _.
  destruct lo as [[|a]|], hi as [[|b]|]; unfold clamp, set_where, flt, fgt; simpl;
    repeat case_bool_decide; done.
Qed.

Lemma clamp_idem lo hi v : clamp lo hi (clamp lo hi v) = clamp lo hi v.
Proof.
  destruct lo as [[|a]|], hi as [[|b]|], v as [|q];
    unfold clamp, set_where, flt, fgt; simpl; try done;
    repeat (case_bool_decide; simpl; try done).
Qed.

Lemma tensor_target_idem self v :
  tensor_target self (tensor_target self v) = tensor_target self v.
Proof.
  unfold tensor_target. destruct (TensorPreprocessor.fill_na_target self).
  - assert (Hp : isnan (clamp (TensorPreprocessor.crop_low self)
                               (TensorPreprocessor.crop_high self) (fillna v)) = false)
      by apply clamp_present, fillna_present.
    destruct (clamp _ _ (fillna v)) as [|q] eqn:E; [done|].
    change (fillna (Num q)) with (Num q). rewrite <- E. apply clamp_idem.
  - apply clamp_idem.
Qed.

Lemma tensor_target_present self v :
  TensorPreprocessor.fill_na_target self = true → isnan (tensor_target self v) = false.
Proof. intros Hf. unfold tensor_target. rewrite Hf. apply clamp_present, fillna_present. Qed.

Lemma nd_map_idem f a : (∀ v, f (f v) = f v) → nd_map f (nd_map f a) = nd_map f a.
Proof. intros Hf. rewrite nd_map_nd_map. by apply nd_map_ext. Qed.

Lemma nd_len_nd_map f a : nd_len (nd_map f a) = nd_len a.
Proof. destruct a; simpl; [apply length_map|done..]. Qed.

Lemma nd_len_of_shape a b : nd_shape a = nd_shape b → nd_len a = nd_len b.
Proof. destruct a, b; simpl; intros E; by inversion E. Qed.

Lemma mapM_norm_index_raise F idx j :
  j ∈ idx → ¬ (- Z.of_nat F ≤ j < Z.of_nat F)%Z →
  mapM (norm_index F) idx = Raise IndexError.
Proof.
  intros Hin Hj. induction idx as [|i idx IH]; [by apply elem_of_nil in Hin|].
  simpl. unfold norm_index at 1.
  destruct (decide (0 ≤ i < Z.of_nat F)%Z) as [Hi|Hi]; simpl.
  - apply elem_of_cons in Hin as [->|Hin]; [lia|]. by rewrite IH.
  - destruct (decide (- Z.of_nat F ≤ i < 0)%Z) as [Hi'|Hi']; simpl; [|done].
    apply elem_of_cons in Hin as [->|Hin]; [lia|]. by rewrite IH.
Qed.

Lemma mapM_norm_index_mod F idx :
  Forall (λ j, (- Z.of_nat F ≤ j < Z.of_nat F)%Z) idx →
  mapM (norm_index F) (map (λ j, (j mod Z.of_nat F)%Z) idx) = mapM (norm_index F) idx.
Proof.
  induction 1 as [|j idx Hj _ IH]; simpl; [done|]. rewrite IH. f_equal.
  unfold norm_index.
  assert (HF : (0 < Z.of_nat F)%Z) by lia.
  pose proof (Z.mod_pos_bound j (Z.of_nat F) HF) as Hm.
  rewrite (decide_True (P := (0 ≤ j mod Z.of_nat F < Z.of_nat F)%Z)) by done.
  destruct (decide (0 ≤ j < Z.of_nat F)%Z) as [Hp|Hp].
  - by rewrite Z.mod_small.
  - rewrite decide_True by lia. do 2 f_equal.
    rewrite <- (Z.mod_small (j + Z.of_nat F) (Z.of_nat F)) by lia.
    rewrite <- (Z_mod_plus_full j 1 (Z.of_nat F)). f_equal. lia.
Qed.

Section tensor_calls.
Context `{Numpy}.
Import TensorPreprocessor.

Lemma world_ext w1 w2 :
  (∀ l, store w1 !! l = store w2 !! l) → rng w1 = rng w2 → ts_scaler w1 = ts_scaler w2 →
  w1 = w2.
Proof.
  destruct w1, w2. simpl. intros Hs -> ->. f_equal. by apply map_eq.
Qed.

Lemma first_item_unfitted sf a :
  sk_fitted sf = None → wf a → 0 < nd_len a →
  ∃ Xi, getitem a 0 = Ok Xi ∧ Scaler_transform sf Xi = Raise NotFittedError.
Proof.
  intros Hf Hwf Hlen. unfold Scaler_transform. rewrite Hf.
  destruct a as [v|m|x]; simpl in *.
  - destruct v; simpl in *; [lia|eauto].
  - destruct Hwf as [Hl _]. destruct (data2 m); simpl in *; [lia|eauto].
  - destruct Hwf as [Hl _]. destruct (data3 x); simpl in *; [lia|eauto].
Qed.

(** X4. [run_inference] on a preprocessor whose feature scaler has not
    been fitted raises NotFittedError for an input with at least one
    sample, and the array of the caller has been zero-filled in place
    all the same. *)
Theorem run_inference_before_fit self lx w x sf :
  store w !! lx = Some x → wf x → 0 < nd_len x →
  TimeSeriesTensorScaler.scaler_features (ts_scaler w) = Some sf →
  sk_fitted sf = None →
  run_inference self lx w
  = (Raise NotFittedError,
     mkWorld (<[lx := nd_map fillna x]> (store w)) (rng w) (ts_scaler w)).
Proof.
  intros Hx Hwf Hlen Hsf Hfit. rewrite (run_inference_spec self lx w x Hx). f_equal.
  unfold TimeSeriesTensorScaler.transform_features. rewrite Hsf, nd_len_nd_map.
  destruct (first_item_unfitted sf (nd_map fillna x) Hfit) as (Xi & HXi & Hraise).
  { by apply nd_map_wf. }
  { by rewrite nd_len_nd_map. }
  destruct (nd_len x) as [|n]; [lia|].
  cbn [seq for_each]. rewrite HXi. cbn [rbind]. by rewrite Hraise.
Qed.

Lemma fit_not_rank_3 features targets ts g sf :
  TimeSeriesTensorScaler.scaler_features ts = Some sf → (∀ a, features ≠ A3 a) →
  TimeSeriesTensorScaler.fit features targets (ts, g) = (Raise IndexError, (ts, g)).
Proof.
  intros Hsf Hx. unfold TimeSeriesTensorScaler.fit, bind, get, lift. simpl.
  rewrite Hsf. destruct features as [v|m|a]; simpl; try done. by destruct (Hx a).
Qed.

Lemma augmented_not_rank_3 self x :
  time_id_features_idx self ≠ [] → (∀ a, x ≠ A3 a) → augmented self x = Raise IndexError.
Proof.
  intros Hidx Hx. unfold augmented.
  rewrite decide_False by (by destruct (time_id_features_idx self)).
  destruct x as [v|m|a]; simpl; try done. by destruct (Hx a).
Qed.

(** X5. [run_train] needs a feature array of three dimensions as soon
    as time features or a feature scaler are configured: on any other
    array it raises IndexError and fits no scaler.  With time features
    the failure comes before any write; with a feature scaler only, the
    arrays of the caller have already been filled and clamped in place. *)
Theorem run_train_needs_three_axes self ly lx w x y :
  lx ≠ ly → store w !! lx = Some x → store w !! ly = Some y → (∀ a, x ≠ A3 a) →
  (time_id_features_idx self ≠ [] →
     run_train self (ly, lx) w = (Raise IndexError, w))
  ∧ (time_id_features_idx self = [] →
     is_Some (TimeSeriesTensorScaler.scaler_features (ts_scaler w)) →
     ∃ w', run_train self (ly, lx) w = (Raise IndexError, w')
       ∧ ts_scaler w' = ts_scaler w
       ∧ store w' !! ly = Some (nd_map (tensor_target self) y)
       ∧ store w' !! lx = Some (nd_map fillna x)).
Proof.
  intros Hne Hx Hy Hrank. split.
  - intros Hidx. unfold run_train.
    by rewrite (bind_raise _ _ _ _ _
                  (_run_data_raise self ly lx w x y IndexError false Hx Hy
                     (augmented_not_rank_3 self x Hidx Hrank))).
  - intros Hidx [sf Hsf].
    assert (Ha : augmented self x = Ok x).
    { unfold augmented. by rewrite Hidx. }
    destruct (_run_data_nocopy self ly lx w x y x Hne Hx Hy Ha)
      as (xr & w1 & Hrun & Hdx & Hly & Hlx & _ & Hrng & Hts).
    rewrite Hidx in Hlx. simpl in Hlx.
    exists w1. unfold run_train.
    rewrite (bind_ok _ _ _ _ _ Hrun), (bind_ok _ _ _ _ _ Hdx).
    rewrite (bind_ok _ _ _ _ _ (deref_caller w1 ly _ Hly)).
    rewrite (bind_raise _ _ w1 IndexError w1); [done|].
    unfold ts_fit, with_scaler.
    rewrite (fit_not_rank_3 _ _ _ _ sf).
    + by destruct w1.
    + by rewrite Hts.
    + intros a. destruct x as [v|m|a0]; simpl; try done. by destruct (Hrank a0).
Qed.

(** X6. [_run_data] writes nothing new when it is called a second time
    on the same arrays: filling and clamping are idempotent, so the
    second call leaves the arrays of the caller as the first call left
    them and returns the same features and targets. *)
Theorem run_data_again self ly lx w x y xr yr w1 :
  lx ≠ ly → store w !! lx = Some x → store w !! ly = Some y →
  _run_data self (ly, lx) false w = (Ok (xr, yr), w1) →
  ∃ xr' yr' x' y',
    _run_data self (ly, lx) false w1 = (Ok (xr', yr'), w1)
    ∧ deref xr w1 = (Ok x', w1) ∧ deref xr' w1 = (Ok x', w1)
    ∧ deref yr w1 = (Ok y', w1) ∧ deref yr' w1 = (Ok y', w1).
Proof.
  intros Hne Hx Hy Hr.
  destruct (augmented self x) as [xa|e] eqn:Ha.
  2:{ by rewrite (_run_data_raise self ly lx w x y e false Hx Hy Ha) in Hr. }
  destruct (_run_data_nocopy self ly lx w x y xa Hne Hx Hy Ha)
    as (xr0 & w0 & Hrun & Hdx & Hly & Hlx & Hother & Hrng & Hts).
  rewrite Hrun in Hr. inversion Hr; subst xr0 yr w0. clear Hr.
  set (x1 := if decide (length (time_id_features_idx self) = 0)
             then nd_map fillna x else x) in *.
  assert (Ha1 : augmented self x1 = Ok (if decide (length (time_id_features_idx self) = 0)
                                        then x1 else xa)).
  { unfold augmented, x1 in *.
    destruct (decide (length (time_id_features_idx self) = 0)); done. }
  destruct (_run_data_nocopy self ly lx w1 x1 _ _ Hne Hlx Hly Ha1)
    as (xr2 & w2 & Hrun2 & Hdx2 & Hly2 & Hlx2 & Hother2 & Hrng2 & Hts2).
  assert (Hw : w2 = w1).
  { apply world_ext; [|done..]. intros l.
    destruct (decide (l = lx)) as [->|Hl1].
    - rewrite Hlx2, Hlx. unfold x1.
      destruct (decide (length (time_id_features_idx self) = 0)); [|done].
      by rewrite (nd_map_idem fillna x fillna_idem).
    - destruct (decide (l = ly)) as [->|Hl2]; [|by apply Hother2].
      rewrite Hly2, Hly. by rewrite (nd_map_idem _ y (tensor_target_idem self)). }
  subst w2. exists xr2, (Caller ly), (nd_map fillna xa), (nd_map (tensor_target self) y).
  split; [done|]. split; [done|]. split.
  - rewrite Hdx2. unfold x1 in *.
    destruct (decide (length (time_id_features_idx self) = 0)); [|done].
    unfold augmented in Ha. rewrite decide_True in Ha by done. inversion Ha; subst xa.
    by rewrite (nd_map_idem fillna x fillna_idem).
  - split; by apply deref_caller.
Qed.

(** X7. The features [_run_data] returns hold no missing value, the
    appended time features included, and with [fill_na_target] the
    targets hold none either, whatever crop bounds are configured. *)
Theorem run_data_leaves_no_nan self ly lx copy w x y xr yr w' :
  lx ≠ ly → store w !! lx = Some x → store w !! ly = Some y →
  _run_data self (ly, lx) copy w = (Ok (xr, yr), w') →
  ∃ x' y', deref xr w' = (Ok x', w') ∧ deref yr w' = (Ok y', w')
    ∧ Forall (λ v, isnan v = false) (ravel x')
    ∧ (fill_na_target self = true → Forall (λ v, isnan v = false) (ravel y')).
Proof.
  intros Hne Hx Hy Hr.
  destruct (augmented self x) as [xa|e] eqn:Ha.
  2:{ by rewrite (_run_data_raise self ly lx w x y e copy Hx Hy Ha) in Hr. }
  exists (nd_map fillna xa), (nd_map (tensor_target self) y).
  assert (Hnan : Forall (λ v, isnan v = false) (ravel (nd_map fillna xa))
                 ∧ (fill_na_target self = true →
                    Forall (λ v, isnan v = false)
                           (ravel (nd_map (tensor_target self) y)))).
  { rewrite !ravel_nd_map. split.
    - apply Forall_map, Forall_forall. intros v _. apply fillna_present.
    - intros Hf. apply Forall_map, Forall_forall. intros v _.
      by apply tensor_target_present. }
  destruct copy.
  - rewrite (_run_data_copy self ly lx w x y xa Hx Hy Ha) in Hr.
    inversion Hr; subst. done.
  - destruct (_run_data_nocopy self ly lx w x y xa Hne Hx Hy Ha)
      as (xr0 & w0 & Hrun & Hdx & Hly & _).
    rewrite Hrun in Hr. inversion Hr; subst.
    split; [done|]. split; [by apply deref_caller|done].
Qed.

(** X8. The entries of [time_id_features_idx] are numpy column indices
    of the feature axis: a negative entry counts from the end, so every
    entry [j] in [-F, F) selects the column [j mod F]; an entry outside
    that range makes [_run_data] raise IndexError before it has written
    anything, with and without the copy. *)
Theorem time_feature_indices self ly lx w x y :
  store w !! lx = Some (A3 x) → store w !! ly = Some y →
  (Forall (λ j, (- Z.of_nat (shape3 x).2 ≤ j < Z.of_nat (shape3 x).2)%Z)
          (time_id_features_idx self) →
     time_features (time_id_features_idx self) (A3 x)
     = time_features (map (λ j, (j mod Z.of_nat (shape3 x).2)%Z)
                          (time_id_features_idx self)) (A3 x))
  ∧ (∀ j copy,
       j ∈ time_id_features_idx self →
       ¬ (- Z.of_nat (shape3 x).2 ≤ j < Z.of_nat (shape3 x).2)%Z →
       _run_data self (ly, lx) copy w = (Raise IndexError, w)).
Proof.
  intros Hx Hy. split.
  - intros Hidx. unfold time_features. by rewrite mapM_norm_index_mod.
  - intros j copy Hj Hout. apply (_run_data_raise self ly lx w (A3 x) y); [done..|].
    unfold augmented. rewrite decide_False.
    + unfold time_features. by rewrite (mapM_norm_index_raise _ _ j Hj Hout).
    + destruct (time_id_features_idx self); [by apply elem_of_nil in Hj|done].
Qed.
End tensor_calls.

Section tensor_run.
Context `{Numpy}.
Import TensorPreprocessor.

Lemma timesteps_of_shape y y' t :
  nd_shape y' = nd_shape y → timesteps_of y' = Ok t →
  ∃ T, nd_shape y !! 1 = Some T
       ∧ t = mkTimesteps (nd_len y, T) (replicate (nd_len y) (seq 0 T)).
Proof.
  intros Hs. unfold timesteps_of. rewrite (nd_len_of_shape _ _ Hs), Hs.
  destruct (nd_shape y !! 1) as [T|]; [|done]. intros [= <-]. eauto.
Qed.

(** X9. The time steps [run] returns are, for each of the two target
    arrays, one row [0, 1, ..., T-1] for every sample, where (N, T) is the
    shape of the targets the caller passed; one-dimensional targets have
    no second axis, so [run] never returns for them. *)
Theorem run_timesteps self lyt lxt lyv lxv w xt yt xv yv
    x_train x_valid t1 t2 y_train y_valid w' :
  store w !! lxt = Some xt → store w !! lyt = Some yt →
  store w !! lxv = Some xv → store w !! lyv = Some yv →
  run self (lyt, lxt) (lyv, lxv) w
  = (Ok (x_train, x_valid, t1, t2, y_train, y_valid), w') →
  (∃ T, nd_shape yt !! 1 = Some T
        ∧ t1 = mkTimesteps (nd_len yt, T) (replicate (nd_len yt) (seq 0 T)))
  ∧ (∃ T, nd_shape yv !! 1 = Some T
          ∧ t2 = mkTimesteps (nd_len yv, T) (replicate (nd_len yv) (seq 0 T)))
  ∧ (∀ v, yt ≠ A1 v) ∧ (∀ v, yv ≠ A1 v).
Proof.
  intros Hxt Hyt Hxv Hyv Hr.
  destruct (run_steps _ _ _ _ _ _ _ _ _ _ _ _ _ _ _ _ _ Hxt Hyt Hxv Hyv Hr)
    as (xat & xav & u & _ & _ & _ & Htt & Htv & Ht1 & Ht2).
  apply transform_keeps in Htt as [_ Htt]. apply transform_keeps in Htv as [_ Htv].
  apply transform_targets_keeps in Htt as [Hst _].
  apply transform_targets_keeps in Htv as [Hsv _].
  rewrite nd_map_shape in Hst, Hsv.
  destruct (timesteps_of_shape yt y_train t1 Hst Ht1) as (Tt & HTt & Et1).
  destruct (timesteps_of_shape yv y_valid t2 Hsv Ht2) as (Tv & HTv & Et2).
  split; [eauto|]. split; [eauto|]. split.
  - intros v ->. done.
  - intros v ->. done.
Qed.

(** X10. [run] and [run_train] agree on the training data: whenever
    [run] returns, [run_train] on the same training arrays and the same
    preprocessor state returns the same scaled features and targets and
    leaves the same fitted scalers and random state. *)
Theorem run_train_agrees_with_run self lyt lxt lyv lxv w xt yt xv yv
    x_train x_valid t1 t2 y_train y_valid w' :
  lxt ≠ lyt →
  store w !! lxt = Some xt → store w !! lyt = Some yt →
  store w !! lxv = Some xv → store w !! lyv = Some yv →
  run self (lyt, lxt) (lyv, lxv) w
  = (Ok (x_train, x_valid, t1, t2, y_train, y_valid), w') →
  ∃ w'', run_train self (lyt, lxt) w = (Ok (x_train, y_train), w'')
    ∧ ts_scaler w'' = ts_scaler w' ∧ rng w'' = rng w'.
Proof.
  intros Hne Hxt Hyt Hxv Hyv Hr.
  destruct (run_steps _ _ _ _ _ _ _ _ _ _ _ _ _ _ _ _ _ Hxt Hyt Hxv Hyv Hr)
    as (xat & xav & u & Hat & _ & Hfit & Htt & _).
  destruct (_run_data_nocopy self lyt lxt w xt yt xat Hne Hxt Hyt Hat)
    as (xr & w1 & Hrun & Hdx & Hly & _ & _ & Hrng & Hts).
  eexists. unfold run_train.
  rewrite (bind_ok _ _ _ _ _ Hrun), (bind_ok _ _ _ _ _ Hdx).
  rewrite (bind_ok _ _ _ _ _ (deref_caller w1 lyt _ Hly)).
  rewrite (bind_ok _ _ _ _ _ (ts_fit_elsewhere _ _ w w1 _ _ Hfit Hrng Hts)).
  unfold bind. rewrite ts_transform_spec. simpl. rewrite Htt. done.
Qed.
End tensor_run.

(** ** TimeSplitter: windows that are not positive, and indexing *)

(** X11. A window size of zero makes [TimeSplitter.__init__] raise
    ValueError (the step of [range]); a negative window size, or a tensor
    without time steps, gives a splitter without chunks. *)
Theorem TimeSplitter_without_chunks x y :
  TimeSplitter.__init__ x y 0 = Raise ValueError
  ∧ (∀ W, (W < 0)%Z → TimeSplitter.__init__ x y W = Ok (TimeSplitter.mk [] [] []))
  ∧ (∀ W, (0 < W)%Z → (shape3 x).1.2 = 0 →
          TimeSplitter.__init__ x y W = Ok (TimeSplitter.mk [] [] [])).
Proof.
  split; [done|]. split.
  - intros W HW. destruct W as [|p|p]; try lia. done.
  - intros W HW HT. destruct W as [|p|p]; try lia.
    unfold TimeSplitter.__init__. rewrite HT. done.
Qed.

Lemma TimeSplitter_without_chunks_witness :
  TimeSplitter.__init__ x_231 y_23 (-2) = Ok (TimeSplitter.mk [] [] []).
Proof.
  apply (proj1 (proj2 (TimeSplitter_without_chunks x_231 y_23))). lia.
Defined.

(** X12. A splitter holds as many feature chunks as target chunks, and
    [__len__] is that number: [__getitem__] returns the pair of chunks at
    every index below it, and raises IndexError at every index from it on
    (indices are taken from 0). *)
Theorem TimeSplitter_index_range x y W ts :
  TimeSplitter.__init__ x y W = Ok ts →
  length (TimeSplitter.x_chunked ts) = TimeSplitter.__len__ ts
  ∧ length (TimeSplitter.y_chunked ts) = TimeSplitter.__len__ ts
  ∧ (∀ i, i < TimeSplitter.__len__ ts →
       ∃ cx cy, TimeSplitter.x_chunked ts !! i = Some cx
         ∧ TimeSplitter.y_chunked ts !! i = Some cy
         ∧ TimeSplitter.__getitem__ ts i = Ok (cx, cy)
         ∧ (shape3 cx).1.1 = (shape3 x).1.1 ∧ (shape3 cx).2 = (shape3 x).2
         ∧ (shape2 cy).1 = (shape2 y).1)
  ∧ (∀ i, TimeSplitter.__len__ ts ≤ i →
       TimeSplitter.__getitem__ ts i = Raise IndexError).
Proof.
  unfold TimeSplitter.__init__. intros Hr. apply rbind_ok in Hr as (starts & _ & Hr).
  inversion Hr; subst. clear Hr.
  unfold TimeSplitter.__len__, TimeSplitter.__getitem__. simpl.
  rewrite length_seq, !length_map. split; [done|]. split; [done|]. split.
  - intros i Hi. apply lookup_lt_is_Some in Hi as [s Hs].
    rewrite !list_lookup_fmap, Hs. simpl. eexists _, _. done.
  - intros i Hi. rewrite !list_lookup_fmap.
    by rewrite (proj2 (lookup_ge_None starts i) Hi).
Qed.

Lemma TimeSplitter_index_range_witness :
  ∃ ts, TimeSplitter.__init__ x_231 y_23 2 = Ok ts
    ∧ TimeSplitter.__len__ ts = 2
    ∧ TimeSplitter.__getitem__ ts 2 = Raise IndexError.
Proof.
  destruct (TimeSplitter.__init__ x_231 y_23 2) as [ts|e] eqn:E.
  - destruct (TimeSplitter_index_range x_231 y_23 2 ts E) as (_ & _ & _ & Hout).
    assert (Hlen : TimeSplitter.__len__ ts = 2).
    { vm_compute in E. injection E as <-. reflexivity. }
    exists ts. split; [reflexivity|]. split; [exact Hlen|].
    apply Hout. rewrite Hlen. lia.
  - vm_compute in E. discriminate E.
Defined.

(** X13. A window that covers the whole time axis gives one chunk, which
    is the tensor itself (and the target array itself). *)
Theorem TimeSplitter_single_window x y (W : Z) N T F :
  wf3 x → wf2 y → shape3 x = (N, T, F) → shape2 y = (N, T) →
  0 < T → (Z.of_nat T ≤ W)%Z →
  TimeSplitter.__init__ x y W = Ok (TimeSplitter.mk [x] [y] [0]).
Proof.
  intros [_ Hx] [_ Hy] Hsx Hsy HT HW. destruct W as [|p|p]; try lia.
  unfold TimeSplitter.__init__. rewrite Hsx. simpl.
  destruct T as [|T']; [lia|]. simpl.
  assert (Hstop : range_loop T' (Pos.to_nat p) (S T') (Pos.to_nat p) = []).
  { destruct T'; simpl; [done|]. rewrite decide_False by lia. done. }
  rewrite Hstop. simpl. do 2 f_equal.
  - destruct x as [sx dx]. simpl in *. subst sx. unfold slice_time3. simpl.
    replace (Z.to_nat (Z.pos p) `min` S T' - 0) with (S T') by lia.
    do 2 f_equal. apply map_id_on. eapply Forall_impl; [|exact Hx].
    intros smp [Hl _]. simpl in *. unfold slice. rewrite drop_0.
    apply take_ge. lia.
  - destruct y as [sy dy]. simpl in *. subst sy. unfold slice_time2. simpl.
    replace (Z.to_nat (Z.pos p) `min` S T' - 0) with (S T') by lia.
    do 2 f_equal. apply map_id_on. eapply Forall_impl; [|exact Hy].
    intros row Hl. simpl in *. unfold slice. rewrite drop_0.
    apply take_ge. lia.
Qed.

Lemma TimeSplitter_single_window_witness :
  TimeSplitter.__init__ x_231 y_23 3 = Ok (TimeSplitter.mk [x_231] [y_23] [0]).
Proof.
  apply (TimeSplitter_single_window x_231 y_23 3 2 3 1).
  - split; [reflexivity|]. repeat constructor.
  - split; [reflexivity|]. repeat constructor.
  - reflexivity.
  - reflexivity.
  - lia.
  - lia.
Defined.

(** ** Reading the time step out of a row id *)

Lemma app_String c s1 s2 : String c s1 +:+ s2 = String c (s1 +:+ s2).
Proof. reflexivity. Qed.

Lemma app_empty s : "" +:+ s = s.
Proof. reflexivity. Qed.

Lemma parse_digits_app acc s1 s2 :
  parse_digits acc (s1 +:+ s2) = parse_digits acc s1 ≫= λ a, parse_digits a s2.
Proof.
  revert acc. induction s1 as [|c s1 IH]; intros acc; [done|].
  rewrite app_String. simpl.
  destruct (digit_of c) as [d|]; simpl; [apply IH|done].
Qed.

Lemma string_app_assoc (s1 s2 s3 : string) : (s1 +:+ s2) +:+ s3 = s1 +:+ (s2 +:+ s3).
Proof.
  induction s1 as [|c s1 IH]; [done|]. by rewrite !app_String, IH.
Qed.

Lemma pretty_N_go_app x s : pretty.pretty_N_go x s = pretty.pretty_N_go x "" +:+ s.
Proof.
  revert s. induction (N.lt_wf_0 x) as [x _ IH]; intros s.
  destruct (decide (x = 0)%N) as [->|Hx]; [by rewrite !pretty.pretty_N_go_0|].
  rewrite !(pretty.pretty_N_go_step x) by lia.
  assert (Hlt : (x `div` 10 < x)%N) by (apply N.div_lt; lia).
  rewrite (IH _ Hlt (String _ s)), (IH _ Hlt (String _ "")).
  by rewrite string_app_assoc, app_String, app_empty.
Qed.

Lemma digit_of_pretty_N_char d :
  (d < 10)%N → digit_of (pretty.pretty_N_char d) = Some (Z.of_N d).
Proof.
  intros Hd.
  assert (d = 0 ∨ d = 1 ∨ d = 2 ∨ d = 3 ∨ d = 4 ∨ d = 5
          ∨ d = 6 ∨ d = 7 ∨ d = 8 ∨ d = 9)%N as Hc by lia.
  repeat (destruct Hc as [->|Hc]; [reflexivity|]). by subst.
Qed.

Lemma parse_digits_pretty_N_go x :
  parse_digits 0 (pretty.pretty_N_go x "") = Some (Z.of_N x).
Proof.
  induction (N.lt_wf_0 x) as [x _ IH].
  destruct (decide (x = 0)%N) as [->|Hx]; [done|].
  rewrite pretty.pretty_N_go_step, pretty_N_go_app, parse_digits_app by lia.
  rewrite IH by (apply N.div_lt; lia). simpl.
  rewrite digit_of_pretty_N_char by (apply N.mod_lt; lia). simpl. f_equal.
  rewrite (N.div_mod x 10) at 3 by lia. lia.
Qed.

Lemma pretty_N_go_nonempty x : (0 < x)%N → pretty.pretty_N_go x "" ≠ "".
Proof.
  intros Hx. rewrite pretty.pretty_N_go_step, pretty_N_go_app by done.
  destruct (pretty.pretty_N_go (x `div` 10) "");
    [by rewrite app_empty|by rewrite app_String].
Qed.

Lemma digit_first c s acc z :
  parse_digits acc (String c s) = Some z → ∃ d, digit_of c = Some d.
Proof. simpl. destruct (digit_of c) as [d|]; [eauto|done]. Qed.

Lemma parse_int_digits s z :
  s ≠ "" → parse_digits 0 s = Some z → parse_int s = Ok z.
Proof.
  destruct s as [|c s]; [done|]. intros _ Hp.
  destruct (digit_first c s 0 z Hp) as [d Hd].
  assert (Hc : c ≠ "-"%char ∧ c ≠ "+"%char).
  { split; intros ->; vm_compute in Hd; discriminate Hd. }
  destruct Hc as [Hm Hpl]. unfold parse_int.
  destruct c as [[] [] [] [] [] [] [] []]; try (by rewrite Hp);
    by (destruct Hm || destruct Hpl).
Qed.

Lemma parse_int_pretty (z : Z) : parse_int (pretty.pretty z) = Ok z.
Proof.
  destruct z as [|p|p].
  - reflexivity.
  - unfold pretty.pretty, pretty.pretty_Z, pretty.pretty, pretty.pretty_positive,
      pretty.pretty, pretty.pretty_N.
    rewrite decide_False by done.
    apply parse_int_digits; [by apply pretty_N_go_nonempty|].
    by rewrite parse_digits_pretty_N_go.
  - unfold pretty.pretty, pretty.pretty_Z, pretty.pretty, pretty.pretty_positive,
      pretty.pretty, pretty.pretty_N.
    rewrite decide_False by done. rewrite app_String, app_empty.
    pose proof (pretty_N_go_nonempty (N.pos p) ltac:(done)) as Hne.
    pose proof (parse_digits_pretty_N_go (N.pos p)) as Hp.
    unfold parse_int.
    destruct (pretty.pretty_N_go (N.pos p) "") as [|c s]; [done|]. by rewrite Hp.
Qed.

Lemma first_segment_digits acc s1 s2 a :
  parse_digits acc s1 = Some a → first_segment (s1 +:+ String "_" s2) = s1.
Proof.
  revert acc. induction s1 as [|c s1 IH]; intros acc Hp.
  - rewrite app_empty. done.
  - rewrite app_String. simpl.
    simpl in Hp. destruct (digit_of c) as [d|] eqn:Hd; [|done]. simpl in Hp.
    rewrite decide_False by (intros ->; vm_compute in Hd; discriminate Hd).
    f_equal. by eapply IH.
Qed.

Lemma first_segment_pretty (z : Z) s :
  first_segment (pretty.pretty z +:+ String "_" s) = pretty.pretty z.
Proof.
  destruct z as [|p|p].
  - reflexivity.
  - unfold pretty.pretty, pretty.pretty_Z, pretty.pretty, pretty.pretty_positive,
      pretty.pretty, pretty.pretty_N.
    rewrite decide_False by done.
    by eapply first_segment_digits, parse_digits_pretty_N_go.
  - unfold pretty.pretty, pretty.pretty_Z, pretty.pretty, pretty.pretty_positive,
      pretty.pretty, pretty.pretty_N.
    rewrite decide_False by done. rewrite !app_String, app_empty. simpl. f_equal.
    by eapply first_segment_digits, parse_digits_pretty_N_go.
Qed.

(** ** NaivePreprocessor: columns, errors and time features *)

Lemma mapM_map_ok {A B C} (f : B → result C) (h : A → B) (k : A → C) l :
  (∀ a, f (h a) = Ok (k a)) → mapM f (map h l) = Ok (map k l).
Proof.
  intros Hf. induction l as [|a l IH]; simpl; [done|]. by rewrite Hf, IH.
Qed.

Lemma mapM_raise_elem {A B} (f : A → result B) l e :
  mapM f l = Raise e → ∃ a, a ∈ l ∧ f a = Raise e.
Proof.
  induction l as [|a l IH]; simpl; [done|].
  destruct (f a) as [b|e'] eqn:Hb; simpl.
  - destruct (mapM f l) as [bs|e'']; simpl; [done|].
    intros [= <-]. destruct (IH eq_refl) as (a' & Ha' & Hf).
    exists a'. split; [by apply list_elem_of_further|done].
  - intros [= <-]. exists a. split; [apply list_elem_of_here|done].
Qed.

Lemma has_col_false name f : has_col name f = false → get_col name f = None.
Proof.
  unfold has_col. intros Hh. apply bool_decide_eq_false in Hh.
  destruct (get_col name f); [by destruct Hh|done].
Qed.

Lemma has_col_true name f : has_col name f = true → ∃ c, get_col name f = Some c.
Proof. unfold has_col. intros Hh. by apply bool_decide_eq_true in Hh as [c Hc]; eauto. Qed.

Lemma assoc_app name cols1 cols2 :
  assoc name (cols1 ++ cols2)
  = match assoc name cols1 with Some c => Some c | None => assoc name cols2 end.
Proof.
  induction cols1 as [|[n c] cols1 IH]; simpl; [done|].
  destruct (decide (n = name)); [done|apply IH].
Qed.

Lemma assoc_not_label name cols :
  Forall (λ p : string * column, p.1 ≠ name) cols → assoc name cols = None.
Proof.
  induction 1 as [|[n c] cols Hn _ IH]; simpl; [done|]. simpl in Hn.
  by rewrite decide_False.
Qed.



Lemma drop_cols_missing l labels f :
  l ∈ labels → has_col l f = false → drop_cols labels f = Raise KeyError.
Proof.
  intros Hin Hno. unfold drop_cols.
  destruct (forallb (λ l, has_col l f) labels) eqn:E; [|done].
  rewrite forallb_forall in E. rewrite (E l) in Hno; [done|].
  by apply list_elem_of_In.
Qed.


Lemma time_id_added_has f f1 : time_id_added f f1 → has_col "time_id" f1 = true.
Proof.
  intros [[Hh ->]|(_ & ids & _ & ->)]; [done|].
  unfold has_col. apply bool_decide_eq_true. rewrite get_col_set_col_eq. eauto.
Qed.

Section naive_calls.
Context `{Numpy}.
Import NaivePreprocessor.

Lemma time_id_of_row_ids f rows :
  rows ≠ [] → get_col "row_id" f = Some (StrCol (map row_id_of rows)) →
  time_id_of_row_id f = Ok (NumCol (map (λ p, of_Z p.1) rows)).
Proof.
  intros Hne Hc. unfold time_id_of_row_id. rewrite Hc.
  destruct rows as [|r rows]; [done|].
  change (map row_id_of (r :: rows)) with (row_id_of r :: map row_id_of rows).
  cbv beta iota.
  change (row_id_of r :: map row_id_of rows) with (map row_id_of (r :: rows)).
  rewrite (mapM_map_ok _ row_id_of fst).
  - simpl. by rewrite map_map.
  - intros [z s]. unfold row_id_of. simpl.
    rewrite app_String, app_empty, first_segment_pretty. apply parse_int_pretty.
Qed.

(** X14. For a frame without a [time_id] column whose row ids read
    [<t>_<suffix>] with an integer [t] in decimal, a call of [_run] that
    returns has added to the frame of the caller the column [time_id]
    holding the [t] of every row. *)
Theorem naive_run_reads_time_id_from_row_id self df fit w f rows r w' :
  store w !! df = Some f → has_col "time_id" f = false →
  get_col "row_id" f = Some (StrCol (map row_id_of rows)) →
  _run self df fit w = (Ok r, w') →
  store w'
  = <[df := set_col "time_id" (NumCol (map (λ p, of_Z p.1) rows)) f]> (store w).
Proof.
  intros Hf Hno Hrows Hr.
  destruct (_run_inv self df fit w f r w' Hf Hr) as (f1 & ff & Hadd & Hst & _).
  destruct Hadd as [[Hh _]|(_ & ids & Hids & ->)]; [congruence|].
  destruct (decide (rows = [])) as [->|Hne].
  { unfold time_id_of_row_id in Hids. rewrite Hrows in Hids. done. }
  rewrite (time_id_of_row_ids f rows Hne Hrows) in Hids. by inversion Hids; subst.
Qed.







Lemma time_columns_labels prefix stat keys dgb cols :
  time_columns prefix stat keys dgb = Ok cols →
  Forall (λ p : string * column, ∃ c, p.1 = prefix +:+ c) cols.
Proof.
  apply mapM_ok_Forall. intros [c col] p. simpl.
  destruct col as [l|vals]; [done|]. intros [= <-]. simpl. eauto.
Qed.

Lemma time_columns_errors prefix stat keys dgb e :
  time_columns prefix stat keys dgb = Raise e → e = TypeError.
Proof.
  intros Hr. apply mapM_raise_elem in Hr as ([c col] & _ & Hc). simpl in Hc.
  destruct col; by inversion Hc.
Qed.

Lemma select_grouped_errors feats f e :
  select_grouped feats f = Raise e → e = KeyError.
Proof.
  unfold select_grouped. destruct (get_col "time_id" f) as [tid|]; [|by intros [= <-]].
  destruct (mapM _ feats) as [cols|e'] eqn:E; simpl; [done|]. intros [= <-].
  apply mapM_raise_elem in E as (c & _ & Hc). destruct (get_col c f); by inversion Hc.
Qed.

Lemma feature_frame_without_row_id self f :
  has_col "row_id" f = false →
  ∃ e, feature_frame self f = Raise e ∧ (e = KeyError ∨ e = TypeError)
       ∧ (time_id_features self = [] → e = KeyError).
Proof.
  intros Hno. unfold feature_frame, _add_time_features.
  destruct (decide (length (time_id_features self) = 0)) as [Hk|Hk].
  - simpl. exists KeyError.
    rewrite (drop_cols_missing "row_id")
      by (done || destruct (has_col "target" f); set_solver).
    auto.
  - assert (Hfeats : time_id_features self ≠ []) by (by destruct (time_id_features self)).
    destruct (select_grouped _ f) as [[keys dgb]|e] eqn:Eg; simpl.
    2:{ exists e. split; [done|]. split; [left; by eapply select_grouped_errors|done]. }
    destruct (time_columns "time_mean_" nanmean keys dgb) as [ms|e] eqn:Em; simpl.
    2:{ exists e. split; [done|]. split; [right; by eapply time_columns_errors|done]. }
    destruct (time_columns "time_std_" nanstd1 keys dgb) as [ss|e] eqn:Es; simpl.
    2:{ exists e. split; [done|]. split; [right; by eapply time_columns_errors|done]. }
    assert (Hrow : has_col "row_id" (mkFrame (nrows f) (columns f ++ ms ++ ss)) = false).
    { pose proof (has_col_false _ _ Hno) as Hn. unfold get_col in Hn.
      unfold has_col, get_col. simpl. apply bool_decide_eq_false.
      rewrite !assoc_app, Hn.
      rewrite (assoc_not_label "row_id" ms), (assoc_not_label "row_id" ss).
      - by intros [? ?].
      - eapply Forall_impl; [|exact (time_columns_labels _ _ _ _ _ Es)].
        intros p [c ->]. by rewrite app_String.
      - eapply Forall_impl; [|exact (time_columns_labels _ _ _ _ _ Em)].
        intros p [c ->]. by rewrite app_String. }
    exists KeyError.
    rewrite (drop_cols_missing "row_id")
      by (done || destruct (has_col "target" _); set_solver).
    auto.
Qed.

(** X16. [_run] needs the [row_id] column even when the frame has a
    [time_id] column already: without both columns it raises
    AttributeError (the column is read to derive [time_id]), and with
    [time_id] alone it raises too: KeyError when [row_id] is dropped,
    unless the time features have failed before that; the frame and the
    scaler are as before the call. *)
Theorem naive_run_needs_row_id self df fit w f :
  store w !! df = Some f → has_col "row_id" f = false →
  (has_col "time_id" f = false → _run self df fit w = (Raise AttributeError, w))
  ∧ (has_col "time_id" f = true →
     ∃ e, _run self df fit w = (Raise e, w)
          ∧ (time_id_features self = [] → e = KeyError)).
Proof.
  intros Hf Hno.
  assert (Hread : read_frame df w = (Ok f, w)).
  { unfold read_frame, bind, get, ret. simpl. by rewrite Hf. }
  split.
  - intros Htid. unfold _run. rewrite (bind_ok _ _ _ _ _ Hread), Htid.
    rewrite (bind_raise _ _ w AttributeError w); [done|].
    rewrite (bind_raise _ _ w AttributeError w); [done|].
    unfold lift, time_id_of_row_id. by rewrite (has_col_false _ _ Hno).
  - intros Htid.
    destruct (feature_frame_without_row_id self f Hno) as (e & He & _ & Hkey).
    exists e. split; [|done].
    unfold _run. rewrite (bind_ok _ _ _ _ _ Hread), Htid.
    rewrite (bind_ok (ret tt) _ _ _ _ eq_refl), (bind_ok _ _ _ _ _ Hread).
    rewrite (bind_raise _ _ w e w); [done|]. unfold lift. by rewrite He.
Qed.

(** X17. Without a [target] column [run_train] raises AttributeError,
    but only after [_run] has done its work: the call ends in the state
    [_run] leaves, with the [time_id] column added and the scaler
    fitted. *)
Theorem run_train_without_target self tr w f x w1 :
  store w !! tr = Some f → get_col "target" f = None →
  _run self tr true w = (Ok x, w1) →
  run_train self tr w = (Raise AttributeError, w1).
Proof.
  intros Hf Hno Hrun.
  destruct (_run_inv self tr true w f x w1 Hf Hrun) as (f1 & ff & Hadd & Hst & _).
  unfold run_train. rewrite (bind_ok _ _ _ _ _ Hrun).
  rewrite (bind_raise _ _ w1 AttributeError w1); [done|].
  unfold target_values, read_frame, bind, get, ret, raise. simpl.
  rewrite Hst, lookup_insert_eq.
  by rewrite (time_id_added_cols f f1 "target" Hadd), Hno.
Qed.
End naive_calls.

Lemma present_length l : length (present l) ≤ length l.
Proof.
  unfold present. induction l as [|[|q] l IH].
  - done.
  - change (length (omap (λ v : float, match v with Num q => Some q | NaN => None end) l)
            ≤ S (length l)). lia.
  - change (S (length (omap (λ v : float, match v with Num q => Some q | NaN => None end)
                            l)) ≤ S (length l)). lia.
Qed.

Lemma values_of_key_length k keys vals :
  length (values_of_key k keys vals) ≤ rows_of_key k keys.
Proof.
  destruct k as [k|]; simpl; [|lia]. unfold rows_of_key. rewrite length_fmap.
  revert vals. induction keys as [|key keys IH]; intros vals; [done|].
  destruct vals as [|v vals]; simpl; [lia|].
  rewrite !filter_cons. simpl.
  destruct (decide (key = Some k)); simpl; specialize (IH vals); lia.
Qed.

Lemma group_value_map k (g : key → float) l :
  group_value k (map (λ k', (k', g k')) l) = if decide (k ∈ l) then Some (g k) else None.
Proof.
  induction l as [|k' l IH]; simpl.
  { by destruct (decide (k ∈ [])) as [?%elem_of_nil|]. }
  destruct (decide (k' = k)) as [->|Hne].
  - by rewrite decide_True by apply list_elem_of_here.
  - rewrite IH. destruct (decide (k ∈ l)) as [Hin|Hin].
    + by rewrite decide_True by (by apply list_elem_of_further).
    + rewrite decide_False; [done|]. rewrite elem_of_cons. by intros [?|?].
Qed.

(** Grouping, aggregating and merging back gives every row the
    statistic over the rows of its key. *)
Lemma merge_left_spec stat keys vals :
  stat [] = NaN →
  merge_left keys (aggregate stat (groupby keys vals)) = over_rows_of_key stat keys vals.
Proof.
  intros Hnil. unfold merge_left, aggregate, groupby, over_rows_of_key.
  rewrite map_map. simpl.
  apply map_ext_in. intros [k|] Hin; simpl; [|done].
  rewrite (group_value_map k
             (λ k', stat (snd <$> filter (λ p : option key * float, p.1 = Some k')
                                         (zip keys vals)))).
  rewrite decide_True; [done|].
  apply elem_of_remove_dups, list_elem_of_omap. exists (Some k).
  split; [by apply list_elem_of_In|done].
Qed.

Lemma append_inj prefix s1 s2 : prefix +:+ s1 = prefix +:+ s2 → s1 = s2.
Proof.
  induction prefix as [|c p IH]; [done|]. rewrite !app_String. intros [= ?]. auto.
Qed.

Lemma assoc_labels name (cols : list (string * column)) :
  name ∈ cols.*1 → is_Some (assoc name cols).
Proof.
  induction cols as [|[n c] cols IH]; simpl; [by intros ?%elem_of_nil|].
  destruct (decide (n = name)); [eauto|]. rewrite elem_of_cons. intros [?|?]; [done|auto].
Qed.

Lemma labels_map_fst {A} (g : A → string * column) (h : A → string) l :
  (∀ a, (g a).1 = h a) → (map g l).*1 = h <$> l.
Proof.
  intros Hg. induction l as [|a l IH]; [done|]. cbn. f_equal; [apply Hg|exact IH].
Qed.

Lemma assoc_map_label prefix (g : string → column) feats c :
  c ∈ feats →
  assoc (prefix +:+ c) (map (λ c', (prefix +:+ c', g c')) feats) = Some (g c).
Proof.
  induction feats as [|c' feats IH]; simpl; [by intros ?%elem_of_nil|].
  destruct (decide (prefix +:+ c' = prefix +:+ c)) as [Heq|Hne].
  - apply append_inj in Heq as ->. done.
  - rewrite elem_of_cons. intros [->|Hin]; [done|auto].
Qed.

Lemma mean_label_not_std c c' : "time_mean_" +:+ c ≠ "time_std_" +:+ c'.
Proof. rewrite !app_String. intros [=]. Qed.

Section naive_time_features.
Context `{Numpy}.
Import NaivePreprocessor.

Lemma nanstd1_single l : length l ≤ 1 → nanstd1 l = NaN.
Proof.
  intros Hl. pose proof (present_length l) as Hp. unfold nanstd1.
  destruct (present l) as [|q [|q' qs]]; simpl in *; [done|done|lia].
Qed.

Lemma select_grouped_spec feats f dgb :
  select_grouped feats f = Ok dgb →
  ∃ tid, get_col "time_id" f = Some tid ∧ dgb.1 = row_keys tid
    ∧ Forall2 (λ c p, p.1 = c ∧ get_col c f = Some p.2) feats dgb.2.
Proof.
  unfold select_grouped. destruct (get_col "time_id" f) as [tid|]; [|done].
  intros Hr. apply rbind_ok in Hr as (cols & Hcols & Hr). inversion Hr; subst. clear Hr.
  exists tid. split; [done|]. split; [done|]. simpl.
  revert cols Hcols. induction feats as [|c feats IH]; intros cols; simpl.
  - intros [= <-]. constructor.
  - intros Hr. apply rbind_ok in Hr as (p & Hp & Hr).
    apply rbind_ok in Hr as (ps & Hps & Hr). inversion Hr; subst. clear Hr.
    constructor; [|by apply IH].
    destruct (get_col c f) as [col|]; [|done]. by inversion Hp.
Qed.

Lemma time_columns_spec prefix stat f feats keys dgb cols :
  stat [] = NaN →
  Forall2 (λ c p, p.1 = c ∧ get_col c f = Some p.2) feats dgb →
  time_columns prefix stat keys dgb = Ok cols →
  cols = map (λ c, (prefix +:+ c,
                    NumCol (over_rows_of_key stat keys (feature_values f c)))) feats
  ∧ Forall (λ c, ∃ vals, get_col c f = Some (NumCol vals)) feats.
Proof.
  intros Hnil Hall. unfold time_columns. revert cols.
  induction Hall as [|c [c' col] feats dgb [Hc Hcol] _ IH]; intros cols; simpl.
  - by intros [= <-].
  - intros Hr. apply rbind_ok in Hr as (p & Hp & Hr).
    apply rbind_ok in Hr as (ps & Hps & Hr). inversion Hr; subst. clear Hr.
    destruct (IH ps Hps) as [-> Hfeats]. simpl in *.
    destruct col as [l|vals]; [done|]. inversion Hp; subst. split.
    + f_equal. unfold feature_values. rewrite Hcol. by rewrite merge_left_spec.
    + constructor; eauto.
Qed.

(** The frame [_add_time_features] returns for a non-empty feature
    list. *)
Lemma add_time_features_columns self f f' :
  time_id_features self ≠ [] → _add_time_features self f = Ok f' →
  ∃ tid, get_col "time_id" f = Some tid
    ∧ Forall (λ c, ∃ vals, get_col c f = Some (NumCol vals)) (time_id_features self)
    ∧ f' = mkFrame (nrows f)
             (columns f
              ++ map (λ c, ("time_mean_" +:+ c,
                            NumCol (over_rows_of_key nanmean (row_keys tid)
                                      (feature_values f c))))
                     (time_id_features self)
              ++ map (λ c, ("time_std_" +:+ c,
                            NumCol (over_rows_of_key nanstd1 (row_keys tid)
                                      (feature_values f c))))
                     (time_id_features self)).
Proof.
  intros Hne Hr. unfold _add_time_features in Hr.
  rewrite decide_False in Hr by (by destruct (time_id_features self)).
  apply rbind_ok in Hr as (dgb & Hdgb & Hr).
  apply rbind_ok in Hr as (ms & Hms & Hr). apply rbind_ok in Hr as (ss & Hss & Hr).
  inversion Hr; subst. clear Hr.
  destruct (select_grouped_spec _ _ _ Hdgb) as (tid & Htid & Hkeys & Hall).
  rewrite Hkeys in Hms, Hss.
  destruct (time_columns_spec _ _ f _ _ _ _ eq_refl Hall Hms) as [-> Hnum].
  destruct (time_columns_spec _ _ f _ _ _ _ eq_refl Hall Hss) as [-> _].
  exists tid. done.
Qed.

(** X18. [NaivePreprocessor._add_time_features], for distinct configured
    features whose labels [time_mean_<c>] and [time_std_<c>] are new to
    the frame: a call that returns keeps the rows and the columns of the
    frame, adds two columns for every configured feature, and keeps
    distinct labels distinct.  In the column [time_mean_<c>] every row
    holds the mean, and in [time_std_<c>] the sample standard deviation,
    of the feature [c] over the rows that have the [time_id] of the row,
    missing values left out; the [time_id] may be numeric or text, and a
    row whose [time_id] is missing is in no group and gets NaN.  A
    [time_id] that occurs in one row only gets NaN as its standard
    deviation. *)
Theorem naive_time_features self f f' :
  NoDup (time_id_features self) →
  Forall (λ c, has_col ("time_mean_" +:+ c) f = false
               ∧ has_col ("time_std_" +:+ c) f = false) (time_id_features self) →
  _add_time_features self f = Ok f' →
  nrows f' = nrows f
  ∧ length (columns f') = length (columns f) + 2 * length (time_id_features self)
  ∧ (∀ name, has_col name f = true → get_col name f' = get_col name f)
  ∧ (NoDup (columns f).*1 → NoDup (columns f').*1)
  ∧ ∀ c, c ∈ time_id_features self →
      ∃ tid vals,
        get_col "time_id" f = Some tid ∧ get_col c f = Some (NumCol vals)
        ∧ get_col ("time_mean_" +:+ c) f'
          = Some (NumCol (map (λ k, nanmean (values_of_key k (row_keys tid) vals))
                              (row_keys tid)))
        ∧ get_col ("time_std_" +:+ c) f'
          = Some (NumCol (map (λ k, nanstd1 (values_of_key k (row_keys tid) vals))
                              (row_keys tid)))
        ∧ ∀ k, rows_of_key k (row_keys tid) ≤ 1 →
               nanstd1 (values_of_key k (row_keys tid) vals) = NaN.
Proof.
  intros Hnd Hfresh Hr.
  destruct (decide (time_id_features self = [])) as [Hnil|Hne].
  { unfold _add_time_features in Hr. rewrite Hnil in *. simpl in Hr.
    inversion Hr; subst. split; [done|]. split; [simpl; lia|].
    split; [done|]. split; [done|]. by intros c ?%elem_of_nil. }
  destruct (add_time_features_columns self f f' Hne Hr) as (tid & Htid & Hnum & ->).
  set (ms := map (λ c, ("time_mean_" +:+ c, _)) (time_id_features self)).
  set (ss := map (λ c, ("time_std_" +:+ c, _)) (time_id_features self)).
  assert (Hms : ms.*1 = (String.append "time_mean_") <$> time_id_features self)
    by (by apply labels_map_fst).
  assert (Hss : ss.*1 = (String.append "time_std_") <$> time_id_features self)
    by (by apply labels_map_fst).
  assert (Hfresh' : ∀ c, c ∈ time_id_features self →
            get_col ("time_mean_" +:+ c) f = None ∧ get_col ("time_std_" +:+ c) f = None).
  { intros c Hc. destruct (proj1 (list.Forall_forall _ _) Hfresh c Hc) as [H1 H2].
    split; by apply has_col_false. }
  split; [done|]. split.
  { simpl. subst ms ss. rewrite !length_app, !length_map. lia. }
  split.
  { intros name [col Hcol]%has_col_true. unfold get_col in *. simpl.
    by rewrite assoc_app, Hcol. }
  split.
  { intros Hlabels. simpl. rewrite !fmap_app, Hms, Hss.
    apply list.NoDup_app. split; [done|]. split.
    - intros name Hin%assoc_labels Hnew. destruct Hin as [col Hcol].
      apply elem_of_app in Hnew as [Hn|Hn];
        apply list_elem_of_fmap in Hn as (c & -> & Hc);
        destruct (Hfresh' c Hc) as [H1 H2]; unfold get_col in *; congruence.
    - apply list.NoDup_app. split; [|split].
      + apply (NoDup_fmap_2_strong _); [|done]. intros ? ? _ _. apply append_inj.
      + intros name Hm Hs.
        apply list_elem_of_fmap in Hm as (c & -> & _).
        apply list_elem_of_fmap in Hs as (c' & Heq & _).
        by apply mean_label_not_std in Heq.
      + apply (NoDup_fmap_2_strong _); [|done]. intros ? ? _ _. apply append_inj. }
  intros c Hc.
  destruct (proj1 (list.Forall_forall _ _) Hnum c Hc) as [vals Hvals].
  destruct (Hfresh' c Hc) as [H1 H2]. unfold get_col in H1, H2.
  exists tid, vals. split; [done|]. split; [done|].
  assert (Hfv : feature_values f c = vals) by (unfold feature_values; by rewrite Hvals).
  split; [|split].
  - unfold get_col. simpl. rewrite assoc_app, H1, assoc_app. subst ms.
    rewrite (assoc_map_label "time_mean_" _ _ c Hc). by rewrite Hfv.
  - unfold get_col. simpl. rewrite assoc_app, H2, assoc_app.
    rewrite (assoc_not_label _ ms).
    + subst ss. rewrite (assoc_map_label "time_std_" _ _ c Hc). by rewrite Hfv.
    + subst ms. apply Forall_map, list.Forall_forall. intros c' _. simpl.
      apply mean_label_not_std.
  - intros k Hrows. apply nanstd1_single.
    pose proof (values_of_key_length k (row_keys tid) vals). lia.
Qed.

Lemma time_id_values_spec df w c w' :
  time_id_values df w = (Ok c, w') →
  w' = w ∧ ∃ f, store w !! df = Some f ∧ get_col "time_id" f = Some c.
Proof.
  unfold time_id_values. intros Hr.
  apply bind_inv in Hr as (f & w1 & Hf & Hr). apply read_frame_inv in Hf as [Hf ->].
  destruct (get_col "time_id" f) as [c'|] eqn:E; [|done].
  inversion Hr; subst. eauto.
Qed.

(** X19. The time steps [NaivePreprocessor.run] returns are the
    [time_id] columns of the two frames, as the frames bring them or as
    [_run] derives them from [row_id]: for row ids [<t>_<suffix>] the
    training time steps are the [t] of the rows. *)
Theorem naive_run_timesteps self tr va w ftr fva
    x_train x_valid t1 t2 y_train y_valid w' :
  store w !! tr = Some ftr → store w !! va = Some fva →
  run self tr va w = (Ok (x_train, x_valid, t1, t2, y_train, y_valid), w') →
  (∃ f1, time_id_added ftr f1 ∧ get_col "time_id" f1 = Some t1)
  ∧ (va ≠ tr → ∃ f2, time_id_added fva f2 ∧ get_col "time_id" f2 = Some t2)
  ∧ (va = tr → t2 = t1)
  ∧ (∀ rows, has_col "time_id" ftr = false →
             get_col "row_id" ftr = Some (StrCol (map row_id_of rows)) →
             t1 = NumCol (map (λ p, of_Z p.1) rows)).
Proof.
  intros Htr Hva Hr. unfold run in Hr.
  apply bind_inv in Hr as ([x0 y0] & w1 & Hrt & Hr).
  destruct (run_train_inv_naive self tr w ftr x0 y0 w1 Htr Hrt)
    as (f1 & ff & f2 & c & Hadd & _ & _ & Hst1 & Hcols & _).
  pose proof (Hcols "time_id" ltac:(done)) as Htid2.
  apply bind_inv in Hr as (xv & w2 & Hinf & Hr). unfold run_inference in Hinf.
  assert (Hva1 : ∃ fva1, store w1 !! va = Some fva1
                         ∧ fva1 = if decide (va = tr) then f2 else fva).
  { rewrite Hst1. destruct (decide (va = tr)) as [->|Hne].
    - rewrite lookup_insert_eq. eauto.
    - rewrite lookup_insert_ne by done. eauto. }
  destruct Hva1 as (fva1 & Hva1 & Efva1).
  destruct (_run_inv self va false w1 fva1 xv w2 Hva1 Hinf)
    as (fva2 & _ & Hadd2 & Hst2 & _).
  apply bind_inv in Hr as (t1' & w3 & Ht1 & Hr).
  apply time_id_values_spec in Ht1 as (-> & ft & Hft & Ht1).
  apply bind_inv in Hr as (t2' & w3 & Ht2 & Hr).
  apply time_id_values_spec in Ht2 as (-> & fv & Hfv & Ht2).
  apply bind_inv in Hr as (yv & w3 & Hyv & Hr).
  apply target_values_inv in Hyv as (-> & _).
  apply bind_inv in Hr as (yt & w3 & Hyt & Hr).
  apply target_values_inv in Hyt as (-> & _).
  inversion Hr; subst t1' t2'. clear Hr.
  rewrite Hst2, lookup_insert_eq in Hfv. inversion Hfv; subst fv. clear Hfv.
  assert (Hsame : va = tr → fva2 = f2).
  { intros ->. rewrite decide_True in Efva1 by done. subst fva1.
    destruct Hadd2 as [[_ ->]|(Hno & _)]; [done|].
    pose proof (time_id_added_has ftr f1 Hadd) as Hh.
    apply has_col_true in Hh as [c1 Hc1]. apply has_col_false in Hno. congruence. }
  assert (Ht1' : get_col "time_id" f1 = Some t1).
  { rewrite <- Htid2. rewrite Hst2 in Hft. destruct (decide (va = tr)) as [->|Hne].
    - rewrite lookup_insert_eq in Hft. inversion Hft; subst ft.
      by rewrite <- (Hsame eq_refl).
    - rewrite lookup_insert_ne, Hst1, lookup_insert_eq in Hft by done.
      by inversion Hft; subst ft. }
  split; [eauto|]. split; [|split].
  - intros Hne. rewrite decide_False in Efva1 by done. subst fva1. eauto.
  - intros Heq. rewrite (Hsame Heq), Htid2, Ht1' in Ht2. by inversion Ht2.
  - intros rows Hno Hrows.
    destruct Hadd as [[Hh _]|(_ & ids & Hids & ->)]; [congruence|].
    rewrite get_col_set_col_eq in Ht1'. inversion Ht1'; subst ids.
    destruct (decide (rows = [])) as [->|Hne].
    { unfold time_id_of_row_id in Hids. rewrite Hrows in Hids. done. }
    rewrite (time_id_of_row_ids ftr rows Hne Hrows) in Hids. by inversion Hids.
Qed.
End naive_time_features.

(** ** The theorems above at concrete inputs *)

Lemma run_inference_before_fit_witness :
  (TensorPreprocessor.run_inference tensor_fill 1 (world_ex minmax_scalers)).1
  = Raise NotFittedError.
Proof.
  rewrite (run_inference_before_fit (H := numpy_example) tensor_fill 1
             (world_ex minmax_scalers) x_ex MinMaxScaler eq_refl x_ex3_wf).
  - reflexivity.
  - simpl. lia.
  - reflexivity.
  - reflexivity.
Defined.

Lemma run_train_needs_three_axes_witness :
  TensorPreprocessor.run_train tensor_fill (1, 0) (world_ex no_scalers)
  = (Raise IndexError, world_ex no_scalers).
Proof.
  apply (proj1 (run_train_needs_three_axes (H := numpy_example) tensor_fill 1 0
                  (world_ex no_scalers) y_ex x_ex ltac:(lia) eq_refl eq_refl
                  ltac:(discriminate))).
  discriminate.
Defined.

Lemma run_data_again_witness :
  ∃ r w1 r',
    TensorPreprocessor._run_data tensor_fill (0, 1) false (world_ex no_scalers) = (Ok r, w1)
    ∧ TensorPreprocessor._run_data tensor_fill (0, 1) false w1 = (Ok r', w1).
Proof.
  destruct (TensorPreprocessor._run_data tensor_fill (0, 1) false (world_ex no_scalers))
    as [[[xr yr]|e] w1] eqn:E.
  - destruct (run_data_again (H := numpy_example) tensor_fill 0 1 (world_ex no_scalers)
                x_ex y_ex xr yr w1 ltac:(lia) eq_refl eq_refl E)
      as (xr' & yr' & _ & _ & Hagain & _).
    exists (xr, yr), w1, (xr', yr'). split; [reflexivity|exact Hagain].
  - by returns E.
Defined.

Lemma run_data_leaves_no_nan_witness :
  ∃ xr yr w' x',
    TensorPreprocessor._run_data tensor_nofill (0, 1) true (world_ex no_scalers)
    = (Ok (xr, yr), w')
    ∧ TensorPreprocessor.deref xr w' = (Ok x', w')
    ∧ Forall (λ v, isnan v = false) (ravel x').
Proof.
  destruct (TensorPreprocessor._run_data tensor_nofill (0, 1) true (world_ex no_scalers))
    as [[[xr yr]|e] w'] eqn:E.
  - destruct (run_data_leaves_no_nan (H := numpy_example) tensor_nofill 0 1 true
                (world_ex no_scalers) x_ex y_ex xr yr w' ltac:(lia) eq_refl eq_refl E)
      as (x' & y' & Hx & _ & Hnan & _).
    exists xr, yr, w', x'. split; [reflexivity|]. split; [exact Hx|exact Hnan].
  - by returns E.
Defined.

Lemma time_feature_indices_witness :
  TensorPreprocessor._run_data tensor_bad_index (0, 1) false (world_ex no_scalers)
  = (Raise IndexError, world_ex no_scalers).
Proof.
  apply (proj2 (time_feature_indices (H := numpy_example) tensor_bad_index 0 1
                  (world_ex no_scalers) x_ex3 y_ex eq_refl eq_refl) 5%Z false).
  - apply list_elem_of_here.
  - simpl. lia.
Defined.

Lemma run_timesteps_witness :
  ∃ x_train x_valid t2 y_train y_valid w',
    TensorPreprocessor.run tensor_fill (0, 1) (0, 1) (world_ex minmax_scalers)
    = (Ok (x_train, x_valid, mkTimesteps (2, 2) [[0; 1]; [0; 1]], t2, y_train, y_valid), w').
Proof.
  destruct (TensorPreprocessor.run tensor_fill (0, 1) (0, 1) (world_ex minmax_scalers))
    as [[[[[[[x_train x_valid] t1] t2] y_train] y_valid]|e] w'] eqn:E.
  - destruct (run_timesteps (H := numpy_example) tensor_fill 0 1 0 1
                (world_ex minmax_scalers) x_ex y_ex x_ex y_ex
                x_train x_valid t1 t2 y_train y_valid w' eq_refl eq_refl eq_refl eq_refl E)
      as ((T & HT & Ht1) & _).
    simpl in HT. injection HT as <-. subst t1.
    exists x_train, x_valid, t2, y_train, y_valid, w'. reflexivity.
  - by returns E.
Defined.

Lemma run_train_agrees_with_run_witness :
  ∃ x_train x_valid t1 t2 y_train y_valid w' w'',
    TensorPreprocessor.run tensor_fill (0, 1) (0, 1) (world_ex minmax_scalers)
    = (Ok (x_train, x_valid, t1, t2, y_train, y_valid), w')
    ∧ TensorPreprocessor.run_train tensor_fill (0, 1) (world_ex minmax_scalers)
      = (Ok (x_train, y_train), w'').
Proof.
  destruct (TensorPreprocessor.run tensor_fill (0, 1) (0, 1) (world_ex minmax_scalers))
    as [[[[[[[x_train x_valid] t1] t2] y_train] y_valid]|e] w'] eqn:E.
  - destruct (run_train_agrees_with_run (H := numpy_example) tensor_fill 0 1 0 1
                (world_ex minmax_scalers) x_ex y_ex x_ex y_ex
                x_train x_valid t1 t2 y_train y_valid w'
                ltac:(lia) eq_refl eq_refl eq_refl eq_refl E)
      as (w'' & Hrt & _).
    exists x_train, x_valid, t1, t2, y_train, y_valid, w', w''.
    split; [reflexivity|exact Hrt].
  - by returns E.
Defined.

Lemma naive_run_reads_time_id_from_row_id_witness :
  ∃ r w',
    NaivePreprocessor._run (H := numpy_example) naive_ex 0 false (nworld_ex None)
    = (Ok r, w')
    ∧ NaivePreprocessor.store w'
      = <[0 := set_col "time_id" (NumCol [of_Z 0; of_Z 0; of_Z 1]) frame_ex]>
          (NaivePreprocessor.store (nworld_ex None)).
Proof.
  destruct (NaivePreprocessor._run (H := numpy_example) naive_ex 0 false (nworld_ex None))
    as [[r|e] w'] eqn:E.
  - exists r, w'. split; [reflexivity|].
    apply (naive_run_reads_time_id_from_row_id (H := numpy_example) naive_ex 0 false
             (nworld_ex None) frame_ex [(0%Z, "1"); (0%Z, "2"); (1%Z, "1")] r w'
             eq_refl eq_refl).
    + vm_compute. reflexivity.
    + exact E.
  - by returns E.
Defined.


Lemma naive_run_needs_row_id_witness :
  NaivePreprocessor._run (H := numpy_example) naive_ex 0 false (nworld_of frame_no_row_id)
  = (Raise KeyError, nworld_of frame_no_row_id).
Proof.
  destruct (proj2 (naive_run_needs_row_id (H := numpy_example) naive_ex 0 false
                     (nworld_of frame_no_row_id)
                     frame_no_row_id eq_refl eq_refl) eq_refl)
    as (e & He & Hkey).
  rewrite (Hkey eq_refl) in He. exact He.
Defined.

Lemma run_train_without_target_witness :
  ∃ w1,
    NaivePreprocessor.run_train (H := numpy_example) naive_ex 0
      (nworld_of frame_no_target)
    = (Raise AttributeError, w1).
Proof.
  destruct (NaivePreprocessor._run (H := numpy_example) naive_ex 0 true
              (nworld_of frame_no_target))
    as [[x|e] w1] eqn:E.
  - exists w1.
    exact (run_train_without_target (H := numpy_example) naive_ex 0
             (nworld_of frame_no_target)
             frame_no_target x w1 eq_refl eq_refl E).
  - by returns E.
Defined.

Lemma naive_time_features_witness :
  ∃ f', NaivePreprocessor._add_time_features (H := numpy_example) naive_time frame_time
        = Ok f'
    ∧ length (columns f') = 5.
Proof.
  destruct (NaivePreprocessor._add_time_features (H := numpy_example) naive_time frame_time)
    as [f'|e] eqn:E.
  - destruct (naive_time_features (H := numpy_example) naive_time frame_time f')
      as (_ & Hlen & _).
    + apply NoDup_singleton.
    + repeat constructor.
    + exact E.
    + exists f'. split; [reflexivity|exact Hlen].
  - vm_compute in E. discriminate E.
Defined.

Lemma naive_run_timesteps_witness :
  ∃ x_train x_valid t2 y_train y_valid w',
    NaivePreprocessor.run (H := numpy_example) naive_ex 0 1 (nworld_two None)
    = (Ok (x_train, x_valid, NumCol [of_Z 0; of_Z 0; of_Z 1], t2, y_train, y_valid), w').
Proof.
  destruct (NaivePreprocessor.run (H := numpy_example) naive_ex 0 1 (nworld_two None))
    as [[[[[[[x_train x_valid] t1] t2] y_train] y_valid]|e] w'] eqn:E.
  - destruct (naive_run_timesteps (H := numpy_example) naive_ex 0 1 (nworld_two None)
                frame_ex frame_valid x_train x_valid t1 t2 y_train y_valid w'
                eq_refl eq_refl E) as (_ & _ & _ & Hrows).
    rewrite (Hrows [(0%Z, "1"); (0%Z, "2"); (1%Z, "1")] eq_refl
               ltac:(vm_compute; reflexivity)).
    exists x_train, x_valid, t2, y_train, y_valid, w'. reflexivity.
  - by returns E.
Defined.

(** ** Calls in sequence *)

Section sequences.
Context `{Numpy}.

(** X20. Without time features, the validation features [run] returns
    are the ones [run_inference] returns afterwards for the validation
    tensor: both are the zero-filled tensor under the feature scaler
    fitted on the training data. *)
Theorem run_inference_after_run self lyt lxt lyv lxv w xt yt xv yv
    x_train x_valid t1 t2 y_train y_valid w' :
  TensorPreprocessor.time_id_features_idx self = [] →
  TensorPreprocessor.store w !! lxt = Some xt →
  TensorPreprocessor.store w !! lyt = Some yt →
  TensorPreprocessor.store w !! lxv = Some xv →
  TensorPreprocessor.store w !! lyv = Some yv →
  TensorPreprocessor.run self (lyt, lxt) (lyv, lxv) w
  = (Ok (x_train, x_valid, t1, t2, y_train, y_valid), w') →
  ∃ w'', TensorPreprocessor.run_inference self lxv w' = (Ok x_valid, w'')
    ∧ TensorPreprocessor.ts_scaler w'' = TensorPreprocessor.ts_scaler w'.
Proof.
  intros Hidx Hxt Hyt Hxv Hyv Hr.
  destruct (run_steps _ _ _ _ _ _ _ _ _ _ _ _ _ _ _ _ _ Hxt Hyt Hxv Hyv Hr)
    as (xat & xav & u & _ & Hav & Hfit & _ & Htv & _).
  apply ts_fit_spec in Hfit as [Hst _].
  unfold augmented in Hav. rewrite Hidx in Hav. simpl in Hav. inversion Hav; subst xav.
  apply transform_keeps in Htv as [Htv _].
  rewrite <- Hst in Hxv.
  rewrite (run_inference_spec self lxv w' xv Hxv), Htv. eauto.
Qed.

(** X21. A second [NaivePreprocessor.run_train] on the same frame
    returns the same targets as the first: the first call has left the
    clamped targets in the frame, and clamping them again changes
    nothing. *)
Theorem naive_run_train_again self tr w f x y w1 x' y' w2 :
  NaivePreprocessor.store w !! tr = Some f →
  NaivePreprocessor.run_train self tr w = (Ok (x, y), w1) →
  NaivePreprocessor.run_train self tr w1 = (Ok (x', y'), w2) →
  y' = y.
Proof.
  intros Hf Hr1 Hr2.
  destruct (run_train_inv_naive self tr w f x y w1 Hf Hr1)
    as (f1 & ff & f2 & c & _ & _ & _ & Hst1 & _ & _ & Hy & Hcl).
  assert (Hf2 : NaivePreprocessor.store w1 !! tr = Some f2)
    by (by rewrite Hst1, lookup_insert_eq).
  destruct (run_train_inv_naive self tr w1 f2 x' y' w2 Hf2 Hr2)
    as (f1' & ff' & f2' & c' & Hadd' & _ & _ & _ & _ & Hc' & _ & Hcl').
  rewrite (time_id_added_cols f2 f1' "target" Hadd'), Hy in Hc' by done.
  inversion Hc'; subst c'. clear Hc'.
  unfold clamped in *. destruct c as [l|l].
  - destruct Hcl as (-> & Hlo & Hhi). by destruct Hcl' as (-> & _).
  - subst y. rewrite Hcl', map_map. f_equal. apply map_ext_in.
    intros v _. apply clamp_idem.
Qed.
End sequences.

Lemma run_inference_after_run_witness :
  ∃ x_train x_valid t1 t2 y_train y_valid w' w'',
    TensorPreprocessor.run tensor_plain (0, 1) (0, 1) (world_ex minmax_scalers)
    = (Ok (x_train, x_valid, t1, t2, y_train, y_valid), w')
    ∧ TensorPreprocessor.run_inference tensor_plain 1 w' = (Ok x_valid, w'').
Proof.
  destruct (TensorPreprocessor.run tensor_plain (0, 1) (0, 1) (world_ex minmax_scalers))
    as [[[[[[[x_train x_valid] t1] t2] y_train] y_valid]|e] w'] eqn:E.
  - destruct (run_inference_after_run (H := numpy_example) tensor_plain 0 1 0 1
                (world_ex minmax_scalers) x_ex y_ex x_ex y_ex
                x_train x_valid t1 t2 y_train y_valid w'
                eq_refl eq_refl eq_refl eq_refl eq_refl E) as (w'' & Hinf & _).
    exists x_train, x_valid, t1, t2, y_train, y_valid, w', w''.
    split; [reflexivity|exact Hinf].
  - by returns E.
Defined.

Lemma naive_run_train_again_witness :
  ∃ x w1 x' w2,
    NaivePreprocessor.run_train (H := numpy_example) naive_ex 0 (nworld_ex None)
    = (Ok (x, NumCol [of_Z (-1); of_Z 0; of_Z 1]), w1)
    ∧ NaivePreprocessor.run_train (H := numpy_example) naive_ex 0 w1
      = (Ok (x', NumCol [of_Z (-1); of_Z 0; of_Z 1]), w2).
Proof.
  eassert (E1 : NaivePreprocessor.run_train (H := numpy_example) naive_ex 0 (nworld_ex None)
                = (Ok (_, _), _)) by (vm_compute; reflexivity).
  match type of E1 with
  | _ = (_, ?w1) =>
      eassert (E2 : NaivePreprocessor.run_train (H := numpy_example) naive_ex 0 w1
                    = (Ok (_, _), _)) by (vm_compute; reflexivity)
  end.
  pose proof (naive_run_train_again (H := numpy_example) _ _ _ _ _ _ _ _ _ _
                (eq_refl : NaivePreprocessor.store (nworld_ex None) !! 0 = Some frame_ex)
                E1 E2) as Hsame.
  eexists _, _, _, _. split; [exact E1|].
  exact (eq_trans E2 (f_equal (λ t, (Ok (_, t), _)) Hsame)).
Defined.
(** ** corr_loss *)

Lemma fmul_comm v w : fmul v w = fmul w v.
Proof. destruct v, w; simpl; try done. f_equal. apply Qcmult_comm. Qed.

Lemma zip_with_comm {A B} (f : A → A → B) l1 l2 :
  (∀ a b, f a b = f b a) → zip_with f l1 l2 = zip_with f l2 l1.
Proof.
  intros Hf. revert l2. induction l1 as [|a l1 IH]; intros [|b l2]; simpl; try done.
  by rewrite Hf, IH.
Qed.

Lemma broadcast_op_comm f a b :
  (∀ v w, f v w = f w v) → broadcast_op f a b = broadcast_op f b a.
Proof.
  intros Hf. unfold broadcast_op.
  destruct (decide (length a = length b)) as [Hl|Hl].
  - rewrite decide_True by done. f_equal. by apply zip_with_comm.
  - rewrite decide_False by done.
    destruct a as [|x [|x' a]], b as [|y [|y' b]]; simpl in Hl; try done;
      cbv beta iota; f_equal; apply map_ext; intros v; apply Hf.
Qed.

Lemma tensor_sum_nan t : NaN ∈ t → tensor_sum t = NaN.
Proof.
  unfold tensor_sum. induction t as [|v t IH]; intros Hin; [by apply elem_of_nil in Hin|].
  apply elem_of_cons in Hin as [<-|Hin]; simpl; [done|].
  rewrite IH by done. by destruct v.
Qed.

Lemma tensor_sum_all_nan t : t ≠ [] → Forall (λ v, v = NaN) t → tensor_sum t = NaN.
Proof.
  intros Hne Hall. apply tensor_sum_nan. destruct Hall as [|v t -> _]; [done|].
  apply list_elem_of_here.
Qed.

Section torch_loss.
Context `{Numpy}.

Lemma squares_of_nan_mean t :
  NaN ∈ t →
  tensor_sum (map (λ v, fmul v v) (map (λ v, fsub v (tensor_mean t)) t)) = NaN.
Proof.
  intros Hin. unfold tensor_mean. rewrite (tensor_sum_nan t Hin). simpl.
  apply tensor_sum_all_nan.
  - destruct t; [by apply elem_of_nil in Hin|done].
  - rewrite map_map. apply Forall_map, Forall_forall. intros v _. by destruct v.
Qed.

(** X22. [corr_loss] is symmetric in its two arguments: the products
    and the two sums of squares do not depend on the order of targets and
    predictions (nor does the size check of the elementwise product). *)
Theorem corr_loss_symmetric targ pred : corr_loss targ pred = corr_loss pred targ.
Proof.
  unfold corr_loss. rewrite (broadcast_op_comm fmul _ _ fmul_comm).
  destruct (broadcast_op fmul _ _) as [prod|]; simpl; [|done].
  by rewrite (fmul_comm (tensor_sum (map _ (map _ targ)))).
Qed.

(** X23. A missing value in the targets or in the predictions makes
    the loss NaN: whenever [corr_loss] returns for tensors of which one
    holds a NaN, it returns NaN. *)
Theorem corr_loss_of_nan targ pred r :
  NaN ∈ targ ∨ NaN ∈ pred → corr_loss targ pred = Some r → r = NaN.
Proof.
  intros Hin. unfold corr_loss.
  destruct (broadcast_op fmul _ _) as [prod|]; simpl; [|done].
  intros [= <-].
  assert (Hden : fmul (tensor_sum (map (λ v, fmul v v)
                                       (map (λ v, fsub v (tensor_mean targ)) targ)))
                      (tensor_sum (map (λ v, fmul v v)
                                       (map (λ v, fsub v (tensor_mean pred)) pred)))
                 = NaN).
  { destruct Hin as [Hin|Hin]; rewrite (squares_of_nan_mean _ Hin); [done|].
    by destruct (tensor_sum _). }
  rewrite Hden. simpl. by destruct (tensor_sum prod).
Qed.
End torch_loss.

Lemma corr_loss_of_nan_witness :
  corr_loss (H := numpy_example) [of_Z 1; NaN; of_Z 3] [of_Z 2] = Some NaN.
Proof.
  destruct (corr_loss (H := numpy_example) [of_Z 1; NaN; of_Z 3] [of_Z 2]) as [r|] eqn:E.
  - f_equal. apply (corr_loss_of_nan (H := numpy_example) _ _ r) in E; [exact E|].
    left. apply list_elem_of_further, list_elem_of_here.
  - vm_compute in E. discriminate E.
Defined.
